(** * site-differ: change detection, cooldown-gated notification and
      bounded diff snippets

    A shallow embedding of the Lambda handler of the website diff checker
    ([src/lambda/app.py], [dynamodb_state.py], [fetcher.py],
    [diff_generator.py], [normalizer.py], [ses_notifier.py]) and the
    properties of its specification.

    Conventions.
    - A Python [str] is a [string]; a character of the embedding stands for
      one code point below 256.
    - A Python [dict] whose keys are attribute names is a [gmap string _].
    - Python integers are [Z]; lengths and list indices are [nat]; a Python
      [float] is a binary64 number, a [spec_float] rounded to nearest even.
    - Effects (the DynamoDB table, the wall clock, the log, the requests
      sent and the digests handed to SES) are threaded through an explicit
      [world]; an exception is the [Raise] outcome of a computation.
    - Library code the repository calls (difflib, requests, boto3, datetime,
      BeautifulSoup, hashlib) is either transcribed (difflib) or taken from
      an explicit environment record [env]. *)

From Stdlib Require Import ZArith NArith Lia Ascii String List Bool SpecFloat.
From stdpp Require Import base option list gmap strings.

Open Scope string_scope.
Open Scope list_scope.
Open Scope nat_scope.

(* ===================================================================== *)
(** ** Python string primitives                                          *)
(* ===================================================================== *)

Module PyStr.

(** The line boundaries of [str.splitlines] that exist below code point
    256: LF, CR, VT, FF, FS, GS, RS and NEL. *)
Definition is_line_boundary (c : ascii) : bool :=
  match c with
  | "010"%char | "013"%char | "011"%char | "012"%char
  | "028"%char | "029"%char | "030"%char | "133"%char => true
  | _ => false
  end.

(** [s.splitlines()]: CR LF counts as one boundary, and no empty line is
    produced after a final boundary. *)
Fixpoint splitlines (s : string) : list string :=
  match s with
  | EmptyString => []
  | String c s' =>
      if is_line_boundary c then
        match s' with
        | String d s'' =>
            if Ascii.eqb c "013" && Ascii.eqb d "010"
            then "" :: splitlines s''
            else "" :: splitlines s'
        | EmptyString => [""]
        end
      else
        match splitlines s' with
        | [] => [String c ""]
        | l :: ls => String c l :: ls
        end
  end.

(** [sep.join(l)]. *)
Definition join (sep : string) (l : list string) : string :=
  String.concat sep l.

(** [s.startswith(p)]. *)
Fixpoint startswith (s p : string) {struct p} : bool :=
  match p with
  | EmptyString => true
  | String c p' =>
      match s with
      | String d s' => Ascii.eqb c d && startswith s' p'
      | EmptyString => false
      end
  end.

(** [len(s)]. *)
Definition len (s : string) : nat := String.length s.

(** [s[:n]]. *)
Fixpoint slice_to (n : nat) (s : string) : string :=
  match n, s with
  | S n', String c s' => String c (slice_to n' s')
  | _, _ => ""
  end.

(** [s.replace(old, new)] for a one-character [old]. *)
Fixpoint replace_char (old : ascii) (new : string) (s : string) : string :=
  match s with
  | EmptyString => ""
  | String c s' =>
      if Ascii.eqb c old then new +:+ replace_char old new s'
      else String c (replace_char old new s')
  end.

(** The newline character, as a string. *)
Definition LF : string := String "010" "".

Definition digit_char (d : N) : ascii :=
  ascii_of_N (48 + d).

Fixpoint digits_go (fuel : nat) (n : N) (acc : string) : string :=
  match fuel with
  | O => acc
  | S fuel' =>
      let acc' := String (digit_char (n mod 10)) acc in
      if (n <? 10)%N then acc' else digits_go fuel' (n / 10) acc'
  end.

(** [str(n)] for a non-negative integer; a number has no more decimal
    digits than binary ones, which bounds the recursion. *)
Definition str_N (n : N) : string :=
  digits_go (S (N.to_nat (N.log2 n))) n "".

(** [str(z)]. *)
Definition str_int (z : Z) : string :=
  match z with
  | Z0 => "0"
  | Zpos p => str_N (Npos p)
  | Zneg p => String "-" (str_N (Npos p))
  end.

Definition str_nat (n : nat) : string := str_N (N.of_nat n).

(** [c.isspace()] for a code point below 256. *)
Definition is_space (c : ascii) : bool :=
  match c with
  | "009"%char | "010"%char | "011"%char | "012"%char | "013"%char
  | "028"%char | "029"%char | "030"%char | "031"%char | " "%char
  | "133"%char | "160"%char => true
  | _ => false
  end.

(** [s.lstrip()], [s.rstrip()] and [s.strip()]. *)
Fixpoint lstrip (s : string) : string :=
  match s with
  | EmptyString => ""
  | String c s' => if is_space c then lstrip s' else s
  end.

Fixpoint rstrip (s : string) : string :=
  match s with
  | EmptyString => ""
  | String c s' =>
      match rstrip s' with
      | EmptyString => if is_space c then "" else String c ""
      | r => String c r
      end
  end.

Definition strip (s : string) : string := rstrip (lstrip s).

(** [s.split(sep)] for a one-character separator: the empty string splits
    into one empty piece. *)
Fixpoint split_char (sep : ascii) (s : string) : list string :=
  match s with
  | EmptyString => [""]
  | String c s' =>
      if Ascii.eqb c sep then "" :: split_char sep s'
      else
        match split_char sep s' with
        | [] => [String c ""]
        | piece :: pieces => String c piece :: pieces
        end
  end.

End PyStr.

Import PyStr.

(* ===================================================================== *)
(** ** difflib: SequenceMatcher and unified_diff                         *)
(* ===================================================================== *)

Module Difflib.

Inductive tag := Replace | Delete | Insert | Equal.

Definition tag_eqb (t u : tag) : bool :=
  match t, u with
  | Replace, Replace | Delete, Delete | Insert, Insert | Equal, Equal => true
  | _, _ => false
  end.

(** An opcode [(tag, i1, i2, j1, j2)]: [a[i1:i2]] against [b[j1:j2]]. *)
Definition opcode : Type := tag * nat * nat * nat * nat.

Definition op_tag (c : opcode) : tag := let '(t, _, _, _, _) := c in t.

(** [l[i:j]]. *)
Definition slice {A} (l : list A) (i j : nat) : list A :=
  take (j - i) (drop i l).

Section Matcher.
  (** [SequenceMatcher(None, a, b)]: no junk predicate, [autojunk] on. *)
Variables a b : list string.

Fixpoint indices_from (x : string) (j : nat) (l : list string) : list nat :=
  match l with
  | [] => []
  | y :: l' =>
      if String.eqb x y then j :: indices_from x (S j) l'
      else indices_from x (S j) l'
  end.

(** The popular elements purged from [b2j] by [__chain_b]. *)
Definition popular (x : string) : bool :=
  let n := length b in
  (200 <=? n) && (n / 100 + 1 <? length (indices_from x 0 b)).

(** [b2j.get(x, nothing)]. *)
Definition b2j (x : string) : list nat :=
  if popular x then [] else indices_from x 0 b.

(** [isjunk] is [None], so [bjunk] stays empty. *)
Definition isbjunk (_ : string) : bool := false.

Definition elt_eqb (x y : option string) : bool :=
  match x, y with
  | Some u, Some v => String.eqb u v
  | _, _ => false
  end.

Section Longest.
Variables alo ahi blo bhi : nat.

(** [j2len.get(j-1, 0)]; the key [-1] is never present. *)
Definition j2lenget (j2len : gmap nat nat) (j : nat) : nat :=
  match j with
  | O => 0
  | S j' => default 0 (j2len !! j')
  end.

(** The inner loop over [b2j.get(a[i], nothing)]: indices below [blo]
    are skipped and the loop breaks at the first one from [bhi] on.
    [i-k+1] is written [i+1-k], subtraction on [nat] being truncated. *)
Fixpoint row (i : nat) (j2len : gmap nat nat) (js : list nat)
    (best : nat * nat * nat) (newj2len : gmap nat nat)
    : (nat * nat * nat) * gmap nat nat :=
  match js with
  | [] => (best, newj2len)
  | j :: js' =>
      if j <? blo then row i j2len js' best newj2len
      else if bhi <=? j then (best, newj2len)
      else
        let k := j2lenget j2len j + 1 in
        let newj2len' := <[j := k]> newj2len in
        let '(_, _, bestsize) := best in
        let best' := if bestsize <? k
                     then (i + 1 - k, j + 1 - k, k) else best in
        row i j2len js' best' newj2len'
  end.

(** [for i in range(alo, ahi)]. *)
Fixpoint rows (range : list nat) (best : nat * nat * nat)
    (j2len : gmap nat nat) : nat * nat * nat :=
  match range with
  | [] => best
  | i :: is' =>
      let js := match a !! i with Some x => b2j x | None => [] end in
      let '(best', newj2len) := row i j2len js best ∅ in
      rows is' best' newj2len
  end.

(** [while besti > alo and bestj > blo and (not) isbjunk(b[bestj-1])
    and a[besti-1] == b[bestj-1]]; [junk] selects which of the two
    loops this is. *)
Fixpoint extend_left (junk : bool) (besti bestj bestsize : nat)
    : nat * nat * nat :=
  match besti, bestj with
  | S i', S j' =>
      if (alo <? besti) && (blo <? bestj)
         && eqb junk (from_option isbjunk false (b !! j'))
         && elt_eqb (a !! i') (b !! j')
      then extend_left junk i' j' (S bestsize)
      else (besti, bestj, bestsize)
  | _, _ => (besti, bestj, bestsize)
  end.

(** [while besti+bestsize < ahi and bestj+bestsize < bhi and ...];
    [gap] is [ahi - (besti+bestsize)]. *)
Fixpoint extend_right (junk : bool) (gap : nat)
    (besti bestj bestsize : nat) : nat :=
  match gap with
  | O => bestsize
  | S gap' =>
      if (bestj + bestsize <? bhi)
         && eqb junk (from_option isbjunk false (b !! (bestj + bestsize)))
         && elt_eqb (a !! (besti + bestsize)) (b !! (bestj + bestsize))
      then extend_right junk gap' besti bestj (S bestsize)
      else bestsize
  end.

Definition find_longest_match : nat * nat * nat :=
    let best := rows (seq alo (ahi - alo)) (alo, blo, 0) ∅ in
    let '(besti, bestj, bestsize) := best in
    let '(besti, bestj, bestsize) :=
      extend_left false besti bestj bestsize in
    let bestsize :=
      extend_right false (ahi - (besti + bestsize)) besti bestj bestsize in
    let '(besti, bestj, bestsize) :=
      extend_left true besti bestj bestsize in
    let bestsize :=
      extend_right true (ahi - (besti + bestsize)) besti bestj bestsize in
    (besti, bestj, bestsize).
End Longest.

(** The [while queue] loop of [get_matching_blocks]; [queue.pop()] takes
    the entry appended last, kept at the head here. *)
Fixpoint matching_loop (fuel : nat) (queue : list (nat * nat * nat * nat))
    (matching_blocks : list (nat * nat * nat))
    : option (list (nat * nat * nat)) :=
  match queue with
  | [] => Some matching_blocks
  | (alo, ahi, blo, bhi) :: queue' =>
      match fuel with
      | O => None
      | S fuel' =>
          let '(i, j, k) := find_longest_match alo ahi blo bhi in
          if k =? 0 then matching_loop fuel' queue' matching_blocks
          else
            let q1 := if (alo <? i) && (blo <? j)
                      then (alo, i, blo, j) :: queue' else queue' in
            let q2 := if (i + k <? ahi) && (j + k <? bhi)
                      then (i + k, ahi, j + k, bhi) :: q1 else q1 in
            matching_loop fuel' q2 (matching_blocks ++ [(i, j, k)])
      end
  end.

(** Tuple order of [matching_blocks.sort()]. *)
Definition block_leb (x y : nat * nat * nat) : bool :=
  let '(i1, j1, k1) := x in
  let '(i2, j2, k2) := y in
  (i1 <? i2) || ((i1 =? i2) && ((j1 <? j2) || ((j1 =? j2) && (k1 <=? k2)))).

Fixpoint insert_block (x : nat * nat * nat) (l : list (nat * nat * nat))
    : list (nat * nat * nat) :=
  match l with
  | [] => [x]
  | y :: l' => if block_leb x y then x :: y :: l' else y :: insert_block x l'
  end.

Definition sort_blocks (l : list (nat * nat * nat)) : list (nat * nat * nat) :=
  foldr insert_block [] l.

(** The loop collapsing adjacent blocks; the state is the pending block
    [(i1, j1, k1)]. *)
Fixpoint collapse (blocks : list (nat * nat * nat)) (i1 j1 k1 : nat)
    : list (nat * nat * nat) :=
  match blocks with
  | [] => if k1 =? 0 then [] else [(i1, j1, k1)]
  | (i2, j2, k2) :: blocks' =>
      if (i1 + k1 =? i2) && (j1 + k1 =? j2)
      then collapse blocks' i1 j1 (k1 + k2)
      else (if k1 =? 0 then [] else [(i1, j1, k1)])
             ++ collapse blocks' i2 j2 k2
  end.

(** One pass of the queue loop handles one entry; an entry with a match
    of [k >= 1] elements is replaced by at most two entries that cover
    [k] elements of [a] less, so [2 * len(a) + 1] passes empty the
    queue. *)
Definition get_matching_blocks : option (list (nat * nat * nat)) :=
  let la := length a in
  let lb := length b in
  match matching_loop (2 * la + 1) [(0, la, 0, lb)] [] with
  | None => None
  | Some matching_blocks =>
      Some (collapse (sort_blocks matching_blocks) 0 0 0 ++ [(la, lb, 0)])
  end.

Fixpoint opcodes_go (blocks : list (nat * nat * nat)) (i j : nat)
    : list opcode :=
  match blocks with
  | [] => []
  | (ai, bj, size) :: blocks' =>
      let change :=
        if (i <? ai) && (j <? bj) then [(Replace, i, ai, j, bj)]
        else if i <? ai then [(Delete, i, ai, j, bj)]
        else if j <? bj then [(Insert, i, ai, j, bj)]
        else [] in
      let same :=
        if size =? 0 then [] else [(Equal, ai, ai + size, bj, bj + size)] in
      change ++ same ++ opcodes_go blocks' (ai + size) (bj + size)
  end.

Definition get_opcodes : option (list opcode) :=
    match get_matching_blocks with
    | None => None
    | Some blocks => Some (opcodes_go blocks 0 0)
    end.
End Matcher.

(** [get_grouped_opcodes(n)], from a list of opcodes. *)
Definition fix_first (n : nat) (codes : list opcode) : list opcode :=
  match codes with
  | (Equal, i1, i2, j1, j2) :: rest =>
      (Equal, max i1 (i2 - n), i2, max j1 (j2 - n), j2) :: rest
  | _ => codes
  end.

Fixpoint fix_last (n : nat) (codes : list opcode) : list opcode :=
  match codes with
  | [] => []
  | [(Equal, i1, i2, j1, j2)] =>
      [(Equal, i1, min i2 (i1 + n), j1, min j2 (j1 + n))]
  | c :: rest => c :: fix_last n rest
  end.

Definition yields (group : list opcode) : bool :=
  match group with
  | [] => false
  | [(Equal, _, _, _, _)] => false
  | _ => true
  end.

Fixpoint group_loop (n : nat) (codes group : list opcode)
    : list (list opcode) :=
  match codes with
  | [] => if yields group then [group] else []
  | (t, i1, i2, j1, j2) :: codes' =>
      if tag_eqb t Equal && (n + n <? i2 - i1) then
        (group ++ [(t, i1, min i2 (i1 + n), j1, min j2 (j1 + n))])
          :: group_loop n codes' [(t, max i1 (i2 - n), i2, max j1 (j2 - n), j2)]
      else group_loop n codes' (group ++ [(t, i1, i2, j1, j2)])
  end.

Definition grouped (n : nat) (codes : list opcode) : list (list opcode) :=
  let codes := match codes with [] => [(Equal, 0, 1, 0, 1)] | _ => codes end in
  group_loop n (fix_last n (fix_first n codes)) [].

Definition format_range_unified (start stop : nat) : string :=
  let beginning := start + 1 in
  let length := stop - start in
  if length =? 1 then str_nat beginning
  else
    let beginning := if length =? 0 then beginning - 1 else beginning in
    str_nat beginning +:+ "," +:+ str_nat length.

Section Unified.
Variables a b : list string.

(** The lines one opcode contributes to its hunk. *)
Definition op_lines (c : opcode) : list string :=
  let '(t, i1, i2, j1, j2) := c in
  match t with
  | Equal => map (String " ") (slice a i1 i2)
  | Replace => map (String "-") (slice a i1 i2)
                 ++ map (String "+") (slice b j1 j2)
  | Delete => map (String "-") (slice a i1 i2)
  | Insert => map (String "+") (slice b j1 j2)
  end.

Definition hunk (group : list opcode) : list string :=
  match group, last group with
  | (_, f1, _, f3, _) :: _, Some (_, _, l2, _, l4) =>
      ("@@ -" +:+ format_range_unified f1 l2
         +:+ " +" +:+ format_range_unified f3 l4 +:+ " @@")
        :: flat_map op_lines group
  | _, _ => []
  end.

(** [unified_diff(a, b, lineterm='', n=n)] once the opcodes are known;
    the two file header lines precede the first hunk. *)
Definition unified_diff_of (n : nat) (codes : list opcode) : list string :=
  match grouped n codes with
  | [] => []
  | groups => "--- " :: "+++ " :: flat_map hunk groups
  end.

Definition unified_diff (n : nat) : list string :=
    unified_diff_of n (default [] (get_opcodes a b)).
End Unified.

End Difflib.

(* ===================================================================== *)
(** ** diff_generator.py                                                 *)
(* ===================================================================== *)

(** Maximum number of changed lines to include in snippet. *)
Definition MAX_DIFF_LINES : nat := 20.
(** Maximum line length before truncation. *)
Definition MAX_LINE_LENGTH : nat := 200.

Definition truncate_line (line : string) : string :=
  if MAX_LINE_LENGTH <? len line
  then slice_to MAX_LINE_LENGTH line +:+ "..."
  else line.

(** The loop skipping the header lines ([---], [+++], [@@]). *)
Definition is_header (line : string) : bool :=
  startswith line "---" || startswith line "+++" || startswith line "@@".

Definition filter_diff (diff_lines : list string) : list string :=
  List.filter (fun line => negb (is_header line)) diff_lines.

Definition more_lines_marker (n : nat) : string :=
  "... (" +:+ str_nat n +:+ " more lines)".

Definition more_changes_marker (n : nat) : string :=
  "... (" +:+ str_nat n +:+ " more changes)".

(** The lines joined into the snippet when [old_text] is not empty. *)
Definition cap_lines (filtered_lines : list string) : list string :=
  if MAX_DIFF_LINES <? length filtered_lines
  then take MAX_DIFF_LINES filtered_lines
         ++ [more_changes_marker (length filtered_lines - MAX_DIFF_LINES)]
  else filtered_lines.

Definition filtered_lines (old_text new_text : string) : list string :=
  filter_diff (Difflib.unified_diff (splitlines old_text) (splitlines new_text) 0).

Definition generate_diff_snippet (old_text new_text : string) : string :=
  if String.eqb old_text "" then
    let lines := take MAX_DIFF_LINES (splitlines new_text) in
    let truncated_lines := map truncate_line lines in
    let snippet := join LF (map (fun line => "+ " +:+ line) truncated_lines) in
    if MAX_DIFF_LINES <? length (splitlines new_text)
    then snippet +:+ LF
           +:+ more_lines_marker (length (splitlines new_text) - MAX_DIFF_LINES)
    else snippet
  else
    let snippet_lines := cap_lines (filtered_lines old_text new_text) in
    let truncated_lines := map truncate_line snippet_lines in
    join LF truncated_lines.

(* ===================================================================== *)
(** ** Values, exceptions and the effect monad                           *)
(* ===================================================================== *)

(** The attribute values the handler reads back from DynamoDB: [None]
    (NULL), strings and integral numbers. *)
Inductive pyval :=
  | VNone
  | VStr (s : string)
  | VNum (n : Z).

Global Instance pyval_eq_dec : EqDecision pyval.
Proof. solve_decision. Defined.

(** Python truth value. *)
Definition truthy (v : pyval) : bool :=
  match v with
  | VNone => false
  | VStr s => negb (String.eqb s "")
  | VNum n => negb (n =? 0)%Z
  end.

(** The name Python gives the type of a value in an error message. *)
Definition type_name (v : pyval) : string :=
  match v with
  | VNone => "NoneType"
  | VStr _ => "str"
  | VNum _ => "decimal.Decimal"
  end.

(** The exception classes the handler raises or catches, and those the
    libraries it calls raise in the runs followed here.  All of them are
    subclasses of [Exception]; [Timeout] and [HTTPError] are subclasses of
    [RequestException]. *)
Inductive exn_class :=
  | Exception
  | ClientError
  | ValueError
  | AttributeError
  | TypeError
  | OverflowError
  | RecursionError
  | ReError
  | RequestException
  | Timeout
  | HTTPError.

Global Instance exn_class_eq_dec : EqDecision exn_class.
Proof. solve_decision. Defined.

(** [issubclass(c, handler)]. *)
Definition issubclass (c handler : exn_class) : bool :=
  match handler, c with
  | Exception, _ => true
  | RequestException, (RequestException | Timeout | HTTPError) => true
  | _, _ => bool_decide (c = handler)
  end.

Record exn := Exn { exn_cls : exn_class; exn_msg : string }.

Inductive res (A : Type) :=
  | Ok (a : A)
  | Raise (e : exn).
Arguments Ok {A} a.
Arguments Raise {A} e.

Inductive level := DEBUG | INFO | WARNING | ERROR.

(** A DynamoDB item and a table keyed by the [url] attribute. *)
Abbreviation item := (gmap string pyval).

Record change_record := ChangeRecord {
  cr_url : string;
  cr_previous_hash : pyval;
  cr_new_hash : string;
  cr_diff_snippet : string;
  cr_is_new : bool
}.

(** Everything the handler changes or emits.  Lists grow at the head. *)
Record world := World {
  table : gmap string item;
  clock_reads : nat;
  log : list (level * string);
  requests_sent : list (string * gmap string pyval);
  digests : list (list change_record * nat)
}.

Definition set_table (t : gmap string item) (w : world) : world :=
  World t (clock_reads w) (log w) (requests_sent w) (digests w).

(** A computation with effects on the world that returns or raises. *)
Definition M (A : Type) : Type := world → res A * world.

Definition ret {A} (a : A) : M A := fun w => (Ok a, w).

Definition raise {A} (e : exn) : M A := fun w => (Raise e, w).

Definition bind {A B} (m : M A) (k : A → M B) : M B :=
  fun w =>
    match m w with
    | (Ok a, w') => k a w'
    | (Raise e, w') => (Raise e, w')
    end.

(** [try: m except cls as e: handler e]. *)
Definition try_except {A} (m : M A) (cls : list exn_class) (handler : exn → M A)
    : M A :=
  fun w =>
    match m w with
    | (Ok a, w') => (Ok a, w')
    | (Raise e, w') =>
        if existsb (issubclass (exn_cls e)) cls then handler e w'
        else (Raise e, w')
    end.

(** Runs [m] and hands its outcome on, for a [try] whose [except] clause
    ends the function. *)
Definition attempt {A} (m : M A) : M (res A) :=
  fun w => let '(r, w') := m w in (Ok r, w').

Definition lift {A} (r : res A) : M A := fun w => (r, w).

Notation "x <- m ;; k" := (bind m (fun x => k))
  (at level 100, m at next level, right associativity).
Notation "m ;; k" := (bind m (fun _ => k))
  (at level 100, right associativity).

(** [logger.<level>(msg)]. *)
Definition logger (l : level) (msg : string) : M unit :=
  fun w =>
    (Ok tt, World (table w) (clock_reads w) ((l, msg) :: log w)
                  (requests_sent w) (digests w)).

(* ===================================================================== *)
(** ** The environment of a run                                          *)
(* ===================================================================== *)

(** The result of [datetime.fromisoformat]: a [ValueError], a datetime
    without offset, or an instant in microseconds since the epoch. *)
Inductive iso_parse :=
  | IsoInvalid (msg : string)
  | IsoNaive (t : Z)
  | IsoAware (t : Z).

(** The response object of [requests.get]. *)
Record http_response := HttpResponse {
  status_code : Z;
  reason : string;
  resp_url : string;
  text : string;
  headers : gmap string string
}.

Inductive requests_outcome :=
  | ReqRaises (e : exn)
  | ReqResponse (r : http_response).

(** An entry of the parsed [URLS_JSON]: a string or an object. *)
Record url_config := UrlConfig {
  uc_url : string;
  uc_selector : option string
}.

Inductive url_entry :=
  | UrlString (url : string)
  | UrlObject (config : url_config).

(** Whatever lies outside the repository and decides a run: the process
    environment, the clock, the network, the DynamoDB and SES services, and
    the library functions on the content (BeautifulSoup, [re], SHA-256).
    [inl msg] in a [*_json] field is a [JSONDecodeError] with its message;
    [inr] holds the parsed value, which is taken to have the shape the
    handler expects: a list of strings and of objects with a [url] for the
    targets, a list of strings for the patterns.  A document of another
    shape, on which the loops of [load_urls] or [process_url] would raise,
    is not among the environments described here.
    [int_cooldown_hours] is [int(os.environ.get('COOLDOWN_HOURS', '0'))]:
    [inl msg] is the [ValueError] of [int] with its message, [inr] holds the
    integer. *)
Record env := Env {
  environ : gmap string string;
  urls_json : string + list url_entry;
  ignore_regex_json : string + list string;
  int_cooldown_hours : string + Z;
  clock : nat → Z;
  isoformat : Z → string;
  fromisoformat : string → iso_parse;
  requests_get : string → gmap string pyval → requests_outcome;
  get_item_error : string → option string;
  update_item_error : string → gmap string string → gmap string pyval
                      → option string;
  normalize_html : string → option string → list string → res string;
  sha256_hex : string → string;
  send_digest_error : list change_record → nat → option exn
}.

(** [datetime.now(timezone.utc)]: the next reading of the clock. *)
Definition datetime_now (E : env) : M Z :=
  fun w =>
    (Ok (clock E (clock_reads w)),
     World (table w) (S (clock_reads w)) (log w) (requests_sent w) (digests w)).

(** [datetime.now(timezone.utc).isoformat()]. *)
Definition now_isoformat (E : env) : M string :=
  t <- datetime_now E ;; ret (isoformat E t).

(* ===================================================================== *)
(** ** fetcher.py                                                        *)
(* ===================================================================== *)

Record fetch_result := FetchResult {
  fr_status_code : Z;
  fr_content : option string;
  fr_etag : option string;
  fr_last_modified : option string
}.

(** [response.raise_for_status()]. *)
Definition raise_for_status (r : http_response) : res unit :=
  let st := status_code r in
  if (400 <=? st)%Z && (st <? 500)%Z then
    Raise (Exn HTTPError (str_int st +:+ " Client Error: " +:+ reason r
                            +:+ " for url: " +:+ resp_url r))
  else if (500 <=? st)%Z && (st <? 600)%Z then
    Raise (Exn HTTPError (str_int st +:+ " Server Error: " +:+ reason r
                            +:+ " for url: " +:+ resp_url r))
  else Ok tt.

(** [requests.get(url, headers=headers, ...)]; the request is recorded. *)
Definition requests_get_call (E : env) (url : string)
    (hdrs : gmap string pyval) : M http_response :=
  fun w =>
    let w' := World (table w) (clock_reads w) (log w)
                    ((url, hdrs) :: requests_sent w) (digests w) in
    match requests_get E url hdrs with
    | ReqRaises e => (Raise e, w')
    | ReqResponse r => (Ok r, w')
    end.

Definition fetch_url (E : env) (url user_agent : string)
    (conditional_headers : gmap string pyval) : M fetch_result :=
  let hdrs := conditional_headers ∪ {[ "User-Agent" := VStr user_agent ]} in
  try_except
    (try_except
       (response <- requests_get_call E url hdrs ;;
        (if negb (status_code response =? 304)%Z
         then lift (raise_for_status response) else ret tt) ;;
        let result :=
          FetchResult (status_code response)
            (if negb (status_code response =? 304)%Z
             then Some (text response) else None)
            (headers response !! "ETag")
            (headers response !! "Last-Modified") in
        logger INFO ("Fetched " +:+ url +:+ ": status="
                       +:+ str_int (status_code response) +:+ ", length="
                       +:+ str_nat (len (text response))) ;;
        ret result)
       [Timeout]
       (fun e =>
          logger ERROR ("Timeout fetching " +:+ url +:+ ": " +:+ exn_msg e) ;;
          raise (Exn Exception ("Timeout: " +:+ exn_msg e))))
    [RequestException]
    (fun e =>
       logger ERROR ("Request failed for " +:+ url +:+ ": " +:+ exn_msg e) ;;
       raise (Exn Exception ("Request failed: " +:+ exn_msg e))).

(* ===================================================================== *)
(** ** dynamodb_state.py                                                 *)
(* ===================================================================== *)

(** [table.get_item(Key={'url': url}).get('Item')]. *)
Definition table_get_item (E : env) (url : string) : M (option item) :=
  fun w =>
    match get_item_error E url with
    | Some msg => (Raise (Exn ClientError msg), w)
    | None => (Ok (table w !! url), w)
    end.

Definition get_state (E : env) (url : string) : M (option item) :=
  try_except (table_get_item E url) [ClientError]
    (fun e =>
       logger ERROR ("DynamoDB get_item failed for " +:+ url +:+ ": "
                       +:+ exn_msg e) ;;
       ret None).

(** The effect of a [SET] update expression on an item: every action
    [attr = :placeholder] assigns the value bound to the placeholder, and all
    other attributes stay. *)
Definition apply_set (sets : gmap string string) (values : gmap string pyval)
    (it : item) : item :=
  omap (fun placeholder => values !! placeholder) sets ∪ it.

(** [table.update_item(Key={'url': url}, UpdateExpression=...,
    ExpressionAttributeValues=...)]: the item is created with its key when
    the table has none. *)
Definition table_update_item (E : env) (url : string)
    (sets : gmap string string) (values : gmap string pyval) : M unit :=
  fun w =>
    match update_item_error E url sets values with
    | Some msg => (Raise (Exn ClientError msg), w)
    | None =>
        let old := default {[ "url" := VStr url ]} (table w !! url) in
        (Ok tt, set_table (<[url := apply_set sets values old]> (table w)) w)
    end.

(** The update expression [SET k = :k, ...], kept as the map from each
    attribute to its placeholder, and the values of the placeholders. *)
Definition update_expr (updates : gmap string pyval) : gmap string string :=
  map_imap (fun key _ => Some (":" +:+ key)) updates.

Definition expr_attr_values (updates : gmap string pyval) : gmap string pyval :=
  kmap (String.append ":") updates.

Definition update_state (E : env) (url : string) (updates : gmap string pyval)
    : M unit :=
  try_except
    (table_update_item E url (update_expr updates) (expr_attr_values updates))
    [ClientError]
    (fun e =>
       logger ERROR ("DynamoDB update_item failed for " +:+ url +:+ ": "
                       +:+ exn_msg e) ;;
       raise e).

Definition touch_state (E : env) (url : string) : M unit :=
  now <- now_isoformat E ;;
  update_state E url {[ "last_checked_at" := VStr now ]}.

(* ===================================================================== *)
(** ** app.py                                                            *)
(* ===================================================================== *)

Definition load_urls (E : env) : M (list url_config) :=
  match urls_json E with
  | inr urls =>
      ret (map (fun url =>
                  match url with
                  | UrlString s => UrlConfig s None
                  | UrlObject c => c
                  end) urls)
  | inl e => logger ERROR ("Failed to parse URLS_JSON: " +:+ e) ;; ret []
  end.

Definition load_ignore_patterns (E : env) : M (list string) :=
  match ignore_regex_json E with
  | inr patterns => ret patterns
  | inl e => logger ERROR ("Failed to parse IGNORE_REGEX_JSON: " +:+ e) ;; ret []
  end.

(** [not prev_state]: no item, or an empty one. *)
Definition no_state (prev_state : option item) : bool :=
  match prev_state with
  | None => true
  | Some st => bool_decide (st = ∅)
  end.

(** [prev_state.get(key)] when [prev_state] is a dict. *)
Definition dict_get (st : item) (key : string) : pyval :=
  default VNone (st !! key).

(** [value.replace('Z', '+00:00')]. *)
Definition py_replace_Z (v : pyval) : res string :=
  match v with
  | VStr s => Ok (replace_char "Z"%char "+00:00" s)
  | _ => Raise (Exn AttributeError
                  ("'" +:+ type_name v +:+ "' object has no attribute 'replace'"))
  end.

Definition datetime_fromisoformat (E : env) (s : string) : res iso_parse :=
  match fromisoformat E s with
  | IsoInvalid msg => Raise (Exn ValueError msg)
  | d => Ok d
  end.

(** [now - last_notified] in microseconds, for an aware [now]. *)
Definition datetime_sub (now : Z) (d : iso_parse) : res Z :=
  match d with
  | IsoAware t => Ok (now - t)%Z
  | _ => Raise (Exn TypeError
                  "can't subtract offset-naive and offset-aware datetimes")
  end.

Definition MICROSECONDS_PER_HOUR : Z := 3600 * 1000000.

(** An integer as the binary64 number of the same value, written with the
    exponent zero, and [float(n)], rounded to nearest even. *)
Definition exact_float (n : Z) : spec_float :=
  match n with
  | Z0 => S754_zero false
  | Zpos p => S754_finite false p 0
  | Zneg p => S754_finite true p 0
  end.

Definition float_of_int (n : Z) : spec_float :=
  binary_normalize 53 1024 n 0 false.

(** [a / b] on two integers: the quotient, rounded once. *)
Definition int_true_divide (a b : Z) : spec_float :=
  SFdiv 53 1024 (exact_float a) (exact_float b).

(** [x / n] on a float and an integer. *)
Definition float_div_int (x : spec_float) (n : Z) : spec_float :=
  SFdiv 53 1024 x (float_of_int n).

(** [x >= n] on a float and an integer: Python compares the two values
    exactly. *)
Definition float_ge_int (x : spec_float) (n : Z) : bool :=
  match x with
  | S754_zero _ => (n <=? 0)%Z
  | S754_finite s m e =>
      let v := if s then Zneg m else Zpos m in
      if (0 <=? e)%Z then (n <=? v * 2 ^ e)%Z else (n * 2 ^ (- e) <=? v)%Z
  | S754_infinity s => negb s
  | S754_nan => false
  end.

(** [delta.total_seconds()] for a [timedelta] of [delta] microseconds: the
    microseconds divided by [10**6]. *)
Definition total_seconds (delta : Z) : spec_float :=
  int_true_divide delta 1000000.

(** [delta.total_seconds() / 3600 >= cooldown_hours]. *)
Definition hours_since_ge (delta : Z) (cooldown_hours : Z) : bool :=
  let hours_since := float_div_int (total_seconds delta) 3600 in
  float_ge_int hours_since cooldown_hours.

Definition should_notify (E : env) (url : string) (prev_state : option item)
    (cooldown_hours : Z) : M bool :=
  if (cooldown_hours <=? 0)%Z then ret true
  else
    match prev_state with
    | None => ret true
    | Some st =>
        match (if bool_decide (st = ∅) then None else st !! "last_notified_at") with
        | None => ret true
        | Some v =>
            try_except
              (s <- lift (py_replace_Z v) ;;
               last_notified <- lift (datetime_fromisoformat E s) ;;
               now <- datetime_now E ;;
               delta <- lift (datetime_sub now last_notified) ;;
               ret (hours_since_ge delta cooldown_hours))
              [ValueError; AttributeError]
              (fun e =>
                 logger WARNING ("Error parsing last_notified_at for " +:+ url
                                   +:+ ": " +:+ exn_msg e) ;;
                 ret true)
        end
    end.

(** The conditional headers prepared from the previous state. *)
Definition conditional_headers_of (prev_state : option item)
    : gmap string pyval :=
  match prev_state with
  | Some st =>
      if bool_decide (st = ∅) then ∅
      else
        let h1 : gmap string pyval :=
          match st !! "etag" with
          | Some v => if truthy v then {[ "If-None-Match" := v ]} else ∅
          | None => ∅
          end in
        match st !! "last_modified" with
        | Some v => if truthy v then <[ "If-Modified-Since" := v ]> h1 else h1
        | None => h1
        end
  | None => ∅
  end.

(** [(prev_state.get('error_count', 0) if prev_state else 0) + 1]. *)
Definition next_error_count (prev_state : option item) : res Z :=
  match (if no_state prev_state then None
         else prev_state ≫= (fun st => st !! "error_count")) with
  | None => Ok 1%Z
  | Some (VNum n) => Ok (n + 1)%Z
  | Some (VStr _) =>
      Raise (Exn TypeError
               ("can only concatenate str (not " +:+ String "034" "int"
                  +:+ String "034" ") to str"))
  | Some v => Raise (Exn TypeError
                       ("unsupported operand type(s) for +: '" +:+ type_name v
                          +:+ "' and 'int'"))
  end.

(** The body shared by the two [except Exception] clauses of
    [process_url], after the error has been logged. *)
Definition record_error {A} (E : env) (url : string) (prev_state : option item)
    (e : exn) : M (option A) :=
  error_count <- lift (next_error_count prev_state) ;;
  let last_error := slice_to 500 (exn_msg e) in
  now <- now_isoformat E ;;
  update_state E url
    (<[ "error_count" := VNum error_count ]>
       (<[ "last_error" := VStr last_error ]>
          {[ "last_checked_at" := VStr now ]})) ;;
  ret None.

(** [prev_state.get(key) if prev_state else None]. *)
Definition prev_get (prev_state : option item) (key : string) : pyval :=
  match prev_state with
  | Some st => if bool_decide (st = ∅) then VNone else dict_get st key
  | None => VNone
  end.

(** [generate_diff_snippet(prev_text or "", normalized_text)]: a true
    value that is not a string has no [splitlines]. *)
Definition diff_against (prev_text : pyval) (normalized_text : string)
    : res string :=
  match (if truthy prev_text then prev_text else VStr "") with
  | VStr old_text => Ok (generate_diff_snippet old_text normalized_text)
  | v => Raise (Exn AttributeError
                  ("'" +:+ type_name v +:+ "' object has no attribute 'splitlines'"))
  end.

(** [compute_hash] of normalizer.py. *)
Definition compute_hash (E : env) (text : string) : string := sha256_hex E text.

(** The body of the second [try] of [process_url]: [normalize_html] on
    [response['content']], which is [None] only for a 304, and
    [compute_hash] on its result. *)
Definition normalize_and_hash (E : env) (response : fetch_result)
    (selector : option string) (ignore_patterns : list string)
    : res (string * string) :=
  match (match fr_content response with
         | Some html => normalize_html E html selector ignore_patterns
         | None => Raise (Exn TypeError "object of type 'NoneType' has no len()")
         end) with
  | Ok normalized_text => Ok (normalized_text, compute_hash E normalized_text)
  | Raise e => Raise e
  end.

(** [os.environ.get('USER_AGENT', 'Website-Diff-Checker/1.0')]. *)
Definition user_agent_of (E : env) : string :=
  default "Website-Diff-Checker/1.0" (environ E !! "USER_AGENT").

Definition process_url (E : env) (url_config : url_config)
    (ignore_patterns : list string) (cooldown_hours : Z)
    : M (option change_record) :=
  let url := uc_url url_config in
  let selector := uc_selector url_config in
  let user_agent := user_agent_of E in
  logger INFO ("Processing URL: " +:+ url) ;;
  prev_state <- get_state E url ;;
  let conditional_headers := conditional_headers_of prev_state in
  fetched <- attempt (fetch_url E url user_agent conditional_headers) ;;
  match fetched with
  | Raise e =>
      logger ERROR ("Failed to fetch " +:+ url +:+ ": " +:+ exn_msg e) ;;
      record_error E url prev_state e
  | Ok response =>
      if (fr_status_code response =? 304)%Z then
        logger INFO ("URL " +:+ url +:+ " returned 304 Not Modified") ;;
        touch_state E url ;;
        ret None
      else
        normalized <- attempt
          (lift (normalize_and_hash E response selector ignore_patterns)) ;;
        match normalized with
        | Raise e =>
            logger ERROR ("Failed to normalize content from " +:+ url +:+ ": "
                            +:+ exn_msg e) ;;
            record_error E url prev_state e
        | Ok (normalized_text, new_hash) =>
            now <- now_isoformat E ;;
            if negb (no_state prev_state)
               && bool_decide (prev_get prev_state "last_hash" = VStr new_hash)
            then
              logger INFO ("No change detected for " +:+ url) ;;
              update_state E url
                (<[ "last_checked_at" := VStr now ]>
                   {[ "error_count" := VNum 0 ]}) ;;
              ret None
            else
              let prev_hash := prev_get prev_state "last_hash" in
              let prev_text := prev_get prev_state "normalized_text" in
              logger INFO ("Change detected for " +:+ url +:+ " (new hash: "
                             +:+ new_hash +:+ ")") ;;
              let state_update : gmap string pyval :=
                <[ "last_hash" := VStr new_hash ]>
                  (<[ "last_checked_at" := VStr now ]>
                     (<[ "last_changed_at" := VStr now ]>
                        (<[ "error_count" := VNum 0 ]>
                           {[ "normalized_text" := VStr normalized_text ]}))) in
              let state_update :=
                match fr_etag response with
                | Some etag => <[ "etag" := VStr etag ]> state_update
                | None => state_update
                end in
              let state_update :=
                match fr_last_modified response with
                | Some lm => <[ "last_modified" := VStr lm ]> state_update
                | None => state_update
                end in
              notify <- should_notify E url prev_state cooldown_hours ;;
              if notify : bool then
                let state_update := <[ "last_notified_at" := VStr now ]> state_update in
                diff_snippet <- lift (diff_against prev_text normalized_text) ;;
                let change_record :=
                  ChangeRecord url prev_hash new_hash diff_snippet
                               (bool_decide (prev_hash = VNone)) in
                update_state E url state_update ;;
                ret (Some change_record)
              else
                logger INFO ("Skipping notification for " +:+ url
                               +:+ " due to cooldown") ;;
                update_state E url state_update ;;
                ret None
        end
  end.

(** [send_digest_email(changes, total_urls)] of ses_notifier.py, as the run
    sees it: the call is made, and it returns or raises. *)
Definition send_digest_email (E : env) (changes : list change_record)
    (total_urls : nat) : M unit :=
  fun w =>
    let w' := World (table w) (clock_reads w) (log w) (requests_sent w)
                    ((changes, total_urls) :: digests w) in
    match send_digest_error E changes total_urls with
    | Some e => (Raise e, w')
    | None => (Ok tt, w')
    end.

(** The loop of [lambda_handler] over [url_configs]. *)
Fixpoint process_all (E : env) (url_configs : list url_config)
    (ignore_patterns : list string) (cooldown_hours : Z)
    (changes : list change_record) : M (list change_record) :=
  match url_configs with
  | [] => ret changes
  | url_config :: rest =>
      change <- process_url E url_config ignore_patterns cooldown_hours ;;
      process_all E rest ignore_patterns cooldown_hours
        (match change with
         | Some c => changes ++ [c]
         | None => changes
         end)
  end.

(** The body of the handler's response. *)
Inductive body :=
  | NoURLsToCheck
  | Completed (urls_checked changes_detected : nat).

Record response := Response { statusCode : Z; response_body : body }.

(** [int(os.environ.get('COOLDOWN_HOURS', '0'))]. *)
Definition read_cooldown_hours (E : env) : res Z :=
  match int_cooldown_hours E with
  | inr cooldown_hours => Ok cooldown_hours
  | inl msg => Raise (Exn ValueError msg)
  end.

(** The event is the JSON document the service hands over; the handler
    only writes it to the debug log, and the model leaves it out. *)
Definition lambda_handler (E : env) : M response :=
  logger INFO "Starting Website Diff Checker Lambda" ;;
  url_configs <- load_urls E ;;
  ignore_patterns <- load_ignore_patterns E ;;
  cooldown_hours <- lift (read_cooldown_hours E) ;;
  match url_configs with
  | [] =>
      logger WARNING "No URLs configured" ;;
      ret (Response 200 NoURLsToCheck)
  | _ =>
      logger INFO ("Checking " +:+ str_nat (length url_configs) +:+ " URLs") ;;
      changes <- process_all E url_configs ignore_patterns cooldown_hours [] ;;
      match changes with
      | _ :: _ =>
          logger INFO ("Detected " +:+ str_nat (length changes)
                         +:+ " changed URLs") ;;
          try_except
            (send_digest_email E changes (length url_configs) ;;
             logger INFO "Digest email sent successfully")
            [Exception]
            (fun e => logger ERROR ("Failed to send digest email: " +:+ exn_msg e))
      | [] => logger INFO "No changes detected"
      end ;;
      ret (Response 200 (Completed (length url_configs) (length changes)))
  end.

(* ===================================================================== *)
(** ** normalizer.py                                                     *)
(* ===================================================================== *)

Module Normalizer.
Section Normalizer.

(** What BeautifulSoup and [re] do is given: [extract_text html selector]
    is the text [soup.get_text(separator='\n', strip=True)] returns once the
    [script], [style] and [noscript] tags are removed and the selector is
    applied, or the exception the parser raises, with the messages logged on
    the way; [re_compile] is [re.compile]: it returns the compiled pattern
    or raises, [re.error] ([ReError]) for a pattern that is no regular
    expression, and what else the compiler raises, an [OverflowError] or a
    [RecursionError] among them; [re_search] is [pattern.search(line)] as a
    truth value. *)
Variable pattern : Type.
Variable extract_text
  : string → option string → list (level * string) * res string.
Variable re_compile : string → res pattern.
Variable re_search : pattern → string → bool.

Fixpoint log_all (msgs : list (level * string)) : M unit :=
  match msgs with
  | [] => ret tt
  | (l, msg) :: rest => logger l msg ;; log_all rest
  end.

(** The loop compiling the ignore patterns. *)
Fixpoint compile_patterns (ignore_patterns : list string)
    (compiled_patterns : list pattern) : M (list pattern) :=
  match ignore_patterns with
  | [] => ret compiled_patterns
  | p :: rest =>
      compiled_patterns <-
        try_except
          (c <- lift (re_compile p) ;; ret (compiled_patterns ++ [c]))
          [ReError]
          (fun e =>
             logger WARNING ("Invalid regex pattern '" +:+ p +:+ "': "
                               +:+ exn_msg e) ;;
             ret compiled_patterns) ;;
      compile_patterns rest compiled_patterns
  end.

(** The inner loop over the compiled patterns. *)
Definition should_ignore (compiled_patterns : list pattern) (line : string)
    : bool :=
  existsb (fun p => re_search p line) compiled_patterns.

Definition normalize_html (html : string) (selector : option string)
    (ignore_patterns : list string) : M string :=
  let '(msgs, extracted) := extract_text html selector in
  log_all msgs ;;
  text <- lift extracted ;;
  let lines := map strip (splitlines text) in
  let lines := List.filter (fun line => negb (String.eqb line "")) lines in
  lines <-
    match ignore_patterns with
    | [] => ret lines
    | _ :: _ =>
        compiled_patterns <- compile_patterns ignore_patterns [] ;;
        ret (List.filter
               (fun line => negb (should_ignore compiled_patterns line)) lines)
    end ;;
  ret (join LF lines).

End Normalizer.
End Normalizer.

(* ===================================================================== *)
(** ** ses_notifier.py                                                   *)
(* ===================================================================== *)

Module Ses.

Definition escape_html (text : string) : string :=
  replace_char "'" "&#39;"
    (replace_char "034" "&quot;"
       (replace_char ">" "&gt;"
          (replace_char "<" "&lt;"
             (replace_char "&" "&amp;" text)))).

(** [c * n] for a one-character string. *)
Fixpoint repeat_char (c : ascii) (n : nat) : string :=
  match n with
  | O => ""
  | S n' => String c (repeat_char c n')
  end.

(** [change['previous_hash'][:16]]. *)
Definition hash_prefix (v : pyval) : res string :=
  match v with
  | VStr s => Ok (slice_to 16 s)
  | _ => Raise (Exn TypeError
                  ("'" +:+ type_name v +:+ "' object is not subscriptable"))
  end.

(** Runs the body of a [for] loop that appends lines for every change,
    numbered from [i]; an exception ends the loop. *)
Fixpoint for_changes (body : nat → change_record → res (list string))
    (i : nat) (changes : list change_record) : res (list string) :=
  match changes with
  | [] => Ok []
  | change :: rest =>
      match body i change with
      | Raise e => Raise e
      | Ok ls =>
          match for_changes body (S i) rest with
          | Raise e => Raise e
          | Ok ls' => Ok (ls ++ ls')
          end
      end
  end.

(** The message handed to [ses.send_email]. *)
Record ses_message := SesMessage {
  Source : string;
  ToAddresses : list string;
  Subject : string;
  BodyText : string;
  BodyHtml : string
}.

(** The recipients read from [SES_TO]. *)
Definition to_addresses_of (to_addresses_str : string) : list string :=
  map strip
    (List.filter (fun addr => negb (String.eqb (strip addr) ""))
       (split_char "," to_addresses_str)).

Section Ses.

(** [strftime t fmt] is [t.strftime(fmt)]; [ses_send_email] is the call of
    the SES client, which returns the [MessageId] of its response or raises a
    [ClientError]. *)
Variable strftime : Z → string → string.
Variable ses_send_email : ses_message → M string.

(** The lines appended for one change by [generate_text_body]. *)
Definition text_change_lines (i : nat) (change : change_record)
    : res (list string) :=
  match (if cr_is_new change then Ok ["   Status: NEW URL"]
         else
           match hash_prefix (cr_previous_hash change) with
           | Raise e => Raise e
           | Ok previous =>
               Ok ["   Previous hash: " +:+ previous +:+ "...";
                   "   New hash:      " +:+ slice_to 16 (cr_new_hash change)
                     +:+ "..."]
           end) with
  | Raise e => Raise e
  | Ok status =>
      Ok ([str_nat i +:+ ". " +:+ cr_url change]
            ++ status
            ++ [""; "   Changes:"; "   " +:+ repeat_char "-" 56]
            ++ map (fun diff_line => "   " +:+ diff_line)
                 (splitlines (cr_diff_snippet change))
            ++ ["   " +:+ repeat_char "-" 56; ""])
  end.

Definition generate_text_body (changes : list change_record)
    (total_urls : nat) (run_time : Z) : res string :=
  let lines :=
    ["Website Diff Checker - Change Report";
     repeat_char "=" 60;
     "Run time: " +:+ strftime run_time "%Y-%m-%d %H:%M:%S UTC";
     "URLs checked: " +:+ str_nat total_urls;
     "Changes detected: " +:+ str_nat (length changes);
     ""] in
  match for_changes text_change_lines 1 changes with
  | Raise e => Raise e
  | Ok per_change =>
      Ok (join LF
            (lines ++ per_change
               ++ [repeat_char "=" 60;
                   "This is an automated message from Website Diff Checker."]))
  end.

(** The diff lines of one change, formatted with colors. *)
Definition html_diff_line (line : string) : string :=
  if startswith line "+"
  then "<span class='added'>" +:+ escape_html line +:+ "</span>"
  else if startswith line "-"
  then "<span class='removed'>" +:+ escape_html line +:+ "</span>"
  else escape_html line.

(** The parts appended for one change by [generate_html_body]. *)
Definition html_change_parts (i : nat) (change : change_record)
    : res (list string) :=
  match (if cr_is_new change then Ok ["<p class='status'>Status: NEW URL</p>"]
         else
           match hash_prefix (cr_previous_hash change) with
           | Raise e => Raise e
           | Ok previous =>
               Ok ["<p><strong>Previous hash:</strong> <code>" +:+ previous
                     +:+ "...</code></p>";
                   "<p><strong>New hash:</strong> <code>"
                     +:+ slice_to 16 (cr_new_hash change) +:+ "...</code></p>"]
           end) with
  | Raise e => Raise e
  | Ok status =>
      Ok (["<div class='change'>";
           "<div class='change-header'>" +:+ str_nat i
             +:+ ". Change Detected</div>";
           "<p><strong>URL:</strong> <a href='"
             +:+ escape_html (cr_url change) +:+ "' class='url'>"
             +:+ escape_html (cr_url change) +:+ "</a></p>"]
            ++ status
            ++ ["<p><strong>Changes:</strong></p>"; "<div class='diff'>"]
            ++ map html_diff_line (splitlines (cr_diff_snippet change))
            ++ ["</div>"; "</div>"])
  end.

Definition generate_html_body (changes : list change_record)
    (total_urls : nat) (run_time : Z) : res string :=
  let html_parts :=
    ["<!DOCTYPE html>";
     "<html>";
     "<head>";
     "<style>";
     "body { font-family: Arial, sans-serif; line-height: 1.6; color: #333; }";
     "h1 { color: #2c3e50; border-bottom: 3px solid #3498db; padding-bottom: 10px; }";
     ".summary { background: #ecf0f1; padding: 15px; border-radius: 5px; margin: 20px 0; }";
     ".change { border: 1px solid #bdc3c7; border-radius: 5px; padding: 15px; margin: 20px 0; }";
     ".change-header { font-weight: bold; color: #2980b9; margin-bottom: 10px; }";
     ".url { color: #3498db; word-break: break-all; }";
     ".status { color: #27ae60; font-weight: bold; }";
     ".diff { background: #f8f9fa; padding: 10px; border-left: 4px solid #3498db; font-family: monospace; white-space: pre-wrap; overflow-x: auto; }";
     ".added { color: #27ae60; }";
     ".removed { color: #e74c3c; }";
     ".footer { margin-top: 30px; padding-top: 20px; border-top: 1px solid #bdc3c7; font-size: 0.9em; color: #7f8c8d; }";
     "</style>";
     "</head>";
     "<body>";
     "<h1>Website Diff Checker - Change Report</h1>";
     "<div class='summary'>";
     "<p><strong>Run time:</strong> "
       +:+ strftime run_time "%Y-%m-%d %H:%M:%S UTC" +:+ "</p>";
     "<p><strong>URLs checked:</strong> " +:+ str_nat total_urls +:+ "</p>";
     "<p><strong>Changes detected:</strong> " +:+ str_nat (length changes)
       +:+ "</p>";
     "</div>"] in
  match for_changes html_change_parts 1 changes with
  | Raise e => Raise e
  | Ok per_change =>
      Ok (join LF
            (html_parts ++ per_change
               ++ ["<div class='footer'>";
                   "<p>This is an automated message from Website Diff Checker.</p>";
                   "</div>";
                   "</body>";
                   "</html>"]))
  end.

Definition send_digest_email (E : env) (changes : list change_record)
    (total_urls : nat) : M unit :=
  let from_address := environ E !! "SES_FROM" in
  let to_addresses_str := default "" (environ E !! "SES_TO") in
  let to_addresses := to_addresses_of to_addresses_str in
  match from_address, to_addresses with
  | Some from, _ :: _ =>
      if String.eqb from "" then
        raise (Exn ValueError
                 "SES_FROM and SES_TO environment variables must be set")
      else
        now <- datetime_now E ;;
        let subject :=
          "Website changes detected (" +:+ str_nat (length changes) +:+ " of "
            +:+ str_nat total_urls +:+ ") - "
            +:+ strftime now "%Y-%m-%d %H:%M UTC" in
        body_text <- lift (generate_text_body changes total_urls now) ;;
        body_html <- lift (generate_html_body changes total_urls now) ;;
        try_except
          (message_id <- ses_send_email
                           (SesMessage from to_addresses subject body_text
                              body_html) ;;
           logger INFO ("Email sent successfully: MessageId=" +:+ message_id))
          [ClientError]
          (fun e =>
             logger ERROR ("Failed to send email via SES: " +:+ exn_msg e) ;;
             raise e)
  | _, _ =>
      raise (Exn ValueError
               "SES_FROM and SES_TO environment variables must be set")
  end.

End Ses.
End Ses.

(* ===================================================================== *)
(** ** Notions used to state the properties                              *)
(* ===================================================================== *)

(** A string without line boundary. *)
Fixpoint one_line (s : string) : bool :=
  match s with
  | EmptyString => true
  | String c s' => negb (is_line_boundary c) && one_line s'
  end.

(** The largest length of a Python sequence ([sys.maxsize]). *)
Definition PY_SSIZE_T_MAX : Z := 2 ^ 63 - 1.

(** An opcode that changes something. *)
Definition is_change (c : Difflib.opcode) : bool :=
  negb (Difflib.tag_eqb (Difflib.op_tag c) Difflib.Equal).

(** The lines of the opcodes that change something. *)
Definition chg (a b : list string) (codes : list Difflib.opcode)
    : list string :=
  flat_map (Difflib.op_lines a b) (List.filter is_change codes).

(** An [Equal] opcode, if it is one, has an empty range. *)
Definition empty_equal (c : Difflib.opcode) : Prop :=
  let '(t, i1, i2, _, _) := c in t = Difflib.Equal → i2 - i1 = 0.

(** A candidate block that lies in [a[alo:ahi]]. *)
Definition in_range (alo ahi : nat) (best : nat * nat * nat) : Prop :=
  let '(besti, _, bestsize) := best in
  alo ≤ besti ∧ besti + bestsize ≤ max alo ahi.

(** The work left in the queue of [get_matching_blocks]: an entry weighs
    twice the length of its range of [a], plus one. *)
Definition queue_weight (queue : list (nat * nat * nat * nat)) : nat :=
  foldr (fun '(alo, ahi, _, _) n => 2 * (ahi - alo) + 1 + n) 0 queue.

(** The changed lines of the zero-context diff of two texts, in order:
    the removals and additions of every opcode that is not [Equal]. *)
Definition changed_lines (old_text new_text : string) : list string :=
  let a := splitlines old_text in
  let b := splitlines new_text in
  flat_map (Difflib.op_lines a b)
    (List.filter is_change (default [] (Difflib.get_opcodes a b))).

(** An addition or a removal line of a diff. *)
Definition is_change_line (line : string) : bool :=
  startswith line "+" || startswith line "-".

(** An addition line of the snippet for a new target. *)
Definition is_addition (line : string) : bool := startswith line "+ ".

(** A line cut to [MAX_LINE_LENGTH] characters and closed by an ellipsis. *)
Definition truncated_form (line : string) : Prop :=
  ∃ body, String.length body = MAX_LINE_LENGTH ∧ line = body +:+ "...".

(** [c * n]. *)
Fixpoint replicate_str (n : nat) (c : ascii) : string :=
  match n with
  | O => ""
  | S n' => String c (replicate_str n' c)
  end.

(** ["prefix 0", "prefix 1", ... : n] numbered lines. *)
Definition numbered_lines (prefix : string) (n : nat) : list string :=
  map (fun i => prefix +:+ str_nat i) (seq 0 n).

(** The value stored for an attribute of a target. *)
Definition stored (w : world) (url key : string) : option pyval :=
  table w !! url ≫= (fun it => it !! key).

(** The state store accepts every update of the item of a target. *)
Definition store_accepts (E : env) (url : string) : Prop :=
  ∀ sets values, update_item_error E url sets values = None.

(** The item an update starts from: the stored one, or the bare key. *)
Definition base_item (w : world) (url : string) : item :=
  default {[ "url" := VStr url ]} (table w !! url).

(** What [get_state] returns in a world. *)
Definition state_of (E : env) (w : world) (url : string) : option item :=
  match get_item_error E url with
  | Some _ => None
  | None => table w !! url
  end.

(** What a call of [fetch_url] returns; the world has no part in it. *)
Definition fetch_outcome (E : env) (url user_agent : string)
    (conditional_headers : gmap string pyval) : res fetch_result :=
  fst (fetch_url E url user_agent conditional_headers (World ∅ 0 [] [] [])).

(** What [should_notify] returns when its reading of the clock is the
    [reads]-th one. *)
Definition notify_decision (E : env) (url : string) (prev_state : option item)
    (cooldown_hours : Z) (reads : nat) : res bool :=
  fst (should_notify E url prev_state cooldown_hours (World ∅ reads [] [] [])).

(** The timestamp [process_url] writes: the first reading of the clock it
    takes. *)
Definition now_of (E : env) (w : world) : string :=
  isoformat E (clock E (clock_reads w)).

(** The decision of [process_url] as a pure function of the environment and
    the world it starts in: either it raises before writing anything, or it
    hands one update of the item of the target to [update_state] and, when
    the store accepts it, returns a change record or [None]. *)
Inductive plan :=
  | PlanRaise (e : exn)
  | PlanUpdate (updates : gmap string pyval) (result : option change_record).

Definition error_plan (E : env) (w : world) (prev_state : option item)
    (e : exn) : plan :=
  match next_error_count prev_state with
  | Raise e' => PlanRaise e'
  | Ok error_count =>
      PlanUpdate
        (<[ "error_count" := VNum error_count ]>
           (<[ "last_error" := VStr (slice_to 500 (exn_msg e)) ]>
              {[ "last_checked_at" := VStr (now_of E w) ]}))
        None
  end.

(** The update of a detected change, before [last_notified_at] is added. *)
Definition change_update (now new_hash normalized_text : string)
    (response : fetch_result) : gmap string pyval :=
  let state_update : gmap string pyval :=
    <[ "last_hash" := VStr new_hash ]>
      (<[ "last_checked_at" := VStr now ]>
         (<[ "last_changed_at" := VStr now ]>
            (<[ "error_count" := VNum 0 ]>
               {[ "normalized_text" := VStr normalized_text ]}))) in
  let state_update :=
    match fr_etag response with
    | Some etag => <[ "etag" := VStr etag ]> state_update
    | None => state_update
    end in
  match fr_last_modified response with
  | Some lm => <[ "last_modified" := VStr lm ]> state_update
  | None => state_update
  end.

Definition plan_of (E : env) (url_config : url_config)
    (ignore_patterns : list string) (cooldown_hours : Z) (w : world) : plan :=
  let url := uc_url url_config in
  let prev_state := state_of E w url in
  let now := now_of E w in
  match fetch_outcome E url (user_agent_of E)
          (conditional_headers_of prev_state) with
  | Raise e => error_plan E w prev_state e
  | Ok response =>
      if (fr_status_code response =? 304)%Z then
        PlanUpdate {[ "last_checked_at" := VStr now ]} None
      else
        match normalize_and_hash E response (uc_selector url_config)
                ignore_patterns with
        | Raise e => error_plan E w prev_state e
        | Ok (normalized_text, new_hash) =>
            if negb (no_state prev_state)
               && bool_decide (prev_get prev_state "last_hash" = VStr new_hash)
            then
              PlanUpdate (<[ "last_checked_at" := VStr now ]>
                            {[ "error_count" := VNum 0 ]}) None
            else
              let state_update :=
                change_update now new_hash normalized_text response in
              match notify_decision E url prev_state cooldown_hours
                      (S (clock_reads w)) with
              | Raise e => PlanRaise e
              | Ok false => PlanUpdate state_update None
              | Ok true =>
                  match diff_against (prev_get prev_state "normalized_text")
                          normalized_text with
                  | Raise e => PlanRaise e
                  | Ok diff_snippet =>
                      PlanUpdate
                        (<[ "last_notified_at" := VStr now ]> state_update)
                        (Some (ChangeRecord url
                                 (prev_get prev_state "last_hash") new_hash
                                 diff_snippet
                                 (bool_decide
                                    (prev_get prev_state "last_hash" = VNone))))
                  end
              end
        end
  end.

(** What a plan leaves behind in a world, with the answer of the store. *)
Definition plan_result (E : env) (url : string) (p : plan) (w : world)
    : res (option change_record) * gmap string item :=
  match p with
  | PlanRaise e => (Raise e, table w)
  | PlanUpdate updates result =>
      match update_item_error E url (update_expr updates)
              (expr_attr_values updates) with
      | None => (Ok result, <[url := updates ∪ base_item w url]> (table w))
      | Some msg => (Raise (Exn ClientError msg), table w)
      end
  end.

(** The error count of the state [get_state] returned: zero when there is
    no state or no count. *)
Definition error_count_of (prev_state : option item) : Z :=
  match prev_state ≫= (fun st : item => st !! "error_count") with
  | Some (VNum n) => n
  | _ => 0%Z
  end.

(** The error count of the state [get_state] returned, if it has one, is a
    number. *)
Definition numeric_error_count (prev_state : option item) : Prop :=
  ∀ v, prev_state ≫= (fun st : item => st !! "error_count") = Some v →
       ∃ n, v = VNum n.

(** The fetch of a target or the normalization of what it returned raises
    [e], in a run that starts from the state [prev_state]. *)
Definition pipeline_raises (E : env) (url_config : url_config)
    (ignore_patterns : list string) (prev_state : option item) (e : exn)
    : Prop :=
  let url := uc_url url_config in
  fetch_outcome E url (user_agent_of E) (conditional_headers_of prev_state)
  = Raise e
  ∨ (∃ response,
       fetch_outcome E url (user_agent_of E)
         (conditional_headers_of prev_state) = Ok response
       ∧ fr_status_code response ≠ 304%Z
       ∧ normalize_and_hash E response (uc_selector url_config)
           ignore_patterns = Raise e).

(** The state store rejects every update of the item of a target, with
    [msg]. *)
Definition store_rejects (E : env) (url msg : string) : Prop :=
  ∀ sets values, update_item_error E url sets values = Some msg.

(** The stored [last_notified_at] the cooldown looks at. *)
Definition last_notified_of (prev_state : option item) : option pyval :=
  prev_state ≫= (fun st => st !! "last_notified_at").

(** [datetime.fromisoformat(value.replace('Z', '+00:00'))]. *)
Definition parse_last_notified (E : env) (v : pyval) : res iso_parse :=
  match py_replace_Z v with
  | Ok s => datetime_fromisoformat E s
  | Raise e => Raise e
  end.

(** ** A sample environment

    One target whose page is served with status 200.  The clock is read
    within the second after 2024-01-01T01:00:00Z, the [k]-th reading [k]
    microseconds into it, and [sample_isoformat] is right for that second.
    [sample_fromisoformat] knows the timestamps the samples store. *)
Definition T0 : Z := 1704067200000000.
Definition T1 : Z := T0 + MICROSECONDS_PER_HOUR.

Definition sample_clock (k : nat) : Z := (T1 + Z.of_nat k)%Z.

Definition sample_isoformat (t : Z) : string :=
  let us := ((t - T1) mod 1000000)%Z in
  if (us =? 0)%Z then "2024-01-01T01:00:00+00:00"
  else
    let digits := str_int us in
    "2024-01-01T01:00:00." +:+ replicate_str (6 - len digits) "0" +:+ digits
      +:+ "+00:00".

Definition sample_fromisoformat (s : string) : iso_parse :=
  if String.eqb s "2024-01-01T00:00:00+00:00" then IsoAware T0
  else if String.eqb s "2023-12-31T18:00:00+00:00"
       then IsoAware (T0 - 6 * MICROSECONDS_PER_HOUR)
  else if String.eqb s "2024-01-01T00:00:00" then IsoNaive T0
  else IsoInvalid ("Invalid isoformat string: '" +:+ s +:+ "'").

Definition sample_url : string := "https://example.com".

Definition sample_config : url_config := UrlConfig sample_url None.

(** A server that answers every request with status 200 and one page. *)
Definition serve (page : string) (hdrs : gmap string string)
    : string → requests_outcome :=
  fun url => ReqResponse (HttpResponse 200 "OK" url page hdrs).

(** The environment is given by the configured targets, the server, the
    text the normalizer extracts from a page, and the answer of the store to
    an update of the item of a target. *)
Definition sample_env (urls : list string)
    (server : string → requests_outcome) (normalize : string → res string)
    (update_error : string → option string) : env :=
  {| environ := {[ "USER_AGENT" := "Test/1.0" ]};
     urls_json := inr (map UrlString urls);
     ignore_regex_json := inr [];
     int_cooldown_hours := inr 6%Z;
     clock := sample_clock;
     isoformat := sample_isoformat;
     fromisoformat := sample_fromisoformat;
     requests_get := fun url _ => server url;
     get_item_error := fun _ => None;
     update_item_error := fun url _ _ => update_error url;
     normalize_html := fun html _ _ => normalize html;
     sha256_hex := fun t => "sha256:" +:+ t;
     send_digest_error := fun _ _ => None |}.

(** A store that accepts every update. *)
Definition accepting : string → option string := fun _ => None.

(** A world with an empty table, and one that holds a state for the sample
    target. *)
Definition empty_world : world := World ∅ 0 [] [] [].

Definition world_with (st : item) : world :=
  World {[ sample_url := st ]} 0 [] [] [].

(** The state of the sample target after a change that was notified at
    [last_notified_at]. *)
Definition sample_state (last_notified_at : pyval) : item :=
  <[ "url" := VStr sample_url ]>
    (<[ "last_hash" := VStr "sha256:Old content" ]>
       (<[ "normalized_text" := VStr "Old content" ]>
          (<[ "etag" := VStr "v1" ]>
             (<[ "error_count" := VNum 0 ]>
                {[ "last_notified_at" := last_notified_at ]})))).

(** The targets and the patterns a run is configured with. *)
Definition configured (E : env) : list url_config :=
  match urls_json E with
  | inr urls =>
      map (fun url =>
             match url with
             | UrlString s => UrlConfig s None
             | UrlObject c => c
             end) urls
  | inl _ => []
  end.

Definition patterns_of (E : env) : list string :=
  match ignore_regex_json E with
  | inr patterns => patterns
  | inl _ => []
  end.

(** The cooldown a run is configured with; a run whose [COOLDOWN_HOURS] is
    no integer ends before it uses one. *)
Definition cooldown_hours_env (E : env) : Z :=
  match int_cooldown_hours E with
  | inr cooldown_hours => cooldown_hours
  | inl _ => 0%Z
  end.

(** The change records of a run: the targets are processed in order, each
    in the world the one before left, and the records they return are
    collected in that order. *)
Inductive run_emits (E : env) (ignore_patterns : list string)
    (cooldown_hours : Z)
    : list url_config → world → list change_record → world → Prop :=
  | emits_done w :
      run_emits E ignore_patterns cooldown_hours [] w [] w
  | emits_none url_config rest w w1 w2 changes :
      process_url E url_config ignore_patterns cooldown_hours w = (Ok None, w1) →
      run_emits E ignore_patterns cooldown_hours rest w1 changes w2 →
      run_emits E ignore_patterns cooldown_hours (url_config :: rest) w
        changes w2
  | emits_some url_config rest w w1 w2 c changes :
      process_url E url_config ignore_patterns cooldown_hours w
      = (Ok (Some c), w1) →
      run_emits E ignore_patterns cooldown_hours rest w1 changes w2 →
      run_emits E ignore_patterns cooldown_hours (url_config :: rest) w
        (c :: changes) w2.

(** Two worlds that differ in their logs at most. *)
Definition same_but_log (w w1 : world) : Prop :=
  table w1 = table w ∧ clock_reads w1 = clock_reads w
  ∧ requests_sent w1 = requests_sent w ∧ digests w1 = digests w.

(** ** Notions for the extracted text and the digest *)

(** [c in s]. *)
Fixpoint occurs (c : ascii) (s : string) : bool :=
  match s with
  | EmptyString => false
  | String d s' => Ascii.eqb c d || occurs c s'
  end.

(** The first and the last character of a string are whitespace. *)
Definition starts_with_space (s : string) : bool :=
  match s with
  | EmptyString => false
  | String c _ => is_space c
  end.

Fixpoint ends_with_space (s : string) : bool :=
  match s with
  | EmptyString => false
  | String c EmptyString => is_space c
  | String _ s' => ends_with_space s'
  end.

(** The entity of one character. *)
Definition escape_char (c : ascii) : string :=
  if Ascii.eqb c "&" then "&amp;"
  else if Ascii.eqb c "<" then "&lt;"
  else if Ascii.eqb c ">" then "&gt;"
  else if Ascii.eqb c "034" then "&quot;"
  else if Ascii.eqb c "'" then "&#39;"
  else String c "".

(** Every character replaced by its entity, in one pass. *)
Fixpoint escape_each (s : string) : string :=
  match s with
  | EmptyString => ""
  | String c s' => escape_char c +:+ escape_each s'
  end.

(** An address as [send_digest_email] keeps it: not empty, without
    whitespace around it and without comma. *)
Definition clean_address (addr : string) : Prop :=
  addr ≠ "" ∧ starts_with_space addr = false ∧ ends_with_space addr = false
  ∧ occurs "," addr = false.

(** A pattern [normalize_html] skips with a warning: its compilation
    raises [re.error]. *)
Definition skipped {pattern : Type} (r : res pattern) : bool :=
  match r with
  | Raise e => issubclass (exn_cls e) ReError
  | Ok _ => false
  end.

(** The patterns of a list that compile, compiled, in order. *)
Definition compiled_of {pattern : Type} (re_compile : string → res pattern)
    (ignore_patterns : list string) : list pattern :=
  omap (fun p => match re_compile p with
                 | Ok c => Some c
                 | Raise _ => None
                 end) ignore_patterns.

(** The patterns of a list that are not skipped. *)
Definition valid_patterns {pattern : Type}
    (re_compile : string → res pattern) (ignore_patterns : list string)
    : list string :=
  List.filter (fun p => negb (skipped (re_compile p))) ignore_patterns.

(** The first exception of the compilation of a list of patterns that is
    no [re.error]. *)
Definition compile_failure {pattern : Type}
    (re_compile : string → res pattern) (ignore_patterns : list string)
    : option exn :=
  head (omap (fun p => match re_compile p with
                       | Raise e => if skipped (re_compile p) then None
                                    else Some e
                       | Ok _ => None
                       end) ignore_patterns).

(** A stripped line of the extracted text that is kept: it is not empty
    and no pattern of the list that compiles matches it. *)
Definition kept_line {pattern : Type} (re_compile : string → res pattern)
    (re_search : pattern → string → bool) (ignore_patterns : list string)
    (line : string) : bool :=
  negb (String.eqb line "")
  && forallb (fun p => match re_compile p with
                       | Ok c => negb (re_search c line)
                       | Raise _ => true
                       end) ignore_patterns.

(** A line of a normalized text: not empty, without whitespace around it
    and matched by no pattern of the list that compiles. *)
Definition normalized_line {pattern : Type}
    (re_compile : string → res pattern)
    (re_search : pattern → string → bool) (ignore_patterns : list string)
    (line : string) : Prop :=
  line ≠ "" ∧ starts_with_space line = false ∧ ends_with_space line = false
  ∧ ∀ p c, p ∈ ignore_patterns → re_compile p = Ok c →
           re_search c line = false.

(** The validator sent for a stored attribute: its value when the state has
    it and it is true. *)
Definition validator_of (prev_state : option item) (key : string)
    : option pyval :=
  match prev_state ≫= (fun st : item => st !! key) with
  | Some v => if truthy v then Some v else None
  | None => None
  end.

(** An environment whose state store fails every read with [msg]. *)
Definition failing_reads (msg : string) (E : env) : env :=
  {| environ := environ E;
     urls_json := urls_json E;
     ignore_regex_json := ignore_regex_json E;
     int_cooldown_hours := int_cooldown_hours E;
     clock := clock E;
     isoformat := isoformat E;
     fromisoformat := fromisoformat E;
     requests_get := requests_get E;
     get_item_error := fun _ => Some msg;
     update_item_error := update_item_error E;
     normalize_html := normalize_html E;
     sha256_hex := sha256_hex E;
     send_digest_error := send_digest_error E |}.

(** An environment with another answer of SES to the digests. *)
Definition with_send_error
    (answer : list change_record → nat → option exn) (E : env) : env :=
  {| environ := environ E;
     urls_json := urls_json E;
     ignore_regex_json := ignore_regex_json E;
     int_cooldown_hours := int_cooldown_hours E;
     clock := clock E;
     isoformat := isoformat E;
     fromisoformat := fromisoformat E;
     requests_get := requests_get E;
     get_item_error := get_item_error E;
     update_item_error := update_item_error E;
     normalize_html := normalize_html E;
     sha256_hex := sha256_hex E;
     send_digest_error := answer |}.

(** A record whose previous hash the bodies of the digest can print: it
    says [is_new], or its previous hash is a string. *)
Definition printable_record (c : change_record) : Prop :=
  cr_is_new c = true
  ∨ (cr_is_new c = false ∧ ∃ s, cr_previous_hash c = VStr s).

(*PROPERTIES*)
(* ===================================================================== *)
(** * Properties                                                         *)
(* ===================================================================== *)

(** Equations and disequations between closed terms, by evaluation. *)
Ltac vm_refl := vm_compute; reflexivity.
Ltac vm_neq := vm_compute; let H := fresh in intros H; discriminate H.

Lemma pair_fst {A B} (p : A * B) (a : A) : fst p = a → p = (a, snd p).
Proof. destruct p. simpl. by intros ->. Qed.

(** ** Strings *)

Section StringFacts.

Lemma str_length_app (s t : string) :
  String.length (s +:+ t) = String.length s + String.length t.
Proof. induction s as [|c s IH]; simpl; [done | by rewrite IH]. Qed.

Lemma length_slice_to (n : nat) (s : string) :
  String.length (slice_to n s) = min n (String.length s).
Proof.
  revert s; induction n as [|n IH]; intros [|c s]; simpl; try done.
  by rewrite IH.
Qed.

Lemma one_line_app (s t : string) :
  one_line (s +:+ t) = one_line s && one_line t.
Proof.
  induction s as [|c s IH]; simpl; [done|].
  rewrite IH. by rewrite andb_assoc.
Qed.

Lemma one_line_slice_to (n : nat) (s : string) :
  one_line s = true → one_line (slice_to n s) = true.
Proof.
  revert s; induction n as [|n IH]; intros [|c s]; simpl; try done.
  intros [Hc Hs]%andb_prop. rewrite Hc. simpl. by apply IH.
Qed.

Lemma splitlines_one_line (s : string) :
  one_line s = true → s ≠ "" → splitlines s = [s].
Proof.
  induction s as [|c s IH]; [done|].
  simpl. intros [Hc Hs]%andb_prop _.
  apply negb_true_iff in Hc. rewrite Hc.
  destruct s as [|d s]; [done|].
  rewrite IH; done.
Qed.

(** A line followed by a line feed and more text. *)
Lemma splitlines_line_LF (s rest : string) :
  one_line s = true →
  splitlines (s +:+ LF +:+ rest) = s :: splitlines rest.
Proof.
  induction s as [|c s IH]; intros H.
  - change ("" +:+ LF +:+ rest) with (String "010" rest).
    cbn [splitlines is_line_boundary]. by destruct rest.
  - simpl in H. apply andb_prop in H as [Hc Hs].
    apply negb_true_iff in Hc.
    change (String c s +:+ LF +:+ rest) with (String c (s +:+ LF +:+ rest)).
    cbn [splitlines]. rewrite Hc. by rewrite (IH Hs).
Qed.

Lemma Forall_one_line_splitlines (s : string) :
  Forall (fun l => one_line l = true) (splitlines s).
Proof.
  remember (String.length s) as n eqn:Hn.
  assert (Hle : String.length s ≤ n) by lia. clear Hn.
  revert s Hle. induction n as [|n IH]; intros [|c s] Hle;
    simpl in Hle; try lia; try constructor.
  assert (Hs : Forall (fun l => one_line l = true) (splitlines s))
    by (apply IH; lia).
  cbn [splitlines]. destruct (is_line_boundary c) eqn:Hc.
  - destruct s as [|d s]; [by repeat constructor|].
    destruct (Ascii.eqb c "013" && Ascii.eqb d "010").
    + constructor; [done|]. apply IH. simpl in Hle. lia.
    + by constructor.
  - destruct (splitlines s) as [|l ls].
    + constructor; [|constructor]. simpl. by rewrite Hc.
    + inversion Hs; subst. constructor; [|done]. simpl. by rewrite Hc.
Qed.

Lemma join_cons2 (sep x y : string) (L : list string) :
  join sep (x :: y :: L) = x +:+ sep +:+ join sep (y :: L).
Proof. done. Qed.

(** Splitting a snippet gives back the lines that were joined. *)
Lemma splitlines_join (L : list string) :
  Forall (fun l => one_line l = true) L →
  last L ≠ Some "" →
  splitlines (join LF L) = L.
Proof.
  induction L as [|x [|y L] IH]; intros HL Hlast.
  - done.
  - inversion HL; subst. apply splitlines_one_line; [done|].
    intros ->. by apply Hlast.
  - inversion HL; subst. rewrite join_cons2.
    rewrite splitlines_line_LF by done.
    f_equal. apply IH; done.
Qed.

Lemma digit_char_one_line (d : N) :
  (d < 10)%N → is_line_boundary (digit_char d) = false.
Proof.
  intros Hd.
  assert (d ∈ [0; 1; 2; 3; 4; 5; 6; 7; 8; 9]%N) as Hin.
  { destruct d as [|p]; [set_solver|].
    do 10 (try (destruct p as [p|p|]; try lia)); set_solver. }
  repeat (apply elem_of_cons in Hin as [->|Hin]; [done|]).
  by apply elem_of_nil in Hin.
Qed.

Lemma one_line_digits_go (fuel : nat) (n : N) (acc : string) :
  one_line acc = true → one_line (digits_go fuel n acc) = true.
Proof.
  revert n acc; induction fuel as [|fuel IH]; intros n acc Hacc; [done|].
  simpl.
  assert (one_line (String (digit_char (n mod 10)) acc) = true) as H.
  { simpl. rewrite digit_char_one_line; [done|]. by apply N.mod_lt. }
  destruct (n <? 10)%N; [done|]. by apply IH.
Qed.

Lemma one_line_str_nat (n : nat) : one_line (str_nat n) = true.
Proof. by apply one_line_digits_go. Qed.

(** A number below [10^k] is written with at most [k] digits. *)
Lemma length_digits_go (fuel : nat) (n : N) (acc : string) (k : nat) :
  (n < 10 ^ N.of_nat k)%N → 1 ≤ k →
  String.length (digits_go fuel n acc) ≤ k + String.length acc.
Proof.
  revert n acc k; induction fuel as [|fuel IH]; intros n acc k Hn Hk;
    simpl; [lia|].
  destruct (n <? 10)%N eqn:Hlt; simpl; [lia|].
  apply N.ltb_ge in Hlt.
  destruct k as [|[|k]]; [lia| |].
  - change (10 ^ N.of_nat 1)%N with 10%N in Hn. lia.
  - etrans; [apply (IH _ _ (S k))|simpl; lia]; [|lia].
    apply N.Div0.div_lt_upper_bound.
    replace (N.of_nat (S (S k))) with (N.succ (N.of_nat (S k))) in Hn by lia.
    by rewrite N.pow_succ_r' in Hn.
Qed.

Lemma length_str_nat (n k : nat) :
  (N.of_nat n < 10 ^ N.of_nat k)%N → 1 ≤ k → String.length (str_nat n) ≤ k.
Proof.
  intros Hn Hk. unfold str_nat, str_N.
  etrans; [by apply (length_digits_go _ _ _ k)|]. simpl. lia.
Qed.

End StringFacts.

(** ** The matcher terminates *)

Section MatcherFacts.
Import Difflib.
Variables a b : list string.

Section Bounds.
Variables alo ahi blo bhi : nat.

Lemma row_in_range (i : nat) (j2len : gmap nat nat) (js : list nat)
    (best : nat * nat * nat) (newj2len : gmap nat nat) :
  alo ≤ i → i < ahi →
  (∀ j v, j2len !! j = Some v → v ≤ i - alo) →
  in_range alo ahi best →
  (∀ j v, newj2len !! j = Some v → v ≤ i + 1 - alo) →
  in_range alo ahi (row blo bhi i j2len js best newj2len).1
  ∧ (∀ j v, (row blo bhi i j2len js best newj2len).2 !! j = Some v
            → v ≤ i + 1 - alo).
Proof.
  intros Hi Hhi Hlen. revert best newj2len.
  induction js as [|j js IH]; intros best newj2len Hbest Hnew; [done|].
  cbn [row]. destruct (j <? blo); [by apply IH|].
  destruct (bhi <=? j); [done|].
  assert (j2lenget j2len j + 1 ≤ i + 1 - alo) as Hk.
  { unfold j2lenget. destruct j as [|j']; [lia|].
    destruct (j2len !! j') as [v|] eqn:Hv; simpl; [|lia].
    specialize (Hlen _ _ Hv). lia. }
  destruct best as [[besti bestj] bestsize].
  apply IH.
  - destruct (bestsize <? _); [|done]. simpl. lia.
  - intros j0 v. rewrite lookup_insert.
    case_decide; [intros [= <-]; lia|apply Hnew].
Qed.

Lemma rows_in_range (n i : nat) (best : nat * nat * nat)
    (j2len : gmap nat nat) :
  alo ≤ i → i + n ≤ max alo ahi →
  (∀ j v, j2len !! j = Some v → v ≤ i - alo) →
  in_range alo ahi best →
  in_range alo ahi (rows a b blo bhi (seq i n) best j2len).
Proof.
  revert i best j2len.
  induction n as [|n IH]; intros i best j2len Hi Hn Hlen Hbest; [done|].
  cbn [seq rows].
  assert (i < ahi) as Hhi by lia.
  pose proof (row_in_range i j2len
                (match a !! i with Some x => b2j b x | None => [] end)
                best ∅ Hi Hhi Hlen Hbest) as Hrow.
  destruct (row blo bhi i j2len _ best ∅) as [best' newj2len].
  destruct Hrow as [Hbest' Hnew]; [by intros j v; rewrite lookup_empty|].
  apply IH; [lia|lia| |done].
  intros j v Hv. specialize (Hnew _ _ Hv). simpl in Hnew. lia.
Qed.

Lemma extend_left_in_range (junk : bool) (besti bestj bestsize : nat) :
  in_range alo ahi (besti, bestj, bestsize) →
  in_range alo ahi (extend_left a b alo blo junk besti bestj bestsize).
Proof.
  revert bestj bestsize.
  induction besti as [|i IH]; intros bestj bestsize Hbest; [done|].
  destruct bestj as [|j]; [done|]. cbn [extend_left].
  destruct (_ && _) eqn:Hcond; [|done].
  apply IH. simpl in *.
  repeat (apply andb_prop in Hcond as [Hcond ?]).
  apply Nat.ltb_lt in Hcond. lia.
Qed.

Lemma extend_right_bound (junk : bool) (gap besti bestj bestsize : nat) :
  bestsize ≤ extend_right a b bhi junk gap besti bestj bestsize
  ∧ extend_right a b bhi junk gap besti bestj bestsize ≤ bestsize + gap.
Proof.
  revert bestsize. induction gap as [|gap IH]; intros bestsize; [simpl; lia|].
  cbn [extend_right]. destruct (_ && _); [|lia].
  specialize (IH (S bestsize)). lia.
Qed.

Lemma extend_right_in_range (junk : bool) (besti bestj bestsize : nat) :
  in_range alo ahi (besti, bestj, bestsize) →
  in_range alo ahi (besti, bestj,
            extend_right a b bhi junk (ahi - (besti + bestsize))
              besti bestj bestsize).
Proof.
  intros [H1 H2].
  pose proof (extend_right_bound junk (ahi - (besti + bestsize))
                besti bestj bestsize).
  simpl. lia.
Qed.

  (** The block [find_longest_match] returns lies in [a[alo:ahi]]. *)
Lemma find_longest_match_in_range :
    in_range alo ahi (find_longest_match a b alo ahi blo bhi).
  Proof.
    unfold find_longest_match.
    pose proof (rows_in_range (ahi - alo) alo (alo, blo, 0) ∅) as Hrows.
    destruct (rows a b blo bhi _ _ ∅) as [[i1 j1] k1].
    assert (in_range alo ahi (i1, j1, k1)) as H1.
    { apply Hrows; [lia|lia|by intros j v; rewrite lookup_empty|].
      simpl. lia. }
    pose proof (extend_left_in_range false i1 j1 k1 H1) as H2.
    destruct (extend_left a b alo blo false i1 j1 k1) as [[i2 j2] k2].
    pose proof (extend_right_in_range false i2 j2 k2 H2) as H3.
    set (k3 := extend_right a b bhi false _ i2 j2 k2) in *.
    pose proof (extend_left_in_range true i2 j2 k3 H3) as H4.
    destruct (extend_left a b alo blo true i2 j2 k3) as [[i4 j4] k4].
    by apply extend_right_in_range.
  Qed.
End Bounds.

Lemma matching_loop_total (fuel : nat)
    (queue : list (nat * nat * nat * nat))
    (matching_blocks : list (nat * nat * nat)) :
  queue_weight queue ≤ fuel →
  is_Some (matching_loop a b fuel queue matching_blocks).
Proof.
  revert queue matching_blocks.
  induction fuel as [|fuel IH]; intros queue matching_blocks Hw.
  - destruct queue as [|[[[alo ahi] blo] bhi] queue]; [done|].
    simpl in Hw. lia.
  - destruct queue as [|[[[alo ahi] blo] bhi] queue]; [done|].
    cbn [matching_loop].
    pose proof (find_longest_match_in_range alo ahi blo bhi) as Hflm.
    destruct (find_longest_match a b alo ahi blo bhi) as [[i j] k].
    destruct Hflm as [H1 H2]. simpl in Hw.
    destruct (k =? 0) eqn:Hk; [apply IH; lia|].
    apply Nat.eqb_neq in Hk. apply IH.
    destruct (_ && _), (_ && _); simpl; lia.
Qed.

(** [get_opcodes] has a result: the passes allowed for the queue loop
    suffice. *)
Lemma get_opcodes_total : is_Some (get_opcodes a b).
Proof.
  unfold get_opcodes, get_matching_blocks.
  destruct (matching_loop_total (2 * length a + 1)
              [(0, length a, 0, length b)] []) as [blocks ->]; [|done].
  simpl. lia.
Qed.

End MatcherFacts.

(** ** difflib with no context lines *)

Section DiffFacts.
Import Difflib.
Variables a b : list string.

Lemma chg_app (c1 c2 : list opcode) : chg a b (c1 ++ c2) = chg a b c1 ++ chg a b c2.
Proof. unfold chg. by rewrite List.filter_app, flat_map_app. Qed.

Lemma chg_cons (c : opcode) (codes : list opcode) :
  chg a b (c :: codes) = chg a b [c] ++ chg a b codes.
Proof. apply (chg_app [c]). Qed.

Lemma op_lines_empty_equal (group : list opcode) :
  Forall empty_equal group → flat_map (op_lines a b) group = chg a b group.
Proof.
  induction 1 as [|c group Hc _ IH]; [done|].
  unfold chg in *. simpl. destruct c as [[[[t i1] i2] j1] j2].
  destruct t; simpl; rewrite IH; try done.
  unfold slice. rewrite Hc by done. done.
Qed.

Lemma chg_not_yields (group : list opcode) :
  yields group = false → chg a b group = [].
Proof.
  destruct group as [|[[[[[] i1] i2] j1] j2] [|c group]]; done.
Qed.

Lemma group_loop_lines (codes group : list opcode) :
  Forall empty_equal group →
  flat_map (flat_map (op_lines a b)) (group_loop 0 codes group)
  = chg a b group ++ chg a b codes.
Proof.
  revert group; induction codes as [|c codes IH]; intros group Hg.
  - simpl. destruct (yields group) eqn:Hy; simpl.
    + rewrite op_lines_empty_equal by done. unfold chg at 2. simpl.
      by rewrite !app_nil_r.
    + by rewrite chg_not_yields.
  - destruct c as [[[[t i1] i2] j1] j2]. cbn [group_loop].
    destruct (tag_eqb t Equal && (0 + 0 <? i2 - i1)) eqn:Hsplit.
    + apply andb_prop in Hsplit as [Ht Hlen].
      destruct t; try done. apply Nat.ltb_lt in Hlen.
      cbn [flat_map]. rewrite IH.
      * rewrite op_lines_empty_equal.
        -- rewrite chg_app. unfold chg. simpl. by rewrite !app_nil_r.
        -- apply Forall_app; split; [done|]. constructor; [|done].
           simpl. intros _. lia.
      * constructor; [|done]. simpl. intros _. lia.
    + rewrite IH.
      * rewrite chg_app, <- app_assoc. f_equal. by rewrite <- chg_cons.
      * apply Forall_app; split; [done|]. constructor; [|done].
        simpl. intros ->. simpl in Hsplit. apply Nat.ltb_ge in Hsplit. lia.
Qed.

Lemma chg_fix_first (n : nat) (codes : list opcode) :
  chg a b (fix_first n codes) = chg a b codes.
Proof. by destruct codes as [|[[[[[] i1] i2] j1] j2] codes]. Qed.

Lemma fix_last_cons (n : nat) (c c' : opcode) (codes : list opcode) :
  fix_last n (c :: c' :: codes) = c :: fix_last n (c' :: codes).
Proof. by destruct c as [[[[[] i1] i2] j1] j2]. Qed.

Lemma chg_fix_last (n : nat) (codes : list opcode) :
  chg a b (fix_last n codes) = chg a b codes.
Proof.
  induction codes as [|c [|c' codes] IH]; [done| |].
  - by destruct c as [[[[[] i1] i2] j1] j2].
  - rewrite fix_last_cons, chg_cons, IH. by rewrite <- chg_cons.
Qed.

Lemma grouped_lines (codes : list opcode) :
  flat_map (flat_map (op_lines a b)) (grouped 0 codes) = chg a b codes.
Proof.
  unfold grouped. rewrite group_loop_lines by done.
  rewrite chg_fix_last, chg_fix_first. by destruct codes.
Qed.

Lemma group_loop_nonempty (n : nat) (codes group : list opcode) :
  Forall (fun g => g ≠ []) (group_loop n codes group).
Proof.
  revert group; induction codes as [|c codes IH]; intros group.
  - simpl. destruct (yields group) eqn:Hy; [|done].
    constructor; [|done]. by intros ->.
  - destruct c as [[[[t i1] i2] j1] j2]. cbn [group_loop].
    destruct (tag_eqb t Equal && (n + n <? i2 - i1)); [|done].
    constructor; [|done]. by destruct group.
Qed.

Lemma hunk_nonempty (group : list opcode) :
  group ≠ [] →
  ∃ header, startswith header "@@" = true
            ∧ hunk a b group = header :: flat_map (op_lines a b) group.
Proof.
  intros Hg. unfold hunk.
  destruct group as [|[[[[t1 f1] f2] f3] f4] group]; [done|].
  destruct (last _) as [[[[[t2 l1] l2] l3] l4]|] eqn:Hlast.
  - eexists; split; [|done]. done.
  - by apply last_None in Hlast.
Qed.

Lemma filter_diff_hunks (groups : list (list opcode)) :
  Forall (fun g => g ≠ []) groups →
  filter_diff (flat_map (hunk a b) groups)
  = filter_diff (flat_map (flat_map (op_lines a b)) groups).
Proof.
  induction 1 as [|g groups Hg _ IH]; [done|].
  simpl. unfold filter_diff in *. rewrite !List.filter_app, IH. f_equal.
  destruct (hunk_nonempty g Hg) as (h & Hh & ->).
  simpl. unfold is_header. rewrite Hh. by rewrite !orb_true_r.
Qed.

(** What is left of the zero-context diff after the header filter: the
    changed lines that do not themselves look like a header. *)
Lemma filter_unified_diff_of (codes : list opcode) :
  filter_diff (unified_diff_of a b 0 codes) = filter_diff (chg a b codes).
Proof.
  unfold unified_diff_of. rewrite <- grouped_lines.
  assert (Forall (fun g => g ≠ []) (grouped 0 codes)) as Hne
    by apply group_loop_nonempty.
  destruct (grouped 0 codes) as [|g groups] eqn:Hgr; [done|].
  change (filter_diff ("--- " :: "+++ " :: flat_map (hunk a b) (g :: groups)))
    with (filter_diff (flat_map (hunk a b) (g :: groups))).
  by apply filter_diff_hunks.
Qed.

Lemma elem_of_slice (l : list string) (i j : nat) (x : string) :
  x ∈ slice l i j → x ∈ l.
Proof.
  unfold slice. intros H.
  apply list_elem_of_lookup in H as [k Hk].
  rewrite lookup_take_Some in Hk. destruct Hk as [Hk _].
  rewrite lookup_drop in Hk. by eapply list_elem_of_lookup_2.
Qed.

(** Every changed line is a line of [a] behind [-] or a line of [b]
    behind [+]. *)
Lemma elem_of_chg (codes : list opcode) (line : string) :
  line ∈ chg a b codes →
  (∃ l, l ∈ a ∧ line = String "-" l) ∨ (∃ l, l ∈ b ∧ line = String "+" l).
Proof.
  unfold chg. rewrite list_elem_of_In, in_flat_map.
  intros ([[[[t i1] i2] j1] j2] & [_ Hc]%filter_In & Hin).
  apply list_elem_of_In in Hin.
  assert (∀ p l i j, line ∈ map (String p) (slice l i j)
                     → ∃ x, x ∈ l ∧ line = String p x) as Hmap.
  { intros p l i j (x & -> & Hx)%list_elem_of_fmap.
    exists x; split; [by eapply elem_of_slice|done]. }
  destruct t; simpl in Hin; [| | |done].
  - apply elem_of_app in Hin as [H|H]; [left|right]; by eapply Hmap.
  - left; by eapply Hmap.
  - right; by eapply Hmap.
Qed.

(** The diff is the one of the opcodes of the matcher: the default of
    [unified_diff] is never used. *)
Lemma unified_diff_opcodes (n : nat) :
  ∃ codes, get_opcodes a b = Some codes
           ∧ unified_diff a b n = unified_diff_of a b n codes.
Proof.
  destruct (get_opcodes_total a b) as [codes Hcodes].
  exists codes. split; [done|]. unfold unified_diff. by rewrite Hcodes.
Qed.

End DiffFacts.

(** ** diff_generator.py *)

Section SnippetFacts.

Lemma app_assoc_str (s t u : string) : (s +:+ t) +:+ u = s +:+ (t +:+ u).
Proof.
  induction s as [|c s IH]; [done|].
  change (String c ((s +:+ t) +:+ u) = String c (s +:+ t +:+ u)).
  by f_equal.
Qed.

Lemma join_snoc (sep x : string) (L : list string) :
  L ≠ [] → join sep (L ++ [x]) = join sep L +:+ sep +:+ x.
Proof.
  induction L as [|y [|z L] IH]; intros HL; [done|done|].
  change ((y :: z :: L) ++ [x]) with (y :: z :: (L ++ [x])).
  rewrite !join_cons2.
  change (z :: L ++ [x]) with ((z :: L) ++ [x]).
  rewrite IH by done. by rewrite !app_assoc_str.
Qed.

Lemma truncate_line_long (line : string) :
  MAX_LINE_LENGTH < String.length line →
  truncate_line line = slice_to MAX_LINE_LENGTH line +:+ "...".
Proof.
  intros H. unfold truncate_line, len.
  by apply Nat.ltb_lt in H as ->.
Qed.

Lemma truncate_line_short (line : string) :
  String.length line ≤ MAX_LINE_LENGTH → truncate_line line = line.
Proof.
  intros H. unfold truncate_line, len.
  by apply Nat.ltb_ge in H as ->.
Qed.

Lemma truncate_line_form (line : string) :
  MAX_LINE_LENGTH < String.length line → truncated_form (truncate_line line).
Proof.
  intros H. rewrite truncate_line_long by done.
  eexists; split; [|done]. rewrite length_slice_to. lia.
Qed.

(** A line of the output longer than the cap has been cut. *)
Lemma truncate_line_bound (line : string) :
  MAX_LINE_LENGTH < String.length (truncate_line line) →
  truncated_form (truncate_line line).
Proof.
  intros H. apply truncate_line_form.
  destruct (decide (MAX_LINE_LENGTH < String.length line)); [done|].
  rewrite truncate_line_short in H; lia.
Qed.

Lemma one_line_truncate_line (line : string) :
  one_line line = true → one_line (truncate_line line) = true.
Proof.
  intros H. unfold truncate_line. destruct (_ <? _); [|done].
  rewrite one_line_app, one_line_slice_to; done.
Qed.

Lemma truncate_line_head (c : ascii) (line : string) :
  ∃ rest, truncate_line (String c line) = String c rest.
Proof. unfold truncate_line. destruct (_ <? _); eexists; done. Qed.

Lemma one_line_more_lines_marker (n : nat) :
  one_line (more_lines_marker n) = true.
Proof.
  unfold more_lines_marker. by rewrite !one_line_app, one_line_str_nat.
Qed.

Lemma one_line_more_changes_marker (n : nat) :
  one_line (more_changes_marker n) = true.
Proof.
  unfold more_changes_marker. by rewrite !one_line_app, one_line_str_nat.
Qed.

(** The marker of the second branch is shorter than the cap whenever the
    count it states is the length of a Python list. *)
Lemma truncate_more_changes_marker (n : nat) :
  (Z.of_nat n ≤ PY_SSIZE_T_MAX)%Z →
  truncate_line (more_changes_marker n) = more_changes_marker n.
Proof.
  intros Hn. apply truncate_line_short.
  unfold more_changes_marker. rewrite !str_length_app.
  assert (String.length (str_nat n) ≤ 19).
  { apply length_str_nat; [|lia].
    unfold PY_SSIZE_T_MAX in Hn.
    change (10 ^ N.of_nat 19)%N with 10000000000000000000%N. lia. }
  unfold MAX_LINE_LENGTH. simpl. lia.
Qed.

Lemma filtered_lines_changed (old_text new_text : string) :
  filtered_lines old_text new_text
  = filter_diff (changed_lines old_text new_text).
Proof. apply filter_unified_diff_of. Qed.

(** The lines kept for the snippet are additions or removals of single
    lines: no context line and no header line is among them. *)
Lemma elem_of_filtered_lines (old_text new_text line : string) :
  line ∈ filtered_lines old_text new_text →
  is_change_line line = true ∧ is_header line = false
  ∧ one_line line = true ∧ line ∈ changed_lines old_text new_text.
Proof.
  rewrite filtered_lines_changed. unfold filter_diff.
  rewrite list_elem_of_In, filter_In, <- list_elem_of_In.
  intros [Hin Hhead]. apply negb_true_iff in Hhead.
  split_and!; [| done | | done].
  - apply elem_of_chg in Hin as [(l & _ & ->)|(l & _ & ->)]; done.
  - apply elem_of_chg in Hin as [(l & Hl & ->)|(l & Hl & ->)]; simpl;
      eapply (proj1 (Forall_forall _ _) (Forall_one_line_splitlines _));
      done.
Qed.

Lemma cap_lines_eq (F : list string) :
  cap_lines F
  = take MAX_DIFF_LINES F
      ++ (if MAX_DIFF_LINES <? length F
          then [more_changes_marker (length F - MAX_DIFF_LINES)] else []).
Proof.
  unfold cap_lines. destruct (_ <? _) eqn:H; [done|].
  apply Nat.ltb_ge in H. by rewrite take_ge, app_nil_r.
Qed.

(** The lines of the snippet of a new target. *)
Lemma snippet_lines_new (new_text : string) :
  let lines := splitlines new_text in
  splitlines (generate_diff_snippet "" new_text)
  = map (fun l => "+ " +:+ truncate_line l) (take MAX_DIFF_LINES lines)
      ++ (if MAX_DIFF_LINES <? length lines
          then [more_lines_marker (length lines - MAX_DIFF_LINES)] else []).
Proof.
  intros lines. unfold generate_diff_snippet. cbn [String.eqb].
  fold lines. rewrite map_map.
  set (L := map (fun l => "+ " +:+ truncate_line l) (take MAX_DIFF_LINES lines)).
  assert (Forall (fun l => one_line l = true) L) as HL.
  { apply Forall_map, Forall_take.
    eapply Forall_impl; [apply Forall_one_line_splitlines|].
    intros l Hl. simpl. by apply one_line_truncate_line. }
  assert (∀ x, last L ≠ Some x ∨ x ≠ "") as Hlast.
  { intros x. destruct (decide (x = "")) as [->|]; [left|by right].
    intros Hx. apply last_Some_elem_of in Hx.
    apply list_elem_of_fmap in Hx as (l & Hl & _). done. }
  destruct (MAX_DIFF_LINES <? length lines) eqn:Hlen.
  - rewrite <- join_snoc.
    + apply splitlines_join.
      * apply Forall_app; split; [done|]. constructor; [|done].
        apply one_line_more_lines_marker.
      * by rewrite last_snoc.
    + apply Nat.ltb_lt in Hlen. unfold L.
      destruct lines; simpl in *; [lia|done].
  - rewrite app_nil_r. apply splitlines_join; [done|].
    intros Hx. by destruct (Hlast "").
Qed.

(** The lines of the snippet against a previous text. *)
Lemma snippet_lines_old (old_text new_text : string) :
  old_text ≠ "" →
  splitlines (generate_diff_snippet old_text new_text)
  = map truncate_line (cap_lines (filtered_lines old_text new_text)).
Proof.
  intros Hold. unfold generate_diff_snippet.
  destruct (String.eqb old_text "") eqn:Heq;
    [by apply String.eqb_eq in Heq|].
  set (F := filtered_lines old_text new_text).
  assert (Forall (fun l => one_line l = true ∧ l ≠ "") (cap_lines F)) as HF.
  { rewrite cap_lines_eq. apply Forall_app; split.
    - apply Forall_take, Forall_forall. intros l Hl.
      apply elem_of_filtered_lines in Hl as (Hc & _ & Ho & _).
      split; [done|]. by intros ->.
    - destruct (_ <? _); [|done]. constructor; [|done].
      split; [apply one_line_more_changes_marker|done]. }
  apply splitlines_join.
  - apply Forall_map. eapply Forall_impl; [exact HF|].
    intros l [Hl _]. by apply one_line_truncate_line.
  - intros Hx. apply last_Some_elem_of in Hx.
    apply list_elem_of_fmap in Hx as (l & Hl & Hin).
    apply (proj1 (Forall_forall _ _) HF) in Hin as [_ Hne].
    destruct l as [|c l]; [done|].
    by destruct (truncate_line_head c l) as [rest Hr]; rewrite Hr in Hl.
Qed.

End SnippetFacts.

Lemma is_change_line_truncate (line : string) :
  is_change_line line = true → is_change_line (truncate_line line) = true.
Proof.
  destruct line as [|c line]; [done|].
  destruct (truncate_line_head c line) as [rest ->]. done.
Qed.

(** The cap of the snippet, counted on the lines the code keeps.  With
    [total] the number of lines kept (the lines of the new text for a new
    target, the lines left of the zero-context diff by the header filter
    otherwise), the snippet is the first [min 20 total] of them, followed,
    exactly when [total] exceeds 20, by one marker stating [total - 20].
    The number of lines is taken to be the length of a Python list. *)
Lemma generate_diff_snippet_capped (old_text new_text : string) :
  (Z.of_nat (length (filtered_lines old_text new_text)) ≤ PY_SSIZE_T_MAX)%Z →
  let total :=
    if String.eqb old_text "" then length (splitlines new_text)
    else length (filtered_lines old_text new_text) in
  let marker :=
    if String.eqb old_text "" then more_lines_marker else more_changes_marker in
  ∃ change_lines,
    splitlines (generate_diff_snippet old_text new_text)
    = change_lines
        ++ (if MAX_DIFF_LINES <? total
            then [marker (total - MAX_DIFF_LINES)] else [])
    ∧ length change_lines = min MAX_DIFF_LINES total
    ∧ Forall (fun line => is_change_line line = true) change_lines
    ∧ (old_text ≠ "" → total = 50 →
       last (splitlines (generate_diff_snippet old_text new_text))
       = Some "... (30 more changes)").
Proof.
  intros Hsize total marker. subst total marker.
  destruct (String.eqb old_text "") eqn:Hold.
  - apply String.eqb_eq in Hold as ->.
    eexists. split; [apply snippet_lines_new|].
    split; [by rewrite length_map, length_take|].
    split; [|done].
    apply Forall_map, Forall_forall. by intros l _.
  - apply String.eqb_neq in Hold.
    set (F := filtered_lines old_text new_text) in *.
    assert (splitlines (generate_diff_snippet old_text new_text)
            = map truncate_line (take MAX_DIFF_LINES F)
                ++ (if MAX_DIFF_LINES <? length F
                    then [more_changes_marker (length F - MAX_DIFF_LINES)]
                    else [])) as Hout.
    { rewrite snippet_lines_old by done. fold F.
      rewrite cap_lines_eq, map_app. f_equal.
      destruct (_ <? _); [|done]. simpl. f_equal.
      apply truncate_more_changes_marker. lia. }
    exists (map truncate_line (take MAX_DIFF_LINES F)).
    split; [done|]. split; [by rewrite length_map, length_take|]. split.
    + apply Forall_map, Forall_take, Forall_forall. intros l Hl.
      apply is_change_line_truncate.
      by apply elem_of_filtered_lines in Hl as (? & _).
    + intros _ H50. rewrite Hout, H50. simpl. by rewrite last_snoc.
Qed.

(** The diff of twenty-five old lines against twenty-five new ones has
    fifty change lines. *)
Lemma generate_diff_snippet_capped_witness :
  let old_text := join LF (numbered_lines "Old line " 25) in
  let new_text := join LF (numbered_lines "New line " 25) in
  (Z.of_nat (length (filtered_lines old_text new_text)) ≤ PY_SSIZE_T_MAX)%Z
  ∧ ∃ change_lines,
      splitlines (generate_diff_snippet old_text new_text)
      = change_lines ++ ["... (30 more changes)"]
      ∧ length change_lines = 20.
Proof.
  intros old_text new_text.
  assert (Z.of_nat (length (filtered_lines old_text new_text)) ≤ PY_SSIZE_T_MAX)%Z
    as Hsize by vm_neq.
  split; [exact Hsize|].
  destruct (generate_diff_snippet_capped old_text new_text Hsize)
    as (change_lines & Hout & Hlen & _).
  exists change_lines. split; [|exact Hlen].
  exact Hout.
Defined.

(** The repository's test of the cap: fifty old lines replaced by fifty new
    ones leave a hundred change lines, eighty of them omitted. *)
Example test_max_diff_lines_truncation :
  last (splitlines (generate_diff_snippet
                      (join LF (numbered_lines "Old line " 50))
                      (join LF (numbered_lines "New line " 50))))
  = Some "... (80 more changes)".
Proof. vm_compute. repeat split; reflexivity. Qed.

(** A new target with a hundred lines: twenty additions and the marker. *)
Example test_empty_old_text_many_lines :
  splitlines (generate_diff_snippet "" (join LF (numbered_lines "Line " 100)))
  = map (fun l => "+ " +:+ l) (numbered_lines "Line " 20)
      ++ ["... (80 more lines)"].
Proof. vm_compute. repeat split; reflexivity. Qed.

(** C6.  The cap does not count the change lines the header filter
    drops.  Twenty-five lines that start with two dashes are replaced by
    one line: the zero-context diff has twenty-six change lines, but its
    removals start with three dashes as the header does and are skipped
    with it.  The snippet is the one addition: neither twenty change lines
    nor a marker for the six beyond them. *)
Theorem cap_counts_after_header_filter :
  let old_lines := numbered_lines "-- item " 25 in
  let old_text := join LF old_lines in
  let new_text := "b" in
  Difflib.unified_diff (splitlines old_text) (splitlines new_text) 0
  = "--- " :: "+++ " :: "@@ -1,25 +1 @@"
      :: map (fun line => "-" +:+ line) old_lines ++ ["+b"]
  ∧ changed_lines old_text new_text
    = map (fun line => "-" +:+ line) old_lines ++ ["+b"]
  ∧ length (changed_lines old_text new_text) = 26
  ∧ filtered_lines old_text new_text = ["+b"]
  ∧ generate_diff_snippet old_text new_text = "+b".
Proof. intros old_lines old_text new_text. split_and!; vm_refl. Qed.

(** C7.  A line of a new target is cut before its prefix is added.  A
    new text of one line of 200 characters is emitted behind the two
    characters of the prefix: 202 characters, not cut.  Against a previous
    text the same line, 201 characters with its prefix, is cut to 200
    characters and the ellipsis. *)
Theorem new_target_line_not_truncated :
  let new_text := replicate_str 200 "x" in
  splitlines (generate_diff_snippet "" new_text) = ["+ " +:+ new_text]
  ∧ String.length ("+ " +:+ new_text) = 202
  ∧ ¬ truncated_form ("+ " +:+ new_text)
  ∧ splitlines (generate_diff_snippet "a" new_text)
    = ["-a"; "+" +:+ replicate_str 199 "x" +:+ "..."].
Proof.
  intros new_text. split_and!; [vm_refl|vm_refl| |vm_refl].
  intros (body & Hlen & Heq).
  apply (f_equal String.length) in Heq.
  rewrite (str_length_app body), Hlen in Heq. vm_compute in Heq. lia.
Qed.

(** C8 at its failing input.  The old text is the single line [-- a] and
    the new text the single line [b]: the diff has the two changed lines
    [--- a] and [+b], and the removal is dropped together with the headers
    because it starts with three dashes. *)
Theorem header_filter_drops_changed_line :
  Difflib.unified_diff (splitlines "-- a") (splitlines "b") 0
  = ["--- "; "+++ "; "@@ -1 +1 @@"; "--- a"; "+b"]
  ∧ changed_lines "-- a" "b" = ["--- a"; "+b"]
  ∧ filtered_lines "-- a" "b" = ["+b"]
  ∧ generate_diff_snippet "-- a" "b" = "+b".
Proof. vm_compute. repeat split; reflexivity. Qed.

(** ** The state store *)

(** Closes a goal [∃ lg (k), (r, World t (reads + k) (lg ++ l) ..) = ..] whose
    two sides differ by at most two log records and one reading. *)
Ltac log_prefix :=
  first
    [ by exists []
    | by eexists [_]
    | by eexists [_; _]
    | exists [], 0; destruct_world; simpl; by rewrite ?Nat.add_0_r
    | eexists [_], 0; simpl; by rewrite ?Nat.add_0_r
    | exists [], 1; simpl; by rewrite ?Nat.add_1_r
    | eexists [_], 1; simpl; by rewrite ?Nat.add_1_r ]
with destruct_world :=
  repeat match goal with w : world |- _ => destruct w end.

Section StoreFacts.
Variable E : env.

Lemma apply_set_update (updates : gmap string pyval) (it : item) :
  apply_set (update_expr updates) (expr_attr_values updates) it
  = updates ∪ it.
Proof.
  unfold apply_set. f_equal. apply map_eq. intros k.
  unfold update_expr, expr_attr_values.
  rewrite lookup_omap, map_lookup_imap.
  destruct (updates !! k) as [v|] eqn:Hk; simpl; [|done].
  rewrite lookup_kmap; [done|]. apply _.
Qed.

(** [update_state] either rewrites the item of [url] or logs and raises
    again; nothing else of the world moves. *)
Lemma update_state_run (url : string) (updates : gmap string pyval)
    (w : world) :
  update_state E url updates w
  = match update_item_error E url (update_expr updates)
            (expr_attr_values updates) with
    | None =>
        (Ok tt,
         World (<[url := updates ∪ base_item w url]> (table w))
               (clock_reads w) (log w) (requests_sent w) (digests w))
    | Some msg =>
        (Raise (Exn ClientError msg),
         World (table w) (clock_reads w)
               ((ERROR, "DynamoDB update_item failed for " +:+ url +:+ ": "
                          +:+ msg) :: log w)
               (requests_sent w) (digests w))
    end.
Proof.
  unfold update_state, try_except, table_update_item.
  destruct (update_item_error _ _ _ _) as [msg|]; [done|].
  by rewrite apply_set_update.
Qed.

Lemma get_state_run (url : string) (w : world) :
  ∃ lg, get_state E url w
        = (Ok (state_of E w url),
           World (table w) (clock_reads w) (lg ++ log w)
                 (requests_sent w) (digests w)).
Proof.
  unfold get_state, try_except, table_get_item, state_of.
  destruct (get_item_error E url) as [msg|].
  - by eexists [_].
  - exists []. by destruct w.
Qed.

Lemma fetch_url_run (url ua : string) (hdrs : gmap string pyval) (w : world) :
  ∃ lg, fetch_url E url ua hdrs w
        = (fetch_outcome E url ua hdrs,
           World (table w) (clock_reads w) (lg ++ log w)
                 ((url, hdrs ∪ {[ "User-Agent" := VStr ua ]})
                    :: requests_sent w)
                 (digests w)).
Proof.
  unfold fetch_outcome, fetch_url, try_except, bind, requests_get_call,
    lift, logger, ret, raise.
  destruct (requests_get E url _) as [[cls msg]|r]; simpl.
  - destruct cls; simpl; log_prefix.
  - destruct (negb (status_code r =? 304)%Z); simpl; [|log_prefix].
    unfold raise_for_status.
    destruct ((400 <=? status_code r)%Z && (status_code r <? 500)%Z);
      simpl; [log_prefix|].
    destruct ((500 <=? status_code r)%Z && (status_code r <? 600)%Z);
      simpl; log_prefix.
Qed.

Lemma should_notify_run (url : string) (prev_state : option item)
    (cooldown_hours : Z) (w : world) :
  ∃ lg k, should_notify E url prev_state cooldown_hours w
          = (notify_decision E url prev_state cooldown_hours (clock_reads w),
             World (table w) (clock_reads w + k) (lg ++ log w)
                   (requests_sent w) (digests w)).
Proof.
  unfold notify_decision, should_notify.
  destruct (cooldown_hours <=? 0)%Z; [log_prefix|].
  destruct prev_state as [st|]; [|log_prefix].
  destruct (if bool_decide (st = ∅) then None else st !! "last_notified_at")
    as [v|]; [|log_prefix].
  unfold try_except, bind, lift, datetime_now, logger, ret. simpl.
  destruct (py_replace_Z v) as [s|[cls msg]]; simpl.
  - destruct (datetime_fromisoformat E s) as [d|[cls msg]]; simpl.
    + destruct (datetime_sub _ d) as [delta|[cls msg]]; simpl.
      * log_prefix.
      * destruct cls; simpl; log_prefix.
    + destruct cls; simpl; log_prefix.
  - destruct cls; simpl; log_prefix.
Qed.

End StoreFacts.

(** ** process_url follows its plan *)

(** Runs the last steps of a branch, up to its [update_state], and closes
    the goal on either answer of the store. *)
Ltac finish_update :=
  unfold touch_state, now_isoformat;
  repeat (unfold bind, datetime_now, ret, logger; simpl);
  rewrite update_state_run; simpl;
  unfold now_of, base_item; simpl;
  destruct (update_item_error _ _ _ _); simpl; by eexists.

Section ProcessUrl.
Variable E : env.

Lemma record_error_run {A} (url : string) (prev_state : option item)
    (e : exn) (w : world) :
  ∃ w', @record_error A E url prev_state e w
        = (match plan_result E url (error_plan E w prev_state e) w with
           | (Ok _, _) => Ok None
           | (Raise e', _) => Raise e'
           end, w')
        ∧ table w' = snd (plan_result E url (error_plan E w prev_state e) w)
        ∧ requests_sent w' = requests_sent w
        ∧ digests w' = digests w.
Proof.
  unfold record_error, error_plan.
  unfold bind at 1, lift.
  destruct (next_error_count prev_state) as [n|e']; simpl; [|by eexists].
  finish_update.
Qed.

(** The run of [process_url]: its result and the table it leaves are those
    of its plan; it sends one request and no digest. *)
Lemma process_url_run (url_config : url_config) (ignore_patterns : list string)
    (cooldown_hours : Z) (w : world) :
  let url := uc_url url_config in
  let p := plan_of E url_config ignore_patterns cooldown_hours w in
  ∃ w', process_url E url_config ignore_patterns cooldown_hours w
        = (fst (plan_result E url p w), w')
        ∧ table w' = snd (plan_result E url p w)
        ∧ requests_sent w'
          = (url, conditional_headers_of (state_of E w url)
                    ∪ {[ "User-Agent" := VStr (user_agent_of E) ]})
              :: requests_sent w
        ∧ digests w' = digests w.
Proof.
  intros url p. subst p. unfold process_url, plan_of. fold url.
  unfold bind at 1. simpl.
  unfold bind at 1.
  destruct (get_state_run E url
              (World (table w) (clock_reads w)
                 ((INFO, "Processing URL: " +:+ url) :: log w)
                 (requests_sent w) (digests w))) as [lg1 ->].
  simpl.
  change (state_of E _ url) with (state_of E w url).
  set (prev := state_of E w url).
  unfold bind at 1, attempt.
  match goal with |- context [fetch_url E url ?ua ?h ?w1] =>
    destruct (fetch_url_run E url ua h w1) as [lg2 ->] end.
  simpl.
  destruct (fetch_outcome E url _ _) as [response|e]; simpl.
  2:{ unfold bind at 1. simpl.
      match goal with |- context [record_error E url prev e ?w1] =>
        destruct (@record_error_run change_record url prev e w1)
          as (w' & -> & Ht & Hr & Hd) end.
      exists w'. unfold error_plan, now_of in *. simpl in *.
      destruct (next_error_count prev); simpl in *; [|done].
      unfold base_item in *. simpl in *.
      destruct (update_item_error _ _ _ _); simpl in *; done. }
  destruct (fr_status_code response =? 304)%Z.
  { finish_update. }
  unfold bind at 1, attempt, lift.
  destruct (normalize_and_hash E response _ _) as [[normalized_text new_hash]|e];
    simpl.
  2:{ unfold bind at 1. simpl.
      match goal with |- context [record_error E url prev e ?w1] =>
        destruct (@record_error_run change_record url prev e w1)
          as (w' & -> & Ht & Hr & Hd) end.
      exists w'. unfold error_plan, now_of in *. simpl in *.
      destruct (next_error_count prev); simpl in *; [|done].
      unfold base_item in *. simpl in *.
      destruct (update_item_error _ _ _ _); simpl in *; done. }
  unfold bind at 1, now_isoformat, bind at 1, datetime_now, ret. simpl.
  fold (now_of E w).
  destruct (negb (no_state prev)
            && bool_decide (prev_get prev "last_hash" = VStr new_hash)).
  { finish_update. }
  unfold bind at 1. simpl. unfold bind at 1.
  match goal with |- context [should_notify E url prev cooldown_hours ?w1] =>
    destruct (should_notify_run E url prev cooldown_hours w1)
      as (lg3 & k & ->) end.
  simpl. fold (change_update (now_of E w) new_hash normalized_text response).
  destruct (notify_decision E url prev cooldown_hours (S (clock_reads w)))
    as [[|]|e]; simpl; [| |by eexists].
  - unfold bind at 1, lift.
    destruct (diff_against _ normalized_text) as [diff_snippet|e]; simpl;
      [|by eexists].
    finish_update.
  - finish_update.
Qed.

End ProcessUrl.

(** ** should_notify *)

Section Cooldown.
Variable E : env.

Lemma last_notified_lookup (st : item) :
  (if bool_decide (st = ∅) then None else st !! "last_notified_at")
  = last_notified_of (Some st).
Proof. simpl. case_bool_decide as H; [by rewrite H|done]. Qed.

(** A value that does not parse raises [AttributeError] or
    [ValueError]. *)
Lemma parse_last_notified_raises (v : pyval) (e : exn) :
  parse_last_notified E v = Raise e →
  exn_cls e = AttributeError ∨ exn_cls e = ValueError.
Proof.
  unfold parse_last_notified, py_replace_Z, datetime_fromisoformat.
  destruct v; simpl; try (intros [= <-]; by left).
  destruct (fromisoformat E _); intros [= <-]; by right.
Qed.

(** The run of [should_notify] on a stored value, by the outcome of
    parsing it. *)
Lemma should_notify_stored (url : string) (st : item) (v : pyval)
    (cooldown_hours : Z) (w : world) :
  (0 < cooldown_hours)%Z →
  st !! "last_notified_at" = Some v →
  should_notify E url (Some st) cooldown_hours w
  = match parse_last_notified E v with
    | Raise e =>
        (Ok true,
         World (table w) (clock_reads w)
               ((WARNING, "Error parsing last_notified_at for " +:+ url
                            +:+ ": " +:+ exn_msg e) :: log w)
               (requests_sent w) (digests w))
    | Ok d =>
        (match d with
         | IsoAware t =>
             Ok (hours_since_ge (clock E (clock_reads w) - t) cooldown_hours)
         | _ => Raise (Exn TypeError
                  "can't subtract offset-naive and offset-aware datetimes")
         end,
         World (table w) (S (clock_reads w)) (log w) (requests_sent w)
               (digests w))
    end.
Proof.
  intros Hcd Hv. unfold should_notify.
  destruct (cooldown_hours <=? 0)%Z eqn:Hle; [lia|].
  rewrite last_notified_lookup. simpl. rewrite Hv.
  pose proof (parse_last_notified_raises v) as Hcls.
  unfold parse_last_notified in *.
  unfold try_except, bind, lift, datetime_now, logger, ret.
  destruct (py_replace_Z v) as [s|e]; simpl.
  - destruct (datetime_fromisoformat E s) as [d|e]; simpl.
    + by destruct d.
    + by destruct (Hcls e eq_refl) as [-> | ->].
  - by destruct (Hcls e eq_refl) as [-> | ->].
Qed.


End Cooldown.

(** C3.  [should_notify] raises on a stored [last_notified_at] without
    offset.  When the cooldown is positive and the stored value is a string
    that [fromisoformat] parses, once its [Z] is replaced, as a time without
    offset, the clock is read and subtracting the parsed time from the
    reading raises a [TypeError], which the clause for [ValueError] and
    [AttributeError] does not catch: no warning is logged and the call
    returns neither true nor false. *)
Theorem should_notify_raises_on_naive_timestamp (E : env) (url : string)
    (st : item) (s : string) (t : Z) (cooldown_hours : Z) (w : world) :
  (0 < cooldown_hours)%Z →
  st !! "last_notified_at" = Some (VStr s) →
  fromisoformat E (replace_char "Z" "+00:00" s) = IsoNaive t →
  should_notify E url (Some st) cooldown_hours w
  = (Raise (Exn TypeError
              "can't subtract offset-naive and offset-aware datetimes"),
     World (table w) (S (clock_reads w)) (log w) (requests_sent w)
       (digests w)).
Proof.
  intros Hcd Hv Hparse.
  rewrite (should_notify_stored E url st (VStr s)) by done.
  unfold parse_last_notified, py_replace_Z, datetime_fromisoformat.
  by rewrite Hparse.
Qed.

(** The item of the sample target says it was notified at
    [2024-01-01T00:00:00]. *)
Lemma should_notify_raises_on_naive_timestamp_witness :
  let E := sample_env [sample_url] (serve "" ∅) Ok accepting in
  let st := sample_state (VStr "2024-01-01T00:00:00") in
  ((0 < 6)%Z
   ∧ st !! "last_notified_at" = Some (VStr "2024-01-01T00:00:00")
   ∧ fromisoformat E (replace_char "Z" "+00:00" "2024-01-01T00:00:00")
     = IsoNaive T0)
  ∧ should_notify E sample_url (Some st) 6 empty_world
    = (Raise (Exn TypeError
                "can't subtract offset-naive and offset-aware datetimes"),
       World ∅ 1 [] [] []).
Proof.
  intros E st.
  assert (0 < 6)%Z as H1 by lia.
  assert (st !! "last_notified_at" = Some (VStr "2024-01-01T00:00:00")) as H2
    by vm_refl.
  assert (fromisoformat E (replace_char "Z" "+00:00" "2024-01-01T00:00:00")
          = IsoNaive T0) as H3 by vm_refl.
  split; [done|].
  exact (should_notify_raises_on_naive_timestamp E sample_url st _ T0 6
           empty_world H1 H2 H3).
Defined.

(** The repository's tests of the cooldown: notified one hour ago, six
    hours ago, never; and a timestamp without offset. *)
Example test_should_notify :
  let E := sample_env [sample_url] (serve "" ∅) Ok accepting in
  let ask v := fst (should_notify E sample_url (Some (sample_state v)) 6
                      empty_world) in
  ask (VStr "2024-01-01T00:00:00+00:00") = Ok false
  ∧ ask (VStr "2024-01-01T00:00:00Z") = Ok false
  ∧ ask (VStr "2023-12-31T18:00:00+00:00") = Ok true
  ∧ ask VNone = Ok true
  ∧ fst (should_notify E sample_url None 6 empty_world) = Ok true
  ∧ ask (VStr "2024-01-01T00:00:00")
    = Raise (Exn TypeError
               "can't subtract offset-naive and offset-aware datetimes").
Proof. vm_compute. repeat split; reflexivity. Qed.

(** ** The paths of process_url *)

Section Paths.
Variable E : env.

Lemma state_of_Some (w : world) (url : string) (st : item) :
  state_of E w url = Some st →
  get_item_error E url = None ∧ table w !! url = Some st.
Proof. unfold state_of. by destruct (get_item_error E url). Qed.

Lemma state_of_None (w : world) (url : string) :
  table w !! url = None → state_of E w url = None.
Proof. unfold state_of. by destruct (get_item_error E url). Qed.

Lemma stored_item (w : world) (url key : string) (st : item) :
  table w !! url = Some st → stored w url key = st !! key.
Proof. unfold stored. by intros ->. Qed.

Lemma base_item_Some (w : world) (url : string) (st : item) :
  table w !! url = Some st → base_item w url = st.
Proof. unfold base_item. by intros ->. Qed.

Lemma stored_updated (w w' : world) (url key : string)
    (updates : gmap string pyval) :
  table w' = <[url := updates ∪ base_item w url]> (table w) →
  stored w' url key = (updates ∪ base_item w url) !! key.
Proof. unfold stored. intros ->. by rewrite lookup_insert_eq. Qed.

(** An attribute the update does not name keeps its value; the key
    attribute of a new item is the only one that appears. *)
Lemma stored_kept (w w' : world) (url key : string)
    (updates : gmap string pyval) :
  table w' = <[url := updates ∪ base_item w url]> (table w) →
  updates !! key = None → key ≠ "url" →
  stored w' url key = stored w url key.
Proof.
  intros Ht Hk Hkey. rewrite (stored_updated _ _ _ _ _ Ht).
  rewrite lookup_union_r by done.
  unfold base_item, stored.
  destruct (table w !! url); simpl; [done|].
  by rewrite lookup_singleton_ne.
Qed.

Lemma stored_set (w w' : world) (url key : string)
    (updates : gmap string pyval) (v : pyval) :
  table w' = <[url := updates ∪ base_item w url]> (table w) →
  updates !! key = Some v →
  stored w' url key = Some v.
Proof.
  intros Ht Hk. rewrite (stored_updated _ _ _ _ _ Ht).
  by apply lookup_union_Some_l.
Qed.

(** The run of a plan that updates, when the store accepts. *)
Lemma process_url_update (url_config : url_config)
    (ignore_patterns : list string) (cooldown_hours : Z) (w : world)
    (updates : gmap string pyval) (result : option change_record) :
  plan_of E url_config ignore_patterns cooldown_hours w
  = PlanUpdate updates result →
  store_accepts E (uc_url url_config) →
  ∃ w', process_url E url_config ignore_patterns cooldown_hours w
        = (Ok result, w')
        ∧ table w' = <[uc_url url_config
                         := updates ∪ base_item w (uc_url url_config)]>
                       (table w).
Proof.
  intros Hplan Hstore.
  destruct (process_url_run E url_config ignore_patterns cooldown_hours w)
    as (w' & Hrun & Ht & _).
  rewrite Hplan in Hrun, Ht. simpl in Hrun, Ht.
  rewrite Hstore in Hrun, Ht. by exists w'.
Qed.

(** Whatever the path, only the item of the target is written. *)
Lemma process_url_frame (url_config : url_config)
    (ignore_patterns : list string) (cooldown_hours : Z) (w w' : world)
    (r : res (option change_record)) (other : string) :
  process_url E url_config ignore_patterns cooldown_hours w = (r, w') →
  other ≠ uc_url url_config →
  table w' !! other = table w !! other.
Proof.
  intros Hrun Hne.
  destruct (process_url_run E url_config ignore_patterns cooldown_hours w)
    as (w'' & Hrun' & Ht & _).
  rewrite Hrun in Hrun'. injection Hrun' as _ <-. rewrite Ht.
  unfold plan_result.
  destruct (plan_of _ _ _ _ _) as [e|updates result]; [done|].
  destruct (update_item_error _ _ _ _); [done|]. simpl.
  by rewrite lookup_insert_ne.
Qed.

Lemma change_update_lookup (now h text : string) (response : fetch_result) :
  let u := change_update now h text response in
  u !! "last_hash" = Some (VStr h)
  ∧ u !! "normalized_text" = Some (VStr text)
  ∧ u !! "last_changed_at" = Some (VStr now)
  ∧ u !! "last_checked_at" = Some (VStr now)
  ∧ u !! "error_count" = Some (VNum 0)
  ∧ u !! "last_notified_at" = None
  ∧ u !! "etag" = VStr <$> fr_etag response
  ∧ u !! "last_modified" = VStr <$> fr_last_modified response.
Proof.
  unfold change_update.
  destruct (fr_etag response), (fr_last_modified response);
    vm_compute; repeat split; reflexivity.
Qed.

(** The plan on the path of a detected change. *)
Lemma plan_of_changed (url_config : url_config)
    (ignore_patterns : list string) (cooldown_hours : Z) (w : world)
    (prev_state : option item) (response : fetch_result)
    (normalized_text new_hash : string) :
  let url := uc_url url_config in
  state_of E w url = prev_state →
  fetch_outcome E url (user_agent_of E) (conditional_headers_of prev_state)
  = Ok response →
  fr_status_code response ≠ 304%Z →
  normalize_and_hash E response (uc_selector url_config) ignore_patterns
  = Ok (normalized_text, new_hash) →
  prev_get prev_state "last_hash" ≠ VStr new_hash →
  plan_of E url_config ignore_patterns cooldown_hours w
  = let state_update :=
      change_update (now_of E w) new_hash normalized_text response in
    match notify_decision E url prev_state cooldown_hours
            (S (clock_reads w)) with
    | Raise e => PlanRaise e
    | Ok false => PlanUpdate state_update None
    | Ok true =>
        match diff_against (prev_get prev_state "normalized_text")
                normalized_text with
        | Raise e => PlanRaise e
        | Ok diff_snippet =>
            PlanUpdate
              (<[ "last_notified_at" := VStr (now_of E w) ]> state_update)
              (Some (ChangeRecord url (prev_get prev_state "last_hash")
                       new_hash diff_snippet
                       (bool_decide
                          (prev_get prev_state "last_hash" = VNone))))
        end
    end.
Proof.
  intros url Hstate Hfetch Hstatus Hnorm Hhash.
  unfold plan_of. fold url. rewrite Hstate, Hfetch.
  apply Z.eqb_neq in Hstatus. rewrite Hstatus, Hnorm.
  by rewrite bool_decide_eq_false_2, andb_false_r.
Qed.

(** The plan on the path of a failure of the fetch or of the
    normalization. *)
Lemma plan_of_error (url_config : url_config)
    (ignore_patterns : list string) (cooldown_hours : Z) (w : world)
    (e : exn) :
  let url := uc_url url_config in
  let prev_state := state_of E w url in
  fetch_outcome E url (user_agent_of E) (conditional_headers_of prev_state)
  = Raise e
  ∨ (∃ response,
       fetch_outcome E url (user_agent_of E)
         (conditional_headers_of prev_state) = Ok response
       ∧ fr_status_code response ≠ 304%Z
       ∧ normalize_and_hash E response (uc_selector url_config)
           ignore_patterns = Raise e) →
  plan_of E url_config ignore_patterns cooldown_hours w
  = error_plan E w prev_state e.
Proof.
  intros url prev_state [Hfetch|(response & Hfetch & Hstatus & Hnorm)];
    unfold plan_of; fold url prev_state; rewrite Hfetch; [done|].
  apply Z.eqb_neq in Hstatus. by rewrite Hstatus, Hnorm.
Qed.

(** Only the plan that returns a change record names
    [last_notified_at]. *)
Lemma plan_of_last_notified (url_config : url_config)
    (ignore_patterns : list string) (cooldown_hours : Z) (w : world)
    (updates : gmap string pyval) (result : option change_record) :
  plan_of E url_config ignore_patterns cooldown_hours w
  = PlanUpdate updates result →
  updates !! "last_notified_at" = None
  ∨ (updates !! "last_notified_at" = Some (VStr (now_of E w))
     ∧ ∃ c, result = Some c).
Proof.
  unfold plan_of, error_plan.
  set (prev := state_of E w _).
  destruct (fetch_outcome E _ _ _) as [response|e].
  2:{ destruct (next_error_count prev); intros [= <- <-] || intros [=].
      by left. }
  destruct (fr_status_code response =? 304)%Z;
    [intros [= <- <-]; by left|].
  destruct (normalize_and_hash E response _ _)
    as [[normalized_text new_hash]|e].
  2:{ destruct (next_error_count prev); intros [= <- <-] || intros [=].
      by left. }
  destruct (negb (no_state prev) && _); [intros [= <- <-]; by left|].
  destruct (notify_decision E _ prev _ _) as [[|]|e]; [| |done].
  - destruct (diff_against _ _) as [diff_snippet|e]; [|done].
    intros [= <- <-]. right. split; [by rewrite lookup_insert_eq|by eexists].
  - intros [= <- <-]. left.
    by destruct (change_update_lookup (now_of E w) new_hash normalized_text
                   response) as (_ & _ & _ & _ & _ & ? & _).
Qed.

Lemma state_of_world_with (st : item) :
  get_item_error E sample_url = None →
  state_of E (world_with st) sample_url = Some st.
Proof. unfold state_of. intros ->. apply lookup_singleton_eq. Qed.

End Paths.

(** C1. A change whose notification the cooldown suppresses is persisted
    all the same: [process_url] returns no change record and the item holds
    the new fingerprint, the new text, [last_changed_at] and
    [last_checked_at] at now and an error count of zero, with
    [last_notified_at] as it was.  And in any run, [last_notified_at] gets a
    new value only when a change record is returned, and the value is now.
    The state store is taken to answer the read and accept the update. *)
Theorem suppressed_change_is_persisted :
  (∀ (E : env) (url_config : url_config) (ignore_patterns : list string)
     (cooldown_hours : Z) (w : world) (st : item) (response : fetch_result)
     (normalized_text new_hash : string),
     let url := uc_url url_config in
     state_of E w url = Some st →
     fetch_outcome E url (user_agent_of E) (conditional_headers_of (Some st))
     = Ok response →
     fr_status_code response ≠ 304%Z →
     normalize_and_hash E response (uc_selector url_config) ignore_patterns
     = Ok (normalized_text, new_hash) →
     dict_get st "last_hash" ≠ VStr new_hash →
     notify_decision E url (Some st) cooldown_hours (S (clock_reads w))
     = Ok false →
     store_accepts E url →
     ∃ w', process_url E url_config ignore_patterns cooldown_hours w
           = (Ok None, w')
           ∧ stored w' url "last_hash" = Some (VStr new_hash)
           ∧ stored w' url "normalized_text" = Some (VStr normalized_text)
           ∧ stored w' url "last_changed_at" = Some (VStr (now_of E w))
           ∧ stored w' url "last_checked_at" = Some (VStr (now_of E w))
           ∧ stored w' url "error_count" = Some (VNum 0)
           ∧ stored w' url "last_notified_at" = stored w url "last_notified_at")
  ∧ (∀ (E : env) (url_config : url_config) (ignore_patterns : list string)
       (cooldown_hours : Z) (w w' : world) (r : res (option change_record)),
       let url := uc_url url_config in
       process_url E url_config ignore_patterns cooldown_hours w = (r, w') →
       stored w' url "last_notified_at" ≠ stored w url "last_notified_at" →
       (∃ change_record, r = Ok (Some change_record))
       ∧ stored w' url "last_notified_at" = Some (VStr (now_of E w))).
Proof.
  split.
  - intros E url_config ignore_patterns cooldown_hours w st response
      normalized_text new_hash url Hstate Hfetch Hstatus Hnorm Hhash Hnotify
      Hstore.
    assert (prev_get (Some st) "last_hash" ≠ VStr new_hash) as Hprev.
    { simpl. by case_bool_decide. }
    pose proof (plan_of_changed E url_config ignore_patterns cooldown_hours w
                  (Some st) response normalized_text new_hash
                  Hstate Hfetch Hstatus Hnorm Hprev) as Hplan.
    fold url in Hplan. rewrite Hnotify in Hplan. simpl in Hplan.
    destruct (process_url_update E _ _ _ _ _ _ Hplan Hstore) as (w' & Hrun & Ht).
    fold url in Ht.
    destruct (change_update_lookup (now_of E w) new_hash normalized_text
                response) as (H1 & H2 & H3 & H4 & H5 & H6 & _).
    exists w'. split; [done|].
    split_and!; try (by eapply stored_set).
    by eapply stored_kept.
  - intros E url_config ignore_patterns cooldown_hours w w' r url Hrun Hdiff.
    destruct (process_url_run E url_config ignore_patterns cooldown_hours w)
      as (w'' & Hrun' & Ht & _).
    fold url in Hrun', Ht. rewrite Hrun in Hrun'. injection Hrun' as -> <-.
    revert Hdiff Ht. unfold plan_of. fold url.
    set (prev := state_of E w url).
    assert (∀ p, (∀ updates result, p = PlanUpdate updates result →
                    updates !! "last_notified_at" = None
                    ∨ (updates !! "last_notified_at" = Some (VStr (now_of E w))
                       ∧ ∃ c, result = Some c)) →
                 stored w' url "last_notified_at"
                 ≠ stored w url "last_notified_at" →
                 table w' = (plan_result E url p w).2 →
                 (∃ c, (plan_result E url p w).1 = Ok (Some c))
                 ∧ stored w' url "last_notified_at"
                   = Some (VStr (now_of E w))) as Hcases.
    { intros [e|updates result] Hp Hdiff Ht; simpl in *.
      - exfalso. apply Hdiff. unfold stored. by rewrite Ht.
      - destruct (update_item_error _ _ _ _); simpl in *.
        + exfalso. apply Hdiff. unfold stored. by rewrite Ht.
        + destruct (Hp _ _ eq_refl) as [Hnone|[Hsome [c ->]]].
          * exfalso. apply Hdiff. by eapply stored_kept.
          * split; [by exists c|]. by eapply stored_set. }
    intros Hdiff Ht. eapply Hcases; [|done|exact Ht].
    apply plan_of_last_notified.
Qed.

(** The integration test of the cooldown: the target was notified at
    midnight, its content changes one hour later and the cooldown is six
    hours. *)
Lemma suppressed_change_is_persisted_witness :
  let E := sample_env [sample_url]
             (serve "<html>New content</html>" {[ "ETag" := "v2" ]})
             (fun _ => Ok "New content") accepting in
  let st := sample_state (VStr "2024-01-01T00:00:00+00:00") in
  let w := world_with st in
  let response :=
    FetchResult 200 (Some "<html>New content</html>") (Some "v2") None in
  (state_of E w sample_url = Some st
   ∧ fetch_outcome E sample_url (user_agent_of E)
       (conditional_headers_of (Some st)) = Ok response
   ∧ fr_status_code response ≠ 304%Z
   ∧ normalize_and_hash E response None []
     = Ok ("New content", "sha256:New content")
   ∧ dict_get st "last_hash" ≠ VStr "sha256:New content"
   ∧ notify_decision E sample_url (Some st) 6 (S (clock_reads w)) = Ok false
   ∧ store_accepts E sample_url)
  ∧ ∃ w', process_url E sample_config [] 6 w = (Ok None, w')
          ∧ stored w' sample_url "last_hash"
            = Some (VStr "sha256:New content")
          ∧ stored w' sample_url "normalized_text" = Some (VStr "New content")
          ∧ stored w' sample_url "last_changed_at"
            = Some (VStr "2024-01-01T01:00:00+00:00")
          ∧ stored w' sample_url "last_notified_at"
            = Some (VStr "2024-01-01T00:00:00+00:00").
Proof.
  intros E st w response.
  assert (state_of E w sample_url = Some st) as H1
    by (by apply state_of_world_with).
  assert (fetch_outcome E sample_url (user_agent_of E)
            (conditional_headers_of (Some st)) = Ok response) as H2
    by vm_refl.
  assert (fr_status_code response ≠ 304%Z) as H3 by vm_neq.
  assert (normalize_and_hash E response None []
          = Ok ("New content", "sha256:New content")) as H4 by vm_refl.
  assert (dict_get st "last_hash" ≠ VStr "sha256:New content") as H5
    by vm_neq.
  assert (notify_decision E sample_url (Some st) 6 (S (clock_reads w))
          = Ok false) as H6 by vm_refl.
  assert (store_accepts E sample_url) as H7 by (by intros ? ?).
  split; [done|].
  destruct (proj1 suppressed_change_is_persisted E sample_config [] 6%Z w st
              response _ _ H1 H2 H3 H4 H5 H6 H7)
    as (w' & Hrun & Hhash & Htext & Hchanged & _ & _ & Hnotified).
  exists w'. split_and!; [exact Hrun|exact Hhash|exact Htext|exact Hchanged|].
  exact Hnotified.
Defined.

(** The run of [process_url] on the path of a failure of the fetch or of
    the normalization, with a store that answers. *)
Lemma error_path_run (E : env) (url_config : url_config)
    (ignore_patterns : list string) (cooldown_hours : Z) (w : world) (e : exn) :
  let url := uc_url url_config in
  let prev_state := state_of E w url in
  pipeline_raises E url_config ignore_patterns prev_state e →
  numeric_error_count prev_state →
  plan_of E url_config ignore_patterns cooldown_hours w
  = PlanUpdate
      (<[ "error_count" := VNum (error_count_of prev_state + 1) ]>
         (<[ "last_error" := VStr (slice_to 500 (exn_msg e)) ]>
            {[ "last_checked_at" := VStr (now_of E w) ]}))
      None.
Proof.
  intros url prev_state Hfail Htyped.
  pose proof (plan_of_error E url_config ignore_patterns cooldown_hours w e
                Hfail) as Hplan.
  fold url prev_state in Hplan. rewrite Hplan. unfold error_plan.
  assert (next_error_count prev_state = Ok (error_count_of prev_state + 1)%Z)
    as ->; [|done].
  unfold next_error_count, no_state, error_count_of, numeric_error_count in *.
  destruct prev_state as [st|]; simpl in *; [|done].
  case_bool_decide as Hempty; [by rewrite Hempty|].
  destruct (st !! "error_count") as [v|]; [|done].
  by destruct (Htyped v eq_refl) as [n ->].
Qed.

(** C4 as stated fails when the read of the state fails.  The item of the
    sample target holds five errors; the store does not answer the read, so
    [get_state] returns [None]; the fetch times out, and [process_url]
    returns normally having written an error count of one over the five. *)
Lemma read_failure_restarts_error_count :
  let E := failing_reads "ProvisionedThroughputExceededException"
             (sample_env [sample_url]
                (fun _ => ReqRaises (Exn Timeout "Read timed out."))
                Ok accepting) in
  let st : item :=
    <[ "error_count" := VNum 5 ]> (sample_state (VStr "2024-01-01T00:00:00Z")) in
  let w := world_with st in
  let run := process_url E sample_config [] 6 w in
  stored w sample_url "error_count" = Some (VNum 5)
  ∧ fetch_outcome E sample_url (user_agent_of E) ∅
    = Raise (Exn Exception "Timeout: Read timed out.")
  ∧ fst run = Ok None
  ∧ stored (snd run) sample_url "error_count" = Some (VNum 1).
Proof. intros E st w run. split_and!; vm_refl. Qed.

(** C4, amended.  When the fetch or the normalization raises, the error
    count of the state that [get_state] returned is a number if there is
    one, and the store accepts the update, [process_url] returns no change
    record and the item gets that count plus one, one when [get_state]
    returned no state or no count, the first 500 characters of the message
    of the error and [last_checked_at]; every other attribute of the item,
    [last_hash] and [normalized_text] among them, stays as it was. *)
Theorem error_is_recorded (E : env) (url_config : url_config)
    (ignore_patterns : list string) (cooldown_hours : Z) (w : world) (e : exn) :
  let url := uc_url url_config in
  let prev_state := state_of E w url in
  pipeline_raises E url_config ignore_patterns prev_state e →
  numeric_error_count prev_state →
  store_accepts E url →
  ∃ w', process_url E url_config ignore_patterns cooldown_hours w
        = (Ok None, w')
        ∧ stored w' url "error_count"
          = Some (VNum (error_count_of prev_state + 1))
        ∧ stored w' url "last_error" = Some (VStr (slice_to 500 (exn_msg e)))
        ∧ String.length (slice_to 500 (exn_msg e)) ≤ 500
        ∧ stored w' url "last_checked_at" = Some (VStr (now_of E w))
        ∧ stored w' url "last_hash" = stored w url "last_hash"
        ∧ stored w' url "normalized_text" = stored w url "normalized_text"
        ∧ ∀ key, key ≠ "error_count" → key ≠ "last_error" →
                 key ≠ "last_checked_at" → key ≠ "url" →
                 stored w' url key = stored w url key.
Proof.
  intros url prev_state Hfail Htyped Hstore.
  pose proof (error_path_run E url_config ignore_patterns cooldown_hours w e
                Hfail Htyped) as Hplan.
  destruct (process_url_update E _ _ _ _ _ _ Hplan Hstore) as (w' & Hrun & Ht).
  fold url prev_state in Ht. exists w'. split; [done|].
  split_and!; try (eapply stored_set; [exact Ht|by simplify_map_eq]);
    try (eapply stored_kept; [exact Ht|by simplify_map_eq|done]).
  - rewrite length_slice_to. lia.
  - intros key H1 H2 H3 H4. eapply stored_kept; [exact Ht| |done].
    by simplify_map_eq.
Qed.

(** A server that answers 503 to a target whose third failure this is. *)
Lemma error_is_recorded_witness :
  let E := sample_env [sample_url]
             (fun url => ReqResponse
                           (HttpResponse 503 "Service Unavailable" url "" ∅))
             Ok accepting in
  let st : item :=
    <[ "error_count" := VNum 2 ]> (sample_state (VStr "2024-01-01T00:00:00Z")) in
  let w := world_with st in
  let e := Exn Exception
             "Request failed: 503 Server Error: Service Unavailable for url: https://example.com" in
  (pipeline_raises E sample_config [] (state_of E w sample_url) e
   ∧ numeric_error_count (state_of E w sample_url)
   ∧ store_accepts E sample_url)
  ∧ ∃ w', process_url E sample_config [] 0 w = (Ok None, w')
          ∧ stored w' sample_url "error_count" = Some (VNum 3)
          ∧ stored w' sample_url "last_error" = Some (VStr (exn_msg e))
          ∧ stored w' sample_url "last_hash"
            = Some (VStr "sha256:Old content").
Proof.
  intros E st w e.
  assert (state_of E w sample_url = Some st) as Hst
    by (by apply state_of_world_with).
  assert (pipeline_raises E sample_config [] (state_of E w sample_url) e) as H1.
  { left. rewrite Hst. vm_refl. }
  assert (numeric_error_count (state_of E w sample_url)) as H2.
  { rewrite Hst. intros v Hv. exists 2%Z. vm_compute in Hv. congruence. }
  assert (store_accepts E sample_url) as H3 by (by intros ? ?).
  split; [done|].
  destruct (error_is_recorded E sample_config [] 0%Z w e H1 H2 H3)
    as (w' & Hrun & Hcount & Herror & _ & _ & Hhash & _).
  exists w'. split_and!; [exact Hrun| |exact Herror|].
  - etrans; [exact Hcount|vm_refl].
  - etrans; [exact Hhash|vm_refl].
Defined.

(** A target without stored state is notified whatever the cooldown. *)
Lemma notify_decision_new (E : env) (url : string) (cooldown_hours : Z)
    (reads : nat) :
  notify_decision E url None cooldown_hours reads = Ok true.
Proof.
  unfold notify_decision, should_notify. by destruct (cooldown_hours <=? 0)%Z.
Qed.

(** C5 as stated fails on a page of twenty-one lines: the target is new,
    its fetch and its normalization succeed and the record says [is_new],
    but the last line of the snippet is the marker of the omitted line, not
    an addition. *)
Lemma new_target_snippet_has_marker :
  let E := sample_env [sample_url] (serve "<html>...</html>" ∅)
             (fun _ => Ok (join LF (numbered_lines "Line " 21))) accepting in
  table empty_world !! sample_url = None
  ∧ (∃ response text_and_hash,
       fetch_outcome E sample_url (user_agent_of E) ∅ = Ok response
       ∧ normalize_and_hash E response None [] = Ok text_and_hash)
  ∧ ∃ c w', process_url E sample_config [] 6 empty_world = (Ok (Some c), w')
            ∧ cr_is_new c = true
            ∧ last (splitlines (cr_diff_snippet c)) = Some "... (1 more lines)"
            ∧ is_addition "... (1 more lines)" = false.
Proof.
  intros E. split; [done|]. split.
  - exists (FetchResult 200 (Some "<html>...</html>") None None),
      (join LF (numbered_lines "Line " 21),
       "sha256:" +:+ join LF (numbered_lines "Line " 21)).
    split; vm_refl.
  - exists (ChangeRecord sample_url VNone
              ("sha256:" +:+ join LF (numbered_lines "Line " 21))
              (generate_diff_snippet "" (join LF (numbered_lines "Line " 21)))
              true),
      (snd (process_url E sample_config [] 6 empty_world)).
    split; [|split; [reflexivity|split; [vm_refl|reflexivity]]].
    apply pair_fst. vm_refl.
Qed.

(** C5, amended.  A target without stored state whose fetch and
    normalization succeed yields, for every cooldown, a change record with
    [is_new] true whose snippet consists of addition lines, followed by the
    marker of the omitted lines when the text has more than twenty lines.
    The state store is taken to accept the update. *)
Theorem new_target_is_notified (E : env) (url_config : url_config)
    (ignore_patterns : list string) (cooldown_hours : Z) (w : world)
    (response : fetch_result) (normalized_text new_hash : string) :
  let url := uc_url url_config in
  let total := length (splitlines normalized_text) in
  table w !! url = None →
  fetch_outcome E url (user_agent_of E) ∅ = Ok response →
  fr_status_code response ≠ 304%Z →
  normalize_and_hash E response (uc_selector url_config) ignore_patterns
  = Ok (normalized_text, new_hash) →
  store_accepts E url →
  ∃ w' c additions,
    process_url E url_config ignore_patterns cooldown_hours w = (Ok (Some c), w')
    ∧ c = ChangeRecord url VNone new_hash
            (generate_diff_snippet "" normalized_text) true
    ∧ splitlines (cr_diff_snippet c)
      = additions
          ++ (if MAX_DIFF_LINES <? total
              then [more_lines_marker (total - MAX_DIFF_LINES)] else [])
    ∧ Forall (fun line => is_addition line = true) additions
    ∧ length additions = min MAX_DIFF_LINES total.
Proof.
  intros url total Htable Hfetch Hstatus Hnorm Hstore.
  pose proof (state_of_None E w url Htable) as Hstate.
  pose proof (plan_of_changed E url_config ignore_patterns cooldown_hours w
                None response normalized_text new_hash
                Hstate Hfetch Hstatus Hnorm) as Hplan.
  fold url in Hplan. rewrite notify_decision_new in Hplan.
  simpl in Hplan. specialize (Hplan ltac:(done)).
  destruct (process_url_update E _ _ _ _ _ _ Hplan Hstore) as (w' & Hrun & _).
  eexists w', _, _. split; [exact Hrun|]. split; [done|].
  split; [apply snippet_lines_new|]. split.
  - apply Forall_map, Forall_forall. by intros l _.
  - by rewrite length_map, length_take.
Qed.

(** The integration test of a new target, under a cooldown of six hours. *)
Lemma new_target_is_notified_witness :
  let E := sample_env [sample_url]
             (serve "<html>Test content</html>" {[ "ETag" := "abc123" ]})
             (fun _ => Ok "Test content") accepting in
  let response :=
    FetchResult 200 (Some "<html>Test content</html>") (Some "abc123") None in
  (table empty_world !! sample_url = None
   ∧ fetch_outcome E sample_url (user_agent_of E) ∅ = Ok response
   ∧ fr_status_code response ≠ 304%Z
   ∧ normalize_and_hash E response None []
     = Ok ("Test content", "sha256:Test content")
   ∧ store_accepts E sample_url)
  ∧ ∃ w', process_url E sample_config [] 6 empty_world
          = (Ok (Some (ChangeRecord sample_url VNone "sha256:Test content"
                         "+ Test content" true)), w').
Proof.
  intros E response.
  assert (table empty_world !! sample_url = None) as H1 by done.
  assert (fetch_outcome E sample_url (user_agent_of E) ∅ = Ok response) as H2
    by vm_refl.
  assert (fr_status_code response ≠ 304%Z) as H3 by vm_neq.
  assert (normalize_and_hash E response None []
          = Ok ("Test content", "sha256:Test content")) as H4
    by vm_refl.
  assert (store_accepts E sample_url) as H5 by (by intros ? ?).
  split; [done|].
  destruct (new_target_is_notified E sample_config [] 6%Z empty_world response
              _ _ H1 H2 H3 H4 H5) as (w' & c & additions & Hrun & -> & _).
  exists w'. exact Hrun.
Defined.

(** ** Cache validators *)

Section Validators.




End Validators.



(** ** The run of the handler *)

Section Handler.
Variable E : env.

Lemma same_but_log_refl (w : world) : same_but_log w w.
Proof. done. Qed.

Lemma load_urls_run (w : world) :
  ∃ lg, load_urls E w
        = (Ok (configured E),
           World (table w) (clock_reads w) (lg ++ log w) (requests_sent w)
                 (digests w)).
Proof.
  unfold load_urls, configured.
  destruct (urls_json E); [by eexists [_]|]. exists []. by destruct w.
Qed.

Lemma load_ignore_patterns_run (w : world) :
  ∃ lg, load_ignore_patterns E w
        = (Ok (patterns_of E),
           World (table w) (clock_reads w) (lg ++ log w) (requests_sent w)
                 (digests w)).
Proof.
  unfold load_ignore_patterns, patterns_of.
  destruct (ignore_regex_json E); [by eexists [_]|]. exists []. by destruct w.
Qed.

(** The loop sends one request per target it gets to, and no digest. *)
Lemma process_all_frame (url_configs : list url_config)
    (ignore_patterns : list string) (cooldown_hours : Z)
    (changes : list change_record) (w : world) :
  let run := process_all E url_configs ignore_patterns cooldown_hours
               changes w in
  digests (snd run) = digests w
  ∧ (∀ result, fst run = Ok result →
       map fst (requests_sent (snd run))
       = rev (map uc_url url_configs) ++ map fst (requests_sent w)).
Proof.
  revert changes w. induction url_configs as [|c rest IH]; intros changes w.
  - simpl. split; [done|]. by intros.
  - cbn [process_all]. unfold bind.
    destruct (process_url_run E c ignore_patterns cooldown_hours w)
      as (w1 & -> & _ & Hreq & Hdig).
    destruct (fst (plan_result E _ _ w)) as [change|e]; [|done].
    destruct (IH (match change with
                  | Some c0 => changes ++ [c0]
                  | None => changes
                  end) w1) as [IHd IHr].
    split; [by rewrite IHd|].
    intros result Hres. rewrite (IHr result Hres), Hreq. simpl.
    by rewrite <- app_assoc.
Qed.

(** The list the loop returns is the list it started with followed by
    the records of the run. *)
Lemma process_all_emits (url_configs : list url_config)
    (ignore_patterns : list string) (cooldown_hours : Z)
    (acc result : list change_record) (w w' : world) :
  process_all E url_configs ignore_patterns cooldown_hours acc w
  = (Ok result, w')
  ↔ ∃ changes, result = acc ++ changes
               ∧ run_emits E ignore_patterns cooldown_hours url_configs w
                   changes w'.
Proof.
  revert acc w. induction url_configs as [|c rest IH]; intros acc w.
  - simpl. unfold ret. split.
    + intros [= <- <-]. exists []. split; [by rewrite app_nil_r|constructor].
    + intros (changes & -> & Hrun). inversion Hrun; subst.
      by rewrite app_nil_r.
  - cbn [process_all]. unfold bind at 1.
    destruct (process_url E c ignore_patterns cooldown_hours w)
      as [[[change|]|e] w1] eqn:Hc.
    + rewrite IH. split.
      * intros (changes & Hres & Hrun). exists (change :: changes).
        split; [by rewrite Hres, <- app_assoc|]. by eapply emits_some.
      * intros (changes & Hres & Hrun).
        inversion Hrun as [| ? ? ? ? ? ? Hc' Hrest | ? ? ? ? ? ? ? Hc' Hrest];
          subst; rewrite Hc in Hc'; simplify_eq.
        eexists. split; [|done]. by rewrite <- app_assoc.
    + rewrite IH. split.
      * intros (changes & Hres & Hrun). exists changes.
        split; [done|]. by eapply emits_none.
      * intros (changes & Hres & Hrun).
        inversion Hrun as [| ? ? ? ? ? ? Hc' Hrest | ? ? ? ? ? ? ? Hc' Hrest];
          subst; rewrite Hc in Hc'; simplify_eq.
        by eexists.
    + split; [done|].
      intros (changes & Hres & Hrun).
      inversion Hrun as [| ? ? ? ? ? ? Hc' Hrest | ? ? ? ? ? ? ? Hc' Hrest];
        subst; rewrite Hc in Hc'; simplify_eq.
Qed.

(** The run of the handler around its loop. *)
Lemma lambda_handler_run (w : world) :
  ∃ w1, same_but_log w w1
    ∧ match int_cooldown_hours E with
      | inl msg => lambda_handler E w = (Raise (Exn ValueError msg), w1)
      | inr _ =>
          match configured E with
          | [] =>
              ∃ w', lambda_handler E w = (Ok (Response 200 NoURLsToCheck), w')
                    ∧ same_but_log w w'
          | _ :: _ =>
              let run := process_all E (configured E) (patterns_of E)
                           (cooldown_hours_env E) [] w1 in
              ∃ w', lambda_handler E w
                    = (match fst run with
                       | Ok changes =>
                           Ok (Response 200
                                 (Completed (length (configured E))
                                    (length changes)))
                       | Raise e => Raise e
                       end, w')
                    ∧ table w' = table (snd run)
                    ∧ requests_sent w' = requests_sent (snd run)
                    ∧ digests w'
                      = match fst run with
                        | Ok (c :: changes) =>
                            (c :: changes, length (configured E))
                              :: digests (snd run)
                        | _ => digests (snd run)
                        end
          end
      end.
Proof.
  assert (∃ lg,
    lambda_handler E w
    = match int_cooldown_hours E with
      | inl msg =>
          (Raise (Exn ValueError msg),
           World (table w) (clock_reads w) (lg ++ log w)
             (requests_sent w) (digests w))
      | inr _ =>
          match configured E with
          | [] =>
              (Ok (Response 200 NoURLsToCheck),
               World (table w) (clock_reads w)
                 ((WARNING, "No URLs configured") :: lg ++ log w)
                 (requests_sent w) (digests w))
          | _ :: _ =>
              (changes <-
                 process_all E (configured E) (patterns_of E)
                   (cooldown_hours_env E) [] ;;
               match changes with
               | _ :: _ =>
                   logger INFO ("Detected " +:+ str_nat (length changes)
                                  +:+ " changed URLs") ;;
                   try_except
                     (send_digest_email E changes (length (configured E)) ;;
                      logger INFO "Digest email sent successfully")
                     [Exception]
                     (fun e => logger ERROR ("Failed to send digest email: "
                                               +:+ exn_msg e))
               | [] => logger INFO "No changes detected"
               end ;;
               ret (Response 200 (Completed (length (configured E))
                                    (length changes))))
                (World (table w) (clock_reads w)
                   ((INFO, "Checking " +:+ str_nat (length (configured E))
                             +:+ " URLs") :: lg ++ log w)
                   (requests_sent w) (digests w))
          end
      end) as [lg Heq].
  { unfold lambda_handler.
    unfold bind at 1. unfold logger at 1.
    unfold bind at 1.
    match goal with |- context [load_urls E ?w0] =>
      destruct (load_urls_run w0) as [lg1 Hl] end.
    rewrite Hl. clear Hl.
    unfold bind at 1.
    match goal with |- context [load_ignore_patterns E ?w0] =>
      destruct (load_ignore_patterns_run w0) as [lg2 Hl] end.
    rewrite Hl. clear Hl. cbn [table clock_reads log requests_sent digests].
    exists (lg2 ++ lg1 ++ [(INFO, "Starting Website Diff Checker Lambda")]).
    rewrite <- !app_assoc. simpl.
    unfold bind at 1. unfold lift, read_cooldown_hours, cooldown_hours_env.
    destruct (int_cooldown_hours E) as [msg|cooldown_hours]; [done|].
    destruct (configured E) as [|c cfgs] eqn:Hcfg; [done|].
    unfold bind at 1. unfold logger at 1. done. }
  rewrite Heq. clear Heq.
  destruct (int_cooldown_hours E) as [msg|cooldown_hours] eqn:Hcd.
  { eexists. split; [|reflexivity]. done. }
  exists (World (table w) (clock_reads w)
            ((INFO, "Checking " +:+ str_nat (length (configured E))
                      +:+ " URLs") :: lg ++ log w)
            (requests_sent w) (digests w)).
  split; [done|].
  destruct (configured E) as [|c cfgs] eqn:Hcfg.
  { eexists. split; [done|]. done. }
  cbv zeta. unfold bind at 1.
  destruct (process_all E (c :: cfgs) _ _ [] _) as [[changes|e] w2] eqn:Hall;
    cbn [fst snd].
  2:{ eexists. split; [done|]. done. }
  unfold bind at 1.
  destruct changes as [|change changes].
  - unfold logger, ret. eexists. split; [done|]. done.
  - unfold bind at 1. unfold logger at 1.
    unfold try_except, bind, send_digest_email, logger, ret.
    cbn [table clock_reads log requests_sent digests].
    destruct (send_digest_error E _ _) as [e|];
      cbn [existsb issubclass exn_cls orb];
      eexists; (split; [done|]); done.
Qed.

End Handler.

(** C9. A run hands at most one digest to the notifier, and only a list of
    change records that is not empty: the records the targets returned, in
    the order of the targets, with the number of configured targets.  A run
    that completes with [m] changes detected has sent no digest when [m] is
    zero and exactly one, carrying all [m] records, otherwise. *)
Theorem digest_sent_at_most_once (E : env) (w : world) :
  let run := lambda_handler E w in
  let url_configs := configured E in
  (digests (snd run) = digests w
   ∨ ∃ changes w1 w2,
       changes ≠ []
       ∧ same_but_log w w1
       ∧ run_emits E (patterns_of E) (cooldown_hours_env E) url_configs
           w1 changes w2
       ∧ digests (snd run) = (changes, length url_configs) :: digests w)
  ∧ (∀ n m,
       fst run = Ok (Response 200 (Completed n m)) →
       n = length url_configs
       ∧ ∃ changes w1 w2,
           same_but_log w w1
           ∧ run_emits E (patterns_of E) (cooldown_hours_env E) url_configs
               w1 changes w2
           ∧ length changes = m
           ∧ digests (snd run)
             = match changes with
               | [] => digests w
               | _ :: _ => (changes, n) :: digests w
               end).
Proof.
  intros run url_configs. subst run url_configs.
  destruct (lambda_handler_run E w) as (w1 & Hsame & Hrun).
  destruct (int_cooldown_hours E) as [msg|cooldown_hours] eqn:Hcd.
  { rewrite Hrun. simpl. split; [left; apply Hsame|]. by intros n m. }
  destruct (configured E) as [|c cfgs] eqn:Hcfg.
  { destruct Hrun as (w' & -> & Hw'). simpl.
    split; [left; apply Hw'|]. by intros n m. }
  cbv zeta in Hrun. destruct Hrun as (w' & -> & _ & _ & Hdig).
  cbn [fst snd].
  pose proof (process_all_frame E (c :: cfgs) (patterns_of E)
                (cooldown_hours_env E) [] w1) as [Hframe _].
  cbv zeta in Hframe.
  destruct (process_all E (c :: cfgs) (patterns_of E) (cooldown_hours_env E)
              [] w1) as [[changes|e] w2] eqn:Hall; cbn [fst snd] in *.
  2:{ split; [left|done]. rewrite Hdig, Hframe. apply Hsame. }
  apply process_all_emits in Hall as (changes' & -> & Hemits).
  rewrite app_nil_l in *.
  assert (digests w2 = digests w) as Hw2
    by (rewrite Hframe; apply Hsame).
  split.
  - destruct changes' as [|change changes]; [left; congruence|].
    right. exists (change :: changes), w1, w2.
    split_and!; [done|done|done|congruence].
  - intros n m [= <- <-]. split; [done|].
    exists changes', w1, w2. split_and!; [done|done|done|].
    rewrite Hdig, Hw2. by destruct changes'.
Qed.

(** The integration test of the digest: two new targets in one run. *)
Lemma digest_sent_at_most_once_witness :
  let E := sample_env [sample_url; "https://example.org"]
             (serve "<html>Content</html>" ∅) (fun _ => Ok "Content")
             accepting in
  let run := lambda_handler E empty_world in
  fst run = Ok (Response 200 (Completed 2 2))
  ∧ ∃ changes, length changes = 2 ∧ digests (snd run) = [(changes, 2)].
Proof.
  intros E run.
  assert (fst run = Ok (Response 200 (Completed 2 2))) as Hrun by vm_refl.
  split; [exact Hrun|].
  destruct (proj2 (digest_sent_at_most_once E empty_world) 2 2 Hrun)
    as (_ & changes & w1 & w2 & _ & _ & Hlen & Hdig).
  exists changes. split; [exact Hlen|].
  destruct changes as [|c changes]; [discriminate Hlen|exact Hdig].
Defined.

(** The digest of that run, in full. *)
Example test_multiple_urls_digest :
  let E := sample_env [sample_url; "https://example.org"]
             (serve "<html>Content</html>" ∅) (fun _ => Ok "Content")
             accepting in
  let record url :=
    ChangeRecord url VNone "sha256:Content" "+ Content" true in
  digests (snd (lambda_handler E empty_world))
  = [([record sample_url; record "https://example.org"], 2)].
Proof. vm_refl. Qed.

(** ** Failures and the run *)

Section Isolation.
Variable E : env.

Lemma process_all_cons_none (rest : list url_config) (url_config : url_config)
    (ignore_patterns : list string) (cooldown_hours : Z)
    (changes : list change_record) (w w' : world) :
  process_url E url_config ignore_patterns cooldown_hours w = (Ok None, w') →
  process_all E (url_config :: rest) ignore_patterns cooldown_hours changes w
  = process_all E rest ignore_patterns cooldown_hours changes w'.
Proof. intros Hrun. cbn [process_all]. unfold bind. by rewrite Hrun. Qed.

Lemma process_all_cons_raise (rest : list url_config) (url_config : url_config)
    (ignore_patterns : list string) (cooldown_hours : Z)
    (changes : list change_record) (w w' : world) (e : exn) :
  process_url E url_config ignore_patterns cooldown_hours w = (Raise e, w') →
  process_all E (url_config :: rest) ignore_patterns cooldown_hours changes w
  = (Raise e, w').
Proof. intros Hrun. cbn [process_all]. unfold bind. by rewrite Hrun. Qed.

(** With a store that rejects the updates of a target, no run of
    [process_url] on it returns, and none writes. *)
Lemma process_url_rejected (url_config : url_config)
    (ignore_patterns : list string) (cooldown_hours : Z) (w w' : world)
    (msg : string) (r : res (option change_record)) :
  store_rejects E (uc_url url_config) msg →
  process_url E url_config ignore_patterns cooldown_hours w = (r, w') →
  (∃ e, r = Raise e) ∧ table w' = table w
  ∧ ∀ updates result,
      plan_of E url_config ignore_patterns cooldown_hours w
      = PlanUpdate updates result →
      r = Raise (Exn ClientError msg).
Proof.
  intros Hstore Hrun.
  destruct (process_url_run E url_config ignore_patterns cooldown_hours w)
    as (w1 & Hrun1 & Ht & _).
  rewrite Hrun in Hrun1. injection Hrun1 as -> <-. rewrite Ht. clear Hrun Ht.
  destruct (plan_of E url_config ignore_patterns cooldown_hours w)
    as [e|updates result]; simpl.
  - split; [by eexists|]. split; [reflexivity|]. by intros.
  - rewrite Hstore. simpl. split; [by eexists|]. split; [reflexivity|].
    by intros.
Qed.

(** A run of the handler that returns. *)
Lemma lambda_handler_returns (w w' : world) (resp : response) :
  lambda_handler E w = (Ok resp, w') →
  (resp = Response 200 NoURLsToCheck ∧ configured E = []
   ∨ ∃ m, resp = Response 200 (Completed (length (configured E)) m))
  ∧ map fst (requests_sent w')
    = rev (map uc_url (configured E)) ++ map fst (requests_sent w).
Proof.
  intros Hrun.
  destruct (lambda_handler_run E w) as (w1 & Hw1 & Hrun1).
  destruct Hw1 as (_ & _ & Hsent1 & _).
  destruct (int_cooldown_hours E) as [msg|cooldown_hours] eqn:Hcd.
  { rewrite Hrun in Hrun1. discriminate Hrun1. }
  destruct (configured E) as [|url_config rest] eqn:Hconf.
  - destruct Hrun1 as (w0 & Hrun0 & _ & _ & Hsent & _).
    rewrite Hrun in Hrun0. injection Hrun0 as -> ->.
    split; [by left|]. by rewrite Hsent.
  - cbv zeta in Hrun1.
    pose proof (process_all_frame E (url_config :: rest) (patterns_of E)
                  (cooldown_hours_env E) [] w1) as [_ Hreq].
    cbv zeta in Hreq.
    remember (process_all E (url_config :: rest) (patterns_of E)
                (cooldown_hours_env E) [] w1) as run eqn:Hrundef.
    destruct Hrun1 as (w0 & Hrun0 & _ & Hsent & _).
    rewrite Hrun in Hrun0. injection Hrun0 as Hres ->.
    rewrite Hsent.
    destruct (fst run) as [changes|e] eqn:Hfst; [|done].
    injection Hres as ->. split; [right; by eexists|].
    rewrite (Hreq changes eq_refl). by rewrite Hsent1.
Qed.

(** A run of the handler whose loop raises. *)
Lemma lambda_handler_raises (w : world) :
  ∃ w1, same_but_log w w1
    ∧ ∀ cooldown_hours e w2,
        int_cooldown_hours E = inr cooldown_hours →
        configured E ≠ [] →
        process_all E (configured E) (patterns_of E) cooldown_hours [] w1
        = (Raise e, w2) →
        ∃ w', lambda_handler E w = (Raise e, w')
              ∧ table w' = table w2
              ∧ requests_sent w' = requests_sent w2
              ∧ digests w' = digests w.
Proof.
  destruct (lambda_handler_run E w) as (w1 & Hw1 & Hrun1).
  exists w1. split; [exact Hw1|].
  intros cooldown_hours e w2 Hcd Hconf Hall.
  unfold cooldown_hours_env in Hrun1. rewrite Hcd in Hrun1.
  destruct (configured E) as [|url_config rest] eqn:Hcfg; [done|].
  cbv zeta in Hrun1.
  pose proof (process_all_frame E (url_config :: rest) (patterns_of E)
                cooldown_hours [] w1) as [Hdig _].
  cbv zeta in Hdig. rewrite Hall in Hrun1, Hdig. cbn [fst snd] in *.
  destruct Hrun1 as (w' & Hrun & Ht & Hsent & Hd).
  exists w'. split_and!; try done.
  rewrite Hd, Hdig. apply Hw1.
Qed.

End Isolation.

(** C2 as stated fails when the state store rejects an update.  The fetch
    of the first of two targets times out; [update_state], called to record
    the error, logs the [ClientError] and raises it again; nothing catches it,
    so [process_url] and the handler raise and the second target is never
    requested. *)
Lemma store_failure_propagates :
  let E := sample_env [sample_url; "https://example.org"]
             (fun _ => ReqRaises (Exn Timeout "Read timed out."))
             Ok
             (fun _ => Some "ProvisionedThroughputExceededException") in
  let e := Exn ClientError "ProvisionedThroughputExceededException" in
  fetch_outcome E sample_url (user_agent_of E) ∅
  = Raise (Exn Exception "Timeout: Read timed out.")
  ∧ fst (process_url E sample_config [] 6 empty_world) = Raise e
  ∧ fst (lambda_handler E empty_world) = Raise e
  ∧ map fst (requests_sent (snd (lambda_handler E empty_world)))
    = [sample_url].
Proof. intros E e. split_and!; vm_refl. Qed.

(** A stored error count that is no number is not handled either: the
    item of the sample target holds a null count, the fetch times out, and
    adding one to the count raises a [TypeError] inside the handler of the
    failure, which leaves [process_url] with nothing written. *)
Lemma null_error_count_propagates :
  let E := sample_env [sample_url]
             (fun _ => ReqRaises (Exn Timeout "Read timed out."))
             Ok accepting in
  let st : item :=
    <[ "error_count" := VNone ]> (sample_state (VStr "2024-01-01T00:00:00Z")) in
  let w := world_with st in
  let run := process_url E sample_config [] 6 w in
  fst run
  = Raise (Exn TypeError
             "unsupported operand type(s) for +: 'NoneType' and 'int'")
  ∧ table (snd run) = table w.
Proof. intros E st w run. split; vm_refl. Qed.

(** C2, amended.  (1) A failure of the fetch or of the normalization of a
    target is caught when the error count of the state read, if there is
    one, is a number and the store accepts the update of the item:
    [process_url] returns [None], the failure is recorded in the item of that
    target, no other item is written, and the loop goes on with the
    remaining targets.  (2) A run of the handler that returns has requested
    every configured target once, in order, and its response counts all of
    them.  (3) A failure of the update of the state is not caught: when the
    store rejects the updates of a target, [process_url] never returns for
    it; it raises, with the [ClientError] of the store when it got as far as
    [update_state], as it does after a failed fetch or normalization;
    nothing is written and the loop raises at that target, the remaining
    ones unprocessed.  (4) What the loop raises the handler raises, and no
    digest is sent. *)
Theorem fetch_errors_are_isolated :
  (∀ (E : env) (url_config : url_config) (ignore_patterns : list string)
     (cooldown_hours : Z) (w : world) (e : exn),
     let url := uc_url url_config in
     let prev_state := state_of E w url in
     pipeline_raises E url_config ignore_patterns prev_state e →
     numeric_error_count prev_state →
     store_accepts E url →
     ∃ w',
       process_url E url_config ignore_patterns cooldown_hours w = (Ok None, w')
       ∧ stored w' url "error_count"
         = Some (VNum (error_count_of prev_state + 1))
       ∧ stored w' url "last_error" = Some (VStr (slice_to 500 (exn_msg e)))
       ∧ (∀ other, other ≠ url → table w' !! other = table w !! other)
       ∧ ∀ rest changes,
           process_all E (url_config :: rest) ignore_patterns cooldown_hours
             changes w
           = process_all E rest ignore_patterns cooldown_hours changes w')
  ∧ (∀ (E : env) (w w' : world) (resp : response),
       lambda_handler E w = (Ok resp, w') →
       (resp = Response 200 NoURLsToCheck ∧ configured E = []
        ∨ ∃ m, resp = Response 200 (Completed (length (configured E)) m))
       ∧ map fst (requests_sent w')
         = rev (map uc_url (configured E)) ++ map fst (requests_sent w))
  ∧ (∀ (E : env) (url_config : url_config) (ignore_patterns : list string)
       (cooldown_hours : Z) (w w' : world) (msg : string)
       (r : res (option change_record)),
       let url := uc_url url_config in
       let prev_state := state_of E w url in
       store_rejects E url msg →
       process_url E url_config ignore_patterns cooldown_hours w = (r, w') →
       (∃ e, r = Raise e
             ∧ ∀ rest changes,
                 process_all E (url_config :: rest) ignore_patterns
                   cooldown_hours changes w
                 = (Raise e, w'))
       ∧ table w' = table w
       ∧ (∀ e, pipeline_raises E url_config ignore_patterns prev_state e →
               numeric_error_count prev_state →
               r = Raise (Exn ClientError msg)))
  ∧ (∀ (E : env) (w : world),
       ∃ w1, same_but_log w w1
         ∧ ∀ cooldown_hours e w2,
             int_cooldown_hours E = inr cooldown_hours →
             configured E ≠ [] →
             process_all E (configured E) (patterns_of E) cooldown_hours []
               w1
             = (Raise e, w2) →
             ∃ w', lambda_handler E w = (Raise e, w')
                   ∧ table w' = table w2
                   ∧ requests_sent w' = requests_sent w2
                   ∧ digests w' = digests w).
Proof.
  split_and!.
  - intros E url_config ignore_patterns cooldown_hours w e url prev_state
      Hfail Htyped Hstore.
    pose proof (error_path_run E url_config ignore_patterns cooldown_hours w e
                  Hfail Htyped) as Hplan.
    destruct (process_url_update E _ _ _ _ _ _ Hplan Hstore)
      as (w' & Hrun & Ht).
    fold url prev_state in Ht. exists w'. split; [done|].
    split_and!.
    + eapply stored_set; [exact Ht|]. by simplify_map_eq.
    + eapply stored_set; [exact Ht|]. by simplify_map_eq.
    + intros other Hne. rewrite Ht. by rewrite lookup_insert_ne.
    + intros rest changes. by apply process_all_cons_none.
  - intros E w w' resp. apply lambda_handler_returns.
  - intros E url_config ignore_patterns cooldown_hours w w' msg r url
      prev_state Hstore Hrun.
    destruct (process_url_rejected E url_config ignore_patterns
                cooldown_hours w w' msg r Hstore Hrun)
      as ([e ->] & Ht & Hplan).
    split_and!; [|exact Ht|].
    + exists e. split; [done|]. intros rest changes.
      by apply process_all_cons_raise.
    + intros e' Hfail Htyped.
      exact (Hplan _ _ (error_path_run E url_config ignore_patterns
                          cooldown_hours w e' Hfail Htyped)).
  - intros E w. apply lambda_handler_raises.
Qed.

(** Two targets, the first of which times out, with a store that accepts:
    the failure is recorded, the second target is processed, and the run
    counts both. *)
Lemma fetch_errors_are_isolated_witness :
  let E := sample_env [sample_url; "https://example.org"]
             (fun url => if String.eqb url sample_url
                         then ReqRaises (Exn Timeout "Read timed out.")
                         else serve "<html>Content</html>" ∅ url)
             (fun _ => Ok "Content") accepting in
  let e := Exn Exception "Timeout: Read timed out." in
  (pipeline_raises E sample_config [] (state_of E empty_world sample_url) e
   ∧ numeric_error_count (state_of E empty_world sample_url)
   ∧ store_accepts E sample_url)
  ∧ (∃ w', process_url E sample_config [] 6 empty_world = (Ok None, w')
           ∧ stored w' sample_url "error_count" = Some (VNum 1)
           ∧ stored w' sample_url "last_error"
             = Some (VStr "Timeout: Read timed out."))
  ∧ ∃ w', lambda_handler E empty_world
          = (Ok (Response 200 (Completed 2 1)), w')
          ∧ map fst (requests_sent w') = ["https://example.org"; sample_url].
Proof.
  intros E e.
  assert (pipeline_raises E sample_config []
            (state_of E empty_world sample_url) e) as H1 by (left; vm_refl).
  assert (numeric_error_count (state_of E empty_world sample_url)) as H2
    by (intros v Hv; discriminate Hv).
  assert (store_accepts E sample_url) as H3 by (by intros ? ?).
  split; [done|]. split.
  - destruct (proj1 fetch_errors_are_isolated E sample_config [] 6%Z
                empty_world e H1 H2 H3) as (w' & Hrun & Hcount & Herror & _).
    exists w'. split; [exact Hrun|]. split; [exact Hcount|exact Herror].
  - assert (fst (lambda_handler E empty_world)
            = Ok (Response 200 (Completed 2 1))) as Hfst by vm_refl.
    apply pair_fst in Hfst.
    exists (snd (lambda_handler E empty_world)). split; [exact Hfst|].
    exact (proj2 (proj1 (proj2 fetch_errors_are_isolated) E empty_world _ _
                    Hfst)).
Defined.

(* ===================================================================== *)
(** * Further properties of the code                                      *)
(* ===================================================================== *)

(** ** Escaping, stripping and splitting *)

Section EscapeFacts.

Lemma replace_char_app (old : ascii) (new s t : string) :
  replace_char old new (s +:+ t)
  = replace_char old new s +:+ replace_char old new t.
Proof.
  induction s as [|c s IH]; [done|].
  change (String c s +:+ t) with (String c (s +:+ t)).
  cbn [replace_char]. destruct (Ascii.eqb c old).
  - by rewrite IH, app_assoc_str.
  - rewrite IH. done.
Qed.

Lemma escape_html_app (s t : string) :
  Ses.escape_html (s +:+ t) = Ses.escape_html s +:+ Ses.escape_html t.
Proof. unfold Ses.escape_html. by rewrite !replace_char_app. Qed.

Lemma escape_html_single (c : ascii) :
  Ses.escape_html (String c "") = escape_char c.
Proof.
  destruct c as [[] [] [] [] [] [] [] []]; vm_compute; reflexivity.
Qed.

Lemma escape_html_cons (c : ascii) (s : string) :
  Ses.escape_html (String c s) = escape_char c +:+ Ses.escape_html s.
Proof.
  change (String c s) with (String c "" +:+ s).
  by rewrite escape_html_app, escape_html_single.
Qed.

End EscapeFacts.

Section EscapeProps.

Lemma occurs_app (c : ascii) (s t : string) :
  occurs c (s +:+ t) = occurs c s || occurs c t.
Proof.
  induction s as [|d s IH]; [done|].
  change (String d s +:+ t) with (String d (s +:+ t)). simpl.
  by rewrite IH, orb_assoc.
Qed.

Lemma escape_char_no_markup (c : ascii) :
  occurs "<" (escape_char c) = false ∧ occurs ">" (escape_char c) = false
  ∧ occurs "034" (escape_char c) = false ∧ occurs "'" (escape_char c) = false.
Proof.
  destruct c as [[] [] [] [] [] [] [] []]; vm_compute; done.
Qed.

Lemma escape_char_prefix (c d : ascii) (X Y : string) :
  escape_char c +:+ X = escape_char d +:+ Y → c = d ∧ X = Y.
Proof.
  unfold escape_char.
  destruct (Ascii.eqb_spec c "&"), (Ascii.eqb_spec c "<"),
    (Ascii.eqb_spec c ">"), (Ascii.eqb_spec c "034"), (Ascii.eqb_spec c "'");
    destruct (Ascii.eqb_spec d "&"), (Ascii.eqb_spec d "<"),
      (Ascii.eqb_spec d ">"), (Ascii.eqb_spec d "034"), (Ascii.eqb_spec d "'");
    subst; cbn; intros H; try discriminate H; try done;
    injection H as ?; subst; try done.
Qed.

(** X1. The five chained replacements of [escape_html] amount to one pass
    that replaces every character by its entity: the ampersands of the
    entities written for [<], [>], the double and the single quote are
    not escaped a second time. *)
Theorem escape_html_one_pass (text : string) :
  Ses.escape_html text = escape_each text.
Proof.
  induction text as [|c s IH]; [done|].
  rewrite escape_html_cons, IH. done.
Qed.

(** X2. The escaped text holds none of the characters [<], [>], the double
    quote and the single quote. *)
Theorem escape_html_no_markup (text : string) :
  occurs "<" (Ses.escape_html text) = false
  ∧ occurs ">" (Ses.escape_html text) = false
  ∧ occurs "034" (Ses.escape_html text) = false
  ∧ occurs "'" (Ses.escape_html text) = false.
Proof.
  induction text as [|c s (IH1 & IH2 & IH3 & IH4)]; [done|].
  rewrite escape_html_cons, !occurs_app, IH1, IH2, IH3, IH4.
  destruct (escape_char_no_markup c) as (-> & -> & -> & ->). done.
Qed.

(** X3. [escape_html] loses nothing: two different texts have different
    escaped forms. *)
Theorem escape_html_injective (s t : string) :
  s ≠ t → Ses.escape_html s ≠ Ses.escape_html t.
Proof.
  intros Hne Heq. apply Hne. clear Hne.
  revert t Heq. induction s as [|c s IH]; intros [|d t] Heq.
  - done.
  - rewrite escape_html_cons in Heq.
    unfold escape_char in Heq.
    repeat (destruct (Ascii.eqb d _); [discriminate Heq|]). discriminate Heq.
  - rewrite escape_html_cons in Heq.
    unfold escape_char in Heq.
    repeat (destruct (Ascii.eqb c _); [discriminate Heq|]). discriminate Heq.
  - rewrite !escape_html_cons in Heq.
    apply escape_char_prefix in Heq as [-> Heq]. f_equal. by apply IH.
Qed.

(** A text that is the escaped form of another one. *)
Lemma escape_html_injective_witness :
  "<" ≠ "&lt;" ∧ Ses.escape_html "<" ≠ Ses.escape_html "&lt;".
Proof.
  assert ("<" ≠ "&lt;") as H by discriminate.
  exact (conj H (escape_html_injective "<" "&lt;" H)).
Defined.

End EscapeProps.

Section StripFacts.

Lemma lstrip_no_space (s : string) : starts_with_space (lstrip s) = false.
Proof.
  induction s as [|c s IH]; [done|]. simpl.
  destruct (is_space c) eqn:Hc; [done|]. simpl. done.
Qed.

Lemma lstrip_id (s : string) : starts_with_space s = false → lstrip s = s.
Proof. destruct s as [|c s]; [done|]. simpl. by intros ->. Qed.

Lemma rstrip_no_space (s : string) : ends_with_space (rstrip s) = false.
Proof.
  induction s as [|c s IH]; [done|]. simpl.
  destruct (rstrip s) as [|d r] eqn:Hr.
  - destruct (is_space c) eqn:Hc; [done|]. simpl. done.
  - exact IH.
Qed.

Lemma rstrip_id (s : string) : ends_with_space s = false → rstrip s = s.
Proof.
  induction s as [|c s IH]; [done|]. simpl.
  destruct s as [|d s].
  - simpl. by intros ->.
  - intros H. rewrite (IH H). done.
Qed.

Lemma rstrip_starts (s : string) :
  starts_with_space s = false → starts_with_space (rstrip s) = false.
Proof.
  destruct s as [|c s]; [done|]. simpl. intros Hc.
  destruct (rstrip s); [by rewrite Hc|done].
Qed.

Lemma strip_no_space (s : string) :
  starts_with_space (strip s) = false ∧ ends_with_space (strip s) = false.
Proof.
  unfold strip. split; [|apply rstrip_no_space].
  apply rstrip_starts, lstrip_no_space.
Qed.

Lemma strip_id (s : string) :
  starts_with_space s = false → ends_with_space s = false → strip s = s.
Proof. intros H1 H2. unfold strip. by rewrite (lstrip_id s H1), rstrip_id. Qed.

Lemma occurs_lstrip (c : ascii) (s : string) :
  occurs c (lstrip s) = true → occurs c s = true.
Proof.
  induction s as [|d s IH]; [done|]. simpl.
  destruct (is_space d); [|done].
  intros H. rewrite (IH H). apply orb_true_r.
Qed.

Lemma occurs_rstrip (c : ascii) (s : string) :
  occurs c (rstrip s) = true → occurs c s = true.
Proof.
  induction s as [|d s IH]; [done|]. simpl.
  destruct (rstrip s) as [|e r] eqn:Hr.
  - destruct (is_space d); [done|]. simpl. rewrite orb_false_r.
    intros ->. done.
  - intros [H|H]%orb_prop; [by rewrite H|].
    rewrite (IH H). apply orb_true_r.
Qed.

Lemma occurs_strip (c : ascii) (s : string) :
  occurs c s = false → occurs c (strip s) = false.
Proof.
  intros Hs. destruct (occurs c (strip s)) eqn:H; [|done].
  apply occurs_rstrip, occurs_lstrip in H. congruence.
Qed.

Lemma one_line_lstrip (s : string) : one_line s = true → one_line (lstrip s) = true.
Proof.
  induction s as [|c s IH]; [done|]. intros H. simpl.
  destruct (is_space c); [|done].
  simpl in H. apply andb_prop in H as [_ H]. by apply IH.
Qed.

Lemma one_line_rstrip (s : string) : one_line s = true → one_line (rstrip s) = true.
Proof.
  induction s as [|c s IH]; [done|]. simpl.
  intros [Hc Hs]%andb_prop. specialize (IH Hs).
  destruct (rstrip s) as [|e r].
  - destruct (is_space c); [done|]. simpl. by rewrite Hc.
  - simpl in *. by rewrite Hc, IH.
Qed.

Lemma one_line_strip (s : string) : one_line s = true → one_line (strip s) = true.
Proof. intros H. by apply one_line_rstrip, one_line_lstrip. Qed.

Lemma split_char_pieces (sep : ascii) (s : string) :
  Forall (fun piece => occurs sep piece = false) (split_char sep s).
Proof.
  induction s as [|c s IH]; [by constructor|]. simpl.
  destruct (Ascii.eqb_spec c sep) as [->|Hne].
  - by constructor.
  - assert (Ascii.eqb sep c = false) as Hsep
      by (destruct (Ascii.eqb_spec sep c); congruence).
    destruct (split_char sep s) as [|p ps].
    + repeat constructor. simpl. by rewrite Hsep.
    + inversion IH; subst. constructor; [|done]. simpl. by rewrite Hsep.
Qed.

Lemma split_char_piece (sep : ascii) (s : string) :
  occurs sep s = false → split_char sep s = [s].
Proof.
  induction s as [|c s IH]; [done|]. simpl.
  destruct (Ascii.eqb_spec sep c) as [->|Hne]; [done|]. simpl. intros Hs.
  destruct (Ascii.eqb_spec c sep) as [->|_]; [done|].
  by rewrite (IH Hs).
Qed.

Lemma split_char_app (sep : ascii) (s t : string) :
  occurs sep s = false →
  split_char sep (s +:+ String sep t) = s :: split_char sep t.
Proof.
  induction s as [|c s IH].
  - intros _. change ("" +:+ String sep t) with (String sep t).
    cbn [split_char]. by rewrite Ascii.eqb_refl.
  - simpl. destruct (Ascii.eqb_spec sep c) as [->|Hne]; [done|]. simpl.
    intros Hs.
    change (String c s +:+ String sep t) with (String c (s +:+ String sep t)).
    cbn [split_char].
    destruct (Ascii.eqb_spec c sep) as [->|_]; [done|].
    by rewrite (IH Hs).
Qed.

End StripFacts.

Section Addresses.

(** X4. Every recipient read from [SES_TO] is a non-empty string without
    whitespace around it and without comma: blank pieces between commas are
    dropped and the others are stripped. *)
Theorem to_addresses_clean (to_addresses_str : string) :
  Forall clean_address (Ses.to_addresses_of to_addresses_str).
Proof.
  unfold Ses.to_addresses_of. apply List.Forall_forall.
  intros a (p & <- & Hp)%in_map_iff.
  apply filter_In in Hp as [Hp Hne].
  pose proof (split_char_pieces "," to_addresses_str) as Hall.
  rewrite List.Forall_forall in Hall. specialize (Hall p Hp).
  destruct (strip_no_space p) as [H1 H2].
  split_and!; [|done|done|by apply occurs_strip].
  intros Heq. rewrite Heq in Hne. done.
Qed.

(** X5. Clean addresses written to [SES_TO] separated by commas are read
    back as they are, in order. *)
Theorem to_addresses_join (addrs : list string) :
  Forall clean_address addrs →
  Ses.to_addresses_of (join "," addrs) = addrs.
Proof.
  unfold Ses.to_addresses_of.
  induction addrs as [|a [|b addrs] IH]; intros Hall.
  - done.
  - inversion Hall as [|? ? (Hne & H1 & H2 & H3) _]; subst.
    unfold join. simpl. rewrite (split_char_piece _ _ H3). simpl.
    rewrite (strip_id a H1 H2).
    destruct (String.eqb_spec a ""); [done|]. simpl.
    by rewrite (strip_id a H1 H2).
  - inversion Hall as [|? ? (Hne & H1 & H2 & H3) Hrest]; subst.
    specialize (IH Hrest).
    unfold join in *.
    change (String.concat "," (a :: b :: addrs))
      with (a +:+ String "," (String.concat "," (b :: addrs))).
    rewrite (split_char_app _ _ _ H3). simpl.
    rewrite (strip_id a H1 H2).
    destruct (String.eqb_spec a ""); [done|]. simpl.
    rewrite (strip_id a H1 H2). f_equal. exact IH.
Qed.

Lemma to_addresses_join_witness :
  Forall clean_address ["ops@example.com"; "dev@example.com"]
  ∧ Ses.to_addresses_of "ops@example.com,dev@example.com"
    = ["ops@example.com"; "dev@example.com"].
Proof.
  assert (Forall clean_address ["ops@example.com"; "dev@example.com"]) as H.
  { repeat constructor; done. }
  exact (conj H (to_addresses_join _ H)).
Defined.

End Addresses.

Section NormalizerFacts.

Context {pattern : Type}.
Variable extract_text
  : string → option string → list (level * string) * res string.
Variable re_compile : string → res pattern.
Variable re_search : pattern → string → bool.

Lemma log_all_run (msgs : list (level * string)) (w : world) :
  Normalizer.log_all msgs w
  = (Ok tt, World (table w) (clock_reads w) (rev msgs ++ log w)
                  (requests_sent w) (digests w)).
Proof.
  revert w. induction msgs as [|[l msg] msgs IH]; intros w.
  - by destruct w.
  - cbn [Normalizer.log_all]. unfold bind, logger. rewrite IH. simpl.
    by rewrite <- app_assoc.
Qed.

Lemma compile_patterns_run (ignore_patterns : list string)
    (compiled : list pattern) (w : world) :
  ∃ lg, Normalizer.compile_patterns pattern re_compile ignore_patterns compiled w
        = (match compile_failure re_compile ignore_patterns with
           | Some e => Raise e
           | None => Ok (compiled ++ compiled_of re_compile ignore_patterns)
           end,
           World (table w) (clock_reads w) (lg ++ log w)
                 (requests_sent w) (digests w)).
Proof.
  revert compiled w.
  induction ignore_patterns as [|p rest IH]; intros compiled w.
  - exists []. unfold compiled_of. simpl. rewrite app_nil_r. by destruct w.
  - cbn [Normalizer.compile_patterns].
    unfold compile_failure, compiled_of, skipped. cbn [omap list_omap].
    unfold bind at 1. unfold try_except, bind at 1, lift.
    destruct (re_compile p) as [c|e].
    + unfold ret. destruct (IH (compiled ++ [c]) w) as [lg Hlg]. exists lg.
      rewrite Hlg. unfold compile_failure, compiled_of, skipped.
      by rewrite <- app_assoc.
    + cbn [existsb orb]. rewrite orb_false_r.
      destruct (issubclass (exn_cls e) ReError).
      * unfold bind, logger, ret.
        destruct (IH compiled
                    (World (table w) (clock_reads w)
                       ((WARNING, "Invalid regex pattern '" +:+ p +:+ "': "
                                    +:+ exn_msg e) :: log w)
                       (requests_sent w) (digests w)))
          as [lg Hlg].
        exists (lg ++ [(WARNING, "Invalid regex pattern '" +:+ p +:+ "': "
                                   +:+ exn_msg e)]).
        rewrite Hlg. simpl. unfold compile_failure, compiled_of, skipped.
        by rewrite <- app_assoc.
      * exists []. by destruct w.
Qed.

Lemma compiled_of_valid (ignore_patterns : list string) :
  compiled_of re_compile (valid_patterns re_compile ignore_patterns)
  = compiled_of re_compile ignore_patterns.
Proof.
  unfold compiled_of, valid_patterns, skipped.
  induction ignore_patterns as [|p rest IH]; [done|].
  cbn [List.filter omap list_omap].
  destruct (re_compile p) as [c|e] eqn:Hp; cbn [negb].
  - cbn [omap list_omap]. rewrite Hp. f_equal. exact IH.
  - destruct (issubclass (exn_cls e) ReError); cbn [negb]; [exact IH|].
    cbn [omap list_omap]. rewrite Hp. exact IH.
Qed.



Lemma should_ignore_compiled_of (ignore_patterns : list string)
    (line : string) :
  negb (Normalizer.should_ignore pattern re_search
          (compiled_of re_compile ignore_patterns) line)
  = forallb (fun p => match re_compile p with
                      | Ok c => negb (re_search c line)
                      | Raise _ => true
                      end) ignore_patterns.
Proof.
  unfold Normalizer.should_ignore, compiled_of.
  induction ignore_patterns as [|p rest IH]; [done|].
  cbn [omap list_omap forallb].
  destruct (re_compile p) as [c|e]; [|exact IH].
  cbn [existsb]. by rewrite negb_orb, IH.
Qed.

Lemma filter_filter_andb (P Q : string → bool) (L : list string) :
  List.filter Q (List.filter P L) = List.filter (fun x => P x && Q x) L.
Proof.
  induction L as [|x L IH]; [done|]. simpl.
  destruct (P x); simpl; [|exact IH]. destruct (Q x); by rewrite IH.
Qed.

(** The outcome of [normalize_html]. *)
Lemma normalize_html_run (html : string) (selector : option string)
    (ignore_patterns : list string) (w : world) :
  ∃ lg,
    Normalizer.normalize_html pattern extract_text re_compile re_search
      html selector ignore_patterns w
    = (match snd (extract_text html selector) with
       | Raise e => Raise e
       | Ok text =>
           match compile_failure re_compile ignore_patterns with
           | Some e => Raise e
           | None =>
               Ok (join LF
                     (List.filter
                        (kept_line re_compile re_search ignore_patterns)
                        (map strip (splitlines text))))
           end
       end,
       World (table w) (clock_reads w) (lg ++ log w) (requests_sent w)
             (digests w)).
Proof.
  unfold Normalizer.normalize_html.
  destruct (extract_text html selector) as [msgs [text|e]]; simpl.
  - unfold bind at 1. rewrite log_all_run. unfold bind at 1, lift.
    destruct ignore_patterns as [|p rest].
    + exists (rev msgs). unfold bind, ret. simpl. do 3 f_equal.
      apply filter_ext. intros line. unfold kept_line. simpl.
      by rewrite andb_true_r.
    + unfold bind at 1. unfold bind at 1.
      destruct (compile_patterns_run (p :: rest) []
                  (World (table w) (clock_reads w) (rev msgs ++ log w)
                     (requests_sent w) (digests w))) as [lg Hlg].
      rewrite Hlg. exists (lg ++ rev msgs).
      destruct (compile_failure re_compile (p :: rest)) as [e|].
      * simpl. by rewrite <- app_assoc.
      * unfold ret. simpl. rewrite <- app_assoc. do 3 f_equal.
        rewrite filter_filter_andb. apply filter_ext. intros line.
        unfold kept_line. f_equal.
        exact (should_ignore_compiled_of (p :: rest) line).
  - unfold bind at 1. rewrite log_all_run. unfold bind, lift.
    by exists (rev msgs).
Qed.

Lemma kept_line_normalized (ignore_patterns : list string) (raw : string) :
  kept_line re_compile re_search ignore_patterns (strip raw) = true →
  normalized_line re_compile re_search ignore_patterns (strip raw).
Proof.
  unfold kept_line. intros [Hne Hall]%andb_prop.
  destruct (strip_no_space raw) as [H1 H2].
  split_and!; [|done|done|].
  - intros Heq. by rewrite Heq in Hne.
  - intros p c Hp Hc. rewrite forallb_forall in Hall.
    apply list_elem_of_In in Hp. specialize (Hall p Hp).
    rewrite Hc in Hall. by apply negb_true_iff in Hall.
Qed.

(** X6. The lines of a normalized text are exactly the lines
    [normalize_html] kept, in their order: the stripped lines of the
    extracted text that are not empty and that no ignore pattern that
    compiles matches, joined by single newlines.  So no line of the result
    is empty, has whitespace around it or is matched by such a pattern.
    The call changes nothing but the log. *)
Theorem normalize_html_lines (html : string) (selector : option string)
    (ignore_patterns : list string) (w w' : world) (normalized : string) :
  Normalizer.normalize_html pattern extract_text re_compile re_search
      html selector ignore_patterns w = (Ok normalized, w') →
  (∃ text,
     snd (extract_text html selector) = Ok text
     ∧ splitlines normalized
       = List.filter (kept_line re_compile re_search ignore_patterns)
           (map strip (splitlines text)))
  ∧ normalized = join LF (splitlines normalized)
  ∧ Forall (normalized_line re_compile re_search ignore_patterns)
      (splitlines normalized)
  ∧ same_but_log w w'.
Proof.
  intros Hrun.
  destruct (normalize_html_run html selector ignore_patterns w) as [lg Heq].
  rewrite Heq in Hrun.
  destruct (snd (extract_text html selector)) as [text|e]; [|done].
  destruct (compile_failure re_compile ignore_patterns) as [e|]; [done|].
  injection Hrun as <- <-.
  set (kept := List.filter (kept_line re_compile re_search ignore_patterns)
                 (map strip (splitlines text))).
  assert (splitlines (join LF kept) = kept) as Hlines.
  { apply splitlines_join.
    - apply List.Forall_forall. intros line [Hin _]%filter_In.
      apply in_map_iff in Hin as (raw & <- & Hraw).
      apply one_line_strip.
      pose proof (Forall_one_line_splitlines text) as Hall.
      rewrite List.Forall_forall in Hall. by apply Hall.
    - intros Hlast. apply last_Some_elem_of in Hlast.
      apply list_elem_of_In, filter_In in Hlast as [_ Hkept].
      unfold kept_line in Hkept. done. }
  rewrite Hlines. split_and!; [by exists text|done| |done].
  apply List.Forall_forall. intros line [Hin Hkept]%filter_In.
  apply in_map_iff in Hin as (raw & <- & _).
  by apply kept_line_normalized.
Qed.


End NormalizerFacts.

(** A page of four lines, one of them blank and one an advertisement, with
    one pattern that compiles and one that does not. *)
Lemma normalize_html_lines_witness :
  let extract_text (html : string) (selector : option string)
    : list (level * string) * res string := ([], Ok html) in
  let re_compile (p : string) : res string :=
    if String.eqb p "["
    then Raise (Exn ReError "unterminated character set at position 0")
    else Ok p in
  let re_search (p line : string) : bool := startswith line p in
  let html := "  Hello" +:+ LF +:+ " " +:+ LF +:+ "Ad: buy" +:+ LF
                +:+ "World  " in
  ∃ w', Normalizer.normalize_html string extract_text re_compile re_search
          html None ["Ad"; "["] empty_world
        = (Ok ("Hello" +:+ LF +:+ "World"), w')
        ∧ splitlines ("Hello" +:+ LF +:+ "World") = ["Hello"; "World"]
        ∧ Forall (normalized_line re_compile re_search ["Ad"; "["])
            (splitlines ("Hello" +:+ LF +:+ "World")).
Proof.
  intros extract_text re_compile re_search html.
  pose (run := Normalizer.normalize_html string extract_text re_compile
                 re_search html None ["Ad"; "["] empty_world).
  assert (fst run = Ok ("Hello" +:+ LF +:+ "World")) as Hfst by vm_refl.
  apply pair_fst in Hfst.
  exists (snd run). split; [exact Hfst|]. split; [vm_refl|].
  exact (proj1 (proj2 (proj2
           (normalize_html_lines extract_text re_compile re_search html
              None ["Ad"; "["] empty_world _ _ Hfst)))).
Defined.

(** A quantifier too large for the compiler: the [OverflowError] leaves
    [normalize_html] and the patterns after it are not compiled. *)
Example test_pattern_overflow :
  let extract_text (html : string) (selector : option string)
    : list (level * string) * res string := ([], Ok html) in
  let re_compile (p : string) : res string :=
    if String.eqb p "["
    then Raise (Exn ReError "unterminated character set at position 0")
    else if String.eqb p "a{99999999999}"
    then Raise (Exn OverflowError "the repetition number is too large")
    else Ok p in
  let re_search (p line : string) : bool := startswith line p in
  Normalizer.normalize_html string extract_text re_compile re_search
    "Hello" None ["["; "a{99999999999}"; "Ad"] empty_world
  = (Raise (Exn OverflowError "the repetition number is too large"),
     World ∅ 0
       [(WARNING,
         "Invalid regex pattern '[': unterminated character set at position 0")]
       [] []).
Proof. vm_compute. reflexivity. Qed.

(** ** The fetcher *)

(** X8. What [fetch_url] makes of the response to its request: a status
    from 400 to 599 raises a plain [Exception] whose message starts with
    [Request failed: ]; a 304 returns no content; any other status returns
    the text of the response; the validators are the [ETag] and
    [Last-Modified] headers of the response. *)
Theorem fetch_url_by_status (E : env) (url user_agent : string)
    (conditional_headers : gmap string pyval) (w : world) (r : http_response) :
  requests_get E url
    (conditional_headers ∪ {[ "User-Agent" := VStr user_agent ]})
  = ReqResponse r →
  let st := status_code r in
  if (400 <=? st)%Z && (st <? 600)%Z then
    ∃ msg, fst (fetch_url E url user_agent conditional_headers w)
           = Raise (Exn Exception ("Request failed: " +:+ msg))
  else
    fst (fetch_url E url user_agent conditional_headers w)
    = Ok (FetchResult st
            (if (st =? 304)%Z then None else Some (text r))
            (headers r !! "ETag") (headers r !! "Last-Modified")).
Proof.
  intros Hr st.
  unfold fetch_url, try_except, bind, requests_get_call, lift, logger, ret,
    raise, raise_for_status.
  rewrite Hr. fold st.
  destruct (st =? 304)%Z eqn:H304.
  - apply Z.eqb_eq in H304. rewrite H304. simpl. done.
  - simpl.
    destruct ((400 <=? st)%Z && (st <? 500)%Z) eqn:H4; simpl.
    { apply andb_prop in H4 as [H4a H4b].
      rewrite H4a. simpl.
      assert ((st <? 600)%Z = true) as -> by lia. by eexists. }
    destruct ((500 <=? st)%Z && (st <? 600)%Z) eqn:H5; simpl.
    { apply andb_prop in H5 as [H5a H5b].
      rewrite H5b.
      assert ((400 <=? st)%Z = true) as -> by lia. simpl. by eexists. }
    assert ((400 <=? st)%Z && (st <? 600)%Z = false) as ->; [|done].
    apply andb_false_iff. apply andb_false_iff in H4, H5. lia.
Qed.

Lemma fetch_url_by_status_witness :
  let E := sample_env [sample_url]
             (fun url => ReqResponse (HttpResponse 304 "Not Modified" url "" ∅))
             Ok accepting in
  requests_get E sample_url (∅ ∪ {[ "User-Agent" := VStr "Test/1.0" ]})
  = ReqResponse (HttpResponse 304 "Not Modified" sample_url "" ∅)
  ∧ fst (fetch_url E sample_url "Test/1.0" ∅ empty_world)
    = Ok (FetchResult 304 None None None).
Proof.
  intros E.
  assert (requests_get E sample_url (∅ ∪ {[ "User-Agent" := VStr "Test/1.0" ]})
          = ReqResponse (HttpResponse 304 "Not Modified" sample_url "" ∅)) as H
    by reflexivity.
  exact (conj H (fetch_url_by_status E sample_url "Test/1.0" ∅ empty_world _ H)).
Defined.

(** X9. The exceptions of [requests] do not leave [fetch_url] as they
    are: what [fetch_url] raises is either a plain [Exception] whose message
    starts with [Timeout: ] or [Request failed: ], or an exception that
    [requests.get] raised and that is no [RequestException]. *)
Theorem fetch_url_raises (E : env) (url user_agent : string)
    (conditional_headers : gmap string pyval) (w w' : world) (e : exn) :
  fetch_url E url user_agent conditional_headers w = (Raise e, w') →
  (exn_cls e = Exception
   ∧ (startswith (exn_msg e) "Timeout: " = true
      ∨ startswith (exn_msg e) "Request failed: " = true))
  ∨ (requests_get E url
       (conditional_headers ∪ {[ "User-Agent" := VStr user_agent ]})
     = ReqRaises e
     ∧ issubclass (exn_cls e) RequestException = false).
Proof.
  unfold fetch_url, try_except, bind, requests_get_call, lift, logger, ret,
    raise, raise_for_status.
  destruct (requests_get E url _) as [[cls msg]|r]; simpl.
  - destruct cls; simpl; intros [= <- <-];
      first [ by right | left; split; [done|]; (by left) || (by right) ].
  - destruct (negb (status_code r =? 304)%Z); simpl; [|done].
    destruct ((400 <=? status_code r)%Z && (status_code r <? 500)%Z); simpl.
    { intros [= <- <-]. left. split; [done|]. by right. }
    destruct ((500 <=? status_code r)%Z && (status_code r <? 600)%Z); simpl.
    { intros [= <- <-]. left. split; [done|]. by right. }
    done.
Qed.

(** A connection that times out. *)
Lemma fetch_url_raises_witness :
  let E := sample_env [sample_url]
             (fun _ => ReqRaises (Exn Timeout "Read timed out."))
             Ok accepting in
  ∃ w', fetch_url E sample_url "Test/1.0" ∅ empty_world
        = (Raise (Exn Exception "Timeout: Read timed out."), w')
        ∧ exn_cls (Exn Exception "Timeout: Read timed out.") = Exception.
Proof.
  intros E. eexists.
  assert (fetch_url E sample_url "Test/1.0" ∅ empty_world
          = (Raise (Exn Exception "Timeout: Read timed out."),
             snd (fetch_url E sample_url "Test/1.0" ∅ empty_world))) as H
    by reflexivity.
  split; [exact H|].
  destruct (fetch_url_raises E sample_url "Test/1.0" ∅ empty_world _ _ H)
    as [[Hcls _]|[Hreq _]]; [exact Hcls|discriminate Hreq].
Defined.

(** ** The paths of process_url *)

Section PathFacts.
Variable E : env.

Lemma conditional_headers_lookup (prev_state : option item) :
  conditional_headers_of prev_state !! "If-None-Match"
  = validator_of prev_state "etag"
  ∧ conditional_headers_of prev_state !! "If-Modified-Since"
    = validator_of prev_state "last_modified"
  ∧ ∀ key, key ≠ "If-None-Match" → key ≠ "If-Modified-Since" →
           conditional_headers_of prev_state !! key = None.
Proof.
  unfold conditional_headers_of, validator_of.
  destruct prev_state as [st|]; simpl; [|done].
  case_bool_decide as Hempty.
  { subst st. rewrite !lookup_empty. simpl. done. }
  destruct (st !! "etag") as [v1|]; simpl;
    destruct (st !! "last_modified") as [v2|]; simpl;
    try destruct (truthy v1); try destruct (truthy v2);
    split_and!; try done; try (intros key H1 H2);
    by simplify_map_eq.
Qed.

Lemma no_state_prev_get (prev_state : option item) (key : string) :
  no_state prev_state = true → prev_get prev_state key = VNone.
Proof.
  unfold no_state, prev_get. destruct prev_state as [st|]; [|done].
  by intros ->.
Qed.

Lemma prev_get_Some (st : item) (key : string) (v : pyval) :
  dict_get st key = v → v ≠ VNone →
  no_state (Some st) = false ∧ prev_get (Some st) key = v.
Proof.
  unfold no_state, prev_get, dict_get. intros Hv Hne.
  case_bool_decide as Hempty; [|done].
  subst st. rewrite lookup_empty in Hv. simpl in Hv. congruence.
Qed.

Lemma plan_of_not_modified (url_config : url_config)
    (ignore_patterns : list string) (cooldown_hours : Z) (w : world)
    (response : fetch_result) :
  let url := uc_url url_config in
  fetch_outcome E url (user_agent_of E)
    (conditional_headers_of (state_of E w url)) = Ok response →
  fr_status_code response = 304%Z →
  plan_of E url_config ignore_patterns cooldown_hours w
  = PlanUpdate {[ "last_checked_at" := VStr (now_of E w) ]} None.
Proof.
  intros url Hfetch Hstatus. unfold plan_of. fold url.
  rewrite Hfetch, Hstatus. done.
Qed.

Lemma plan_of_unchanged (url_config : url_config)
    (ignore_patterns : list string) (cooldown_hours : Z) (w : world)
    (st : item) (response : fetch_result) (normalized_text new_hash : string) :
  let url := uc_url url_config in
  state_of E w url = Some st →
  dict_get st "last_hash" = VStr new_hash →
  fetch_outcome E url (user_agent_of E) (conditional_headers_of (Some st))
  = Ok response →
  fr_status_code response ≠ 304%Z →
  normalize_and_hash E response (uc_selector url_config) ignore_patterns
  = Ok (normalized_text, new_hash) →
  plan_of E url_config ignore_patterns cooldown_hours w
  = PlanUpdate (<[ "last_checked_at" := VStr (now_of E w) ]>
                  {[ "error_count" := VNum 0 ]}) None.
Proof.
  intros url Hst Hhash Hfetch Hstatus Hnorm. unfold plan_of. fold url.
  rewrite Hst, Hfetch. apply Z.eqb_neq in Hstatus. rewrite Hstatus, Hnorm.
  destruct (prev_get_Some st "last_hash" _ Hhash) as [-> ->]; [done|].
  simpl. by rewrite bool_decide_eq_true_2.
Qed.

(** The run on a page whose fingerprint is the stored one. *)
Lemma unchanged_run (url_config : url_config)
    (ignore_patterns : list string) (cooldown_hours : Z) (w : world)
    (st : item) (response : fetch_result) (normalized_text new_hash : string) :
  let url := uc_url url_config in
  state_of E w url = Some st →
  dict_get st "last_hash" = VStr new_hash →
  fetch_outcome E url (user_agent_of E) (conditional_headers_of (Some st))
  = Ok response →
  fr_status_code response ≠ 304%Z →
  normalize_and_hash E response (uc_selector url_config) ignore_patterns
  = Ok (normalized_text, new_hash) →
  store_accepts E url →
  ∃ w', process_url E url_config ignore_patterns cooldown_hours w
        = (Ok None, w')
        ∧ table w'
          = <[url := <[ "last_checked_at" := VStr (now_of E w) ]>
                       {[ "error_count" := VNum 0 ]}
                     ∪ base_item w url]> (table w).
Proof.
  intros url Hst Hhash Hfetch Hstatus Hnorm Hstore.
  pose proof (plan_of_unchanged url_config ignore_patterns cooldown_hours w
                st response normalized_text new_hash Hst Hhash Hfetch Hstatus
                Hnorm) as Hplan.
  exact (process_url_update E _ _ _ _ _ _ Hplan Hstore).
Qed.

(** The plan that returns a change record. *)
Lemma plan_of_record (url_config : url_config)
    (ignore_patterns : list string) (cooldown_hours : Z) (w : world)
    (updates : gmap string pyval) (c : change_record) :
  let url := uc_url url_config in
  let prev_state := state_of E w url in
  plan_of E url_config ignore_patterns cooldown_hours w
  = PlanUpdate updates (Some c) →
  cr_url c = url
  ∧ cr_previous_hash c = prev_get prev_state "last_hash"
  ∧ cr_previous_hash c ≠ VStr (cr_new_hash c)
  ∧ cr_is_new c = bool_decide (cr_previous_hash c = VNone)
  ∧ updates !! "last_hash" = Some (VStr (cr_new_hash c))
  ∧ updates !! "last_notified_at" = Some (VStr (now_of E w))
  ∧ updates !! "error_count" = Some (VNum 0).
Proof.
  intros url prev_state. unfold plan_of, error_plan. fold url prev_state.
  destruct (fetch_outcome E _ _ _) as [response|e].
  2:{ destruct (next_error_count prev_state); intros [= <- <-] || intros [=]. }
  destruct (fr_status_code response =? 304)%Z; [intros [=]|].
  destruct (normalize_and_hash E response _ _)
    as [[normalized_text new_hash]|e].
  2:{ destruct (next_error_count prev_state); intros [= <- <-] || intros [=]. }
  destruct (negb (no_state prev_state)
            && bool_decide (prev_get prev_state "last_hash" = VStr new_hash))
    eqn:Hsame; [intros [=]|].
  destruct (notify_decision E _ prev_state _ _) as [[|]|e]; [|done|done].
  destruct (diff_against _ _) as [diff_snippet|e]; [|done].
  intros [= <- <-]. simpl.
  split_and!; try done.
  - apply andb_false_iff in Hsame as [Hno|Hne].
    + apply negb_false_iff in Hno.
      by rewrite (no_state_prev_get _ _ Hno).
    + by apply bool_decide_eq_false_1 in Hne.
  - unfold change_update.
    destruct (fr_etag response), (fr_last_modified response);
      by simplify_map_eq.
  - by simplify_map_eq.
  - unfold change_update.
    destruct (fr_etag response), (fr_last_modified response);
      by simplify_map_eq.
Qed.

(** A run that returns leaves the table its plan wrote; a run that raises
    leaves the table as it was. *)
Lemma process_url_outcome (url_config : url_config)
    (ignore_patterns : list string) (cooldown_hours : Z) (w w' : world)
    (r : res (option change_record)) :
  let url := uc_url url_config in
  process_url E url_config ignore_patterns cooldown_hours w = (r, w') →
  match r with
  | Ok result =>
      ∃ updates,
        plan_of E url_config ignore_patterns cooldown_hours w
        = PlanUpdate updates result
        ∧ table w' = <[url := updates ∪ base_item w url]> (table w)
  | Raise e => table w' = table w
  end.
Proof.
  intros url Hrun.
  destruct (process_url_run E url_config ignore_patterns cooldown_hours w)
    as (w1 & Hrun1 & Ht & _).
  rewrite Hrun in Hrun1. injection Hrun1 as -> <-. fold url in Ht.
  rewrite Ht. clear Hrun Ht. fold url.
  destruct (plan_of E url_config ignore_patterns cooldown_hours w)
    as [e|updates result]; simpl; [reflexivity|].
  destruct (update_item_error E url _ _); simpl; [reflexivity|]. by eexists.
Qed.

End PathFacts.


(** X10. Every call of [process_url] sends one request, to its target.
    The request carries the [User-Agent] of the environment (by default
    [Website-Diff-Checker/1.0]), the stored [etag] as [If-None-Match] and
    the stored [last_modified] as [If-Modified-Since] when the state read
    has them with a true value, and no other header. *)
Theorem request_headers (E : env) (url_config : url_config)
    (ignore_patterns : list string) (cooldown_hours : Z) (w : world) :
  let url := uc_url url_config in
  let prev_state := state_of E w url in
  ∃ r w' hdrs,
    process_url E url_config ignore_patterns cooldown_hours w = (r, w')
    ∧ requests_sent w' = (url, hdrs) :: requests_sent w
    ∧ hdrs !! "User-Agent"
      = Some (VStr (default "Website-Diff-Checker/1.0"
                      (environ E !! "USER_AGENT")))
    ∧ hdrs !! "If-None-Match" = validator_of prev_state "etag"
    ∧ hdrs !! "If-Modified-Since" = validator_of prev_state "last_modified"
    ∧ ∀ key, key ≠ "User-Agent" → key ≠ "If-None-Match" →
             key ≠ "If-Modified-Since" → hdrs !! key = None.
Proof.
  intros url prev_state.
  destruct (process_url_run E url_config ignore_patterns cooldown_hours w)
    as (w' & Hrun & _ & Hsent & _).
  fold url prev_state in Hsent.
  destruct (conditional_headers_lookup prev_state) as (H1 & H2 & H3).
  eexists _, w', _. split; [exact Hrun|]. split; [exact Hsent|].
  split_and!.
  - rewrite lookup_union_r by (by apply H3). by rewrite lookup_singleton_eq.
  - rewrite lookup_union, H1, lookup_singleton_ne by done.
    by destruct (validator_of prev_state "etag").
  - rewrite lookup_union, H2, lookup_singleton_ne by done.
    by destruct (validator_of prev_state "last_modified").
  - intros key Hk1 Hk2 Hk3.
    rewrite lookup_union, (H3 key Hk2 Hk3), lookup_singleton_ne by done.
    done.
Qed.

(** X11. When the read of the state fails, [get_state] returns [None] and
    the target is handled as a new one: if its fetch and its normalization
    succeed, [process_url] returns a change record with [is_new] and without
    previous hash whatever the table holds and whatever the cooldown is,
    and writes the new fingerprint and [last_notified_at]. *)
Theorem read_failure_reports_new (E : env) (url_config : url_config)
    (ignore_patterns : list string) (cooldown_hours : Z) (w : world)
    (msg : string) (response : fetch_result)
    (normalized_text new_hash : string) :
  let url := uc_url url_config in
  get_item_error E url = Some msg →
  fetch_outcome E url (user_agent_of E) ∅ = Ok response →
  fr_status_code response ≠ 304%Z →
  normalize_and_hash E response (uc_selector url_config) ignore_patterns
  = Ok (normalized_text, new_hash) →
  store_accepts E url →
  ∃ w',
    process_url E url_config ignore_patterns cooldown_hours w
    = (Ok (Some (ChangeRecord url VNone new_hash
                   (generate_diff_snippet "" normalized_text) true)), w')
    ∧ stored w' url "last_hash" = Some (VStr new_hash)
    ∧ stored w' url "last_notified_at" = Some (VStr (now_of E w)).
Proof.
  intros url Hget Hfetch Hstatus Hnorm Hstore.
  assert (state_of E w url = None) as Hstate
    by (unfold state_of; by rewrite Hget).
  pose proof (plan_of_changed E url_config ignore_patterns cooldown_hours w
                None response normalized_text new_hash
                Hstate Hfetch Hstatus Hnorm) as Hplan.
  fold url in Hplan. rewrite notify_decision_new in Hplan.
  simpl in Hplan. specialize (Hplan ltac:(done)).
  destruct (process_url_update E _ _ _ _ _ _ Hplan Hstore) as (w' & Hrun & Ht).
  fold url in Ht.
  destruct (change_update_lookup (now_of E w) new_hash normalized_text response)
    as (Hh & _).
  exists w'. split; [exact Hrun|]. split.
  - eapply stored_set; [exact Ht|].
    rewrite lookup_insert_ne by done. exact Hh.
  - eapply stored_set; [exact Ht|]. by rewrite lookup_insert_eq.
Qed.

(** A stored page that has not changed, and a store that cannot be
    read. *)
Lemma read_failure_reports_new_witness :
  let E := failing_reads "ProvisionedThroughputExceededException"
             (sample_env [sample_url] (serve "<html>Old content</html>" ∅)
                (fun _ => Ok "Old content") accepting) in
  let w := world_with (sample_state (VStr "2024-01-01T00:00:00+00:00")) in
  let response :=
    FetchResult 200 (Some "<html>Old content</html>") None None in
  (get_item_error E sample_url = Some "ProvisionedThroughputExceededException"
   ∧ fetch_outcome E sample_url (user_agent_of E) ∅ = Ok response
   ∧ fr_status_code response ≠ 304%Z
   ∧ normalize_and_hash E response None []
     = Ok ("Old content", "sha256:Old content")
   ∧ store_accepts E sample_url)
  ∧ stored w sample_url "last_hash" = Some (VStr "sha256:Old content")
  ∧ ∃ w', process_url E sample_config [] 6 w
          = (Ok (Some (ChangeRecord sample_url VNone "sha256:Old content"
                         "+ Old content" true)), w').
Proof.
  intros E w response.
  assert (get_item_error E sample_url
          = Some "ProvisionedThroughputExceededException") as H1 by done.
  assert (fetch_outcome E sample_url (user_agent_of E) ∅ = Ok response) as H2
    by vm_refl.
  assert (fr_status_code response ≠ 304%Z) as H3 by vm_neq.
  assert (normalize_and_hash E response None []
          = Ok ("Old content", "sha256:Old content")) as H4 by vm_refl.
  assert (store_accepts E sample_url) as H5 by (by intros ? ?).
  split; [done|]. split; [vm_refl|].
  destruct (read_failure_reports_new E sample_config [] 6%Z w _ response
              _ _ H1 H2 H3 H4 H5) as (w' & Hrun & _).
  exists w'. exact Hrun.
Defined.

(** X12. On a 304 answer [process_url] returns no change record and
    writes [last_checked_at] only: every other attribute of the item keeps
    its value (the error count is not reset), and so does every other
    item. *)
Theorem not_modified_only_touches (E : env) (url_config : url_config)
    (ignore_patterns : list string) (cooldown_hours : Z) (w : world)
    (response : fetch_result) :
  let url := uc_url url_config in
  fetch_outcome E url (user_agent_of E)
    (conditional_headers_of (state_of E w url)) = Ok response →
  fr_status_code response = 304%Z →
  store_accepts E url →
  ∃ w', process_url E url_config ignore_patterns cooldown_hours w
        = (Ok None, w')
        ∧ stored w' url "last_checked_at" = Some (VStr (now_of E w))
        ∧ (∀ key, key ≠ "last_checked_at" → key ≠ "url" →
                  stored w' url key = stored w url key)
        ∧ (∀ other, other ≠ url → table w' !! other = table w !! other).
Proof.
  intros url Hfetch Hstatus Hstore.
  pose proof (plan_of_not_modified E url_config ignore_patterns cooldown_hours
                w response Hfetch Hstatus) as Hplan.
  destruct (process_url_update E _ _ _ _ _ _ Hplan Hstore) as (w' & Hrun & Ht).
  fold url in Ht. exists w'. split; [exact Hrun|]. split_and!.
  - eapply stored_set; [exact Ht|]. by rewrite lookup_singleton_eq.
  - intros key Hk1 Hk2. eapply stored_kept; [exact Ht| |done].
    by rewrite lookup_singleton_ne.
  - intros other Hother. rewrite Ht. by rewrite lookup_insert_ne.
Qed.

(** A server that answers 304 to a target with two failures on record. *)
Lemma not_modified_only_touches_witness :
  let E := sample_env [sample_url]
             (fun url => ReqResponse (HttpResponse 304 "Not Modified" url "" ∅))
             Ok accepting in
  let st : item :=
    <[ "error_count" := VNum 2 ]> (sample_state (VStr "2024-01-01T00:00:00Z")) in
  let w := world_with st in
  let response := FetchResult 304 None None None in
  (fetch_outcome E sample_url (user_agent_of E)
     (conditional_headers_of (state_of E w sample_url)) = Ok response
   ∧ fr_status_code response = 304%Z
   ∧ store_accepts E sample_url)
  ∧ ∃ w', process_url E sample_config [] 0 w = (Ok None, w')
          ∧ stored w' sample_url "error_count" = Some (VNum 2)
          ∧ stored w' sample_url "last_hash"
            = Some (VStr "sha256:Old content").
Proof.
  intros E st w response.
  assert (fetch_outcome E sample_url (user_agent_of E)
            (conditional_headers_of (state_of E w sample_url)) = Ok response)
    as H1 by vm_refl.
  assert (fr_status_code response = 304%Z) as H2 by reflexivity.
  assert (store_accepts E sample_url) as H3 by (by intros ? ?).
  split; [done|].
  destruct (not_modified_only_touches E sample_config [] 0%Z w response
              H1 H2 H3) as (w' & Hrun & _ & Hkept & _).
  exists w'. split; [exact Hrun|]. split.
  - etrans; [apply Hkept; done|vm_refl].
  - etrans; [apply Hkept; done|vm_refl].
Defined.

(** X13. When the fingerprint of the page is the stored one,
    [process_url] returns no change record, writes [last_checked_at] and
    resets the error count to zero; every other attribute of the item keeps
    its value: the validators of the response are not stored, and
    [last_error], [last_changed_at] and [last_notified_at] stay. *)
Theorem unchanged_content (E : env) (url_config : url_config)
    (ignore_patterns : list string) (cooldown_hours : Z) (w : world)
    (st : item) (response : fetch_result) (normalized_text new_hash : string) :
  let url := uc_url url_config in
  state_of E w url = Some st →
  dict_get st "last_hash" = VStr new_hash →
  fetch_outcome E url (user_agent_of E) (conditional_headers_of (Some st))
  = Ok response →
  fr_status_code response ≠ 304%Z →
  normalize_and_hash E response (uc_selector url_config) ignore_patterns
  = Ok (normalized_text, new_hash) →
  store_accepts E url →
  ∃ w', process_url E url_config ignore_patterns cooldown_hours w
        = (Ok None, w')
        ∧ stored w' url "last_checked_at" = Some (VStr (now_of E w))
        ∧ stored w' url "error_count" = Some (VNum 0)
        ∧ (∀ key, key ≠ "last_checked_at" → key ≠ "error_count" →
                  stored w' url key = st !! key).
Proof.
  intros url Hst Hhash Hfetch Hstatus Hnorm Hstore.
  destruct (unchanged_run E url_config ignore_patterns cooldown_hours w st
              response normalized_text new_hash Hst Hhash Hfetch Hstatus Hnorm
              Hstore) as (w' & Hrun & Ht).
  fold url in Ht. apply state_of_Some in Hst as [_ Htable].
  exists w'. split; [exact Hrun|]. split_and!.
  - eapply stored_set; [exact Ht|]. by rewrite lookup_insert_eq.
  - eapply stored_set; [exact Ht|].
    rewrite lookup_insert_ne by done. by rewrite lookup_singleton_eq.
  - intros key Hk1 Hk2. rewrite (stored_updated _ _ _ _ _ Ht).
    rewrite lookup_union_r.
    + by rewrite (base_item_Some w url st Htable).
    + rewrite lookup_insert_ne by done. by rewrite lookup_singleton_ne.
Qed.

(** The page of the sample target as it is stored, served with a new
    [ETag], after a failure. *)
Lemma unchanged_content_witness :
  let E := sample_env [sample_url]
             (serve "<html>Old content</html>" {[ "ETag" := "v2" ]})
             (fun _ => Ok "Old content") accepting in
  let st : item :=
    <[ "error_count" := VNum 1 ]>
      (<[ "last_error" := VStr "Timeout: Read timed out." ]>
         (sample_state (VStr "2024-01-01T00:00:00+00:00"))) in
  let w := world_with st in
  let response :=
    FetchResult 200 (Some "<html>Old content</html>") (Some "v2") None in
  (state_of E w sample_url = Some st
   ∧ dict_get st "last_hash" = VStr "sha256:Old content"
   ∧ fetch_outcome E sample_url (user_agent_of E)
       (conditional_headers_of (Some st)) = Ok response
   ∧ fr_status_code response ≠ 304%Z
   ∧ normalize_and_hash E response None []
     = Ok ("Old content", "sha256:Old content")
   ∧ store_accepts E sample_url)
  ∧ ∃ w', process_url E sample_config [] 6 w = (Ok None, w')
          ∧ stored w' sample_url "error_count" = Some (VNum 0)
          ∧ stored w' sample_url "etag" = Some (VStr "v1")
          ∧ stored w' sample_url "last_error"
            = Some (VStr "Timeout: Read timed out.").
Proof.
  intros E st w response.
  assert (state_of E w sample_url = Some st) as H1
    by (by apply state_of_world_with).
  assert (dict_get st "last_hash" = VStr "sha256:Old content") as H2 by vm_refl.
  assert (fetch_outcome E sample_url (user_agent_of E)
            (conditional_headers_of (Some st)) = Ok response) as H3 by vm_refl.
  assert (fr_status_code response ≠ 304%Z) as H4 by vm_neq.
  assert (normalize_and_hash E response None []
          = Ok ("Old content", "sha256:Old content")) as H5 by vm_refl.
  assert (store_accepts E sample_url) as H6 by (by intros ? ?).
  split; [done|].
  destruct (unchanged_content E sample_config [] 6%Z w st response _ _
              H1 H2 H3 H4 H5 H6) as (w' & Hrun & _ & Hcount & Hkept).
  exists w'. split; [exact Hrun|]. split; [exact Hcount|]. split.
  - etrans; [apply Hkept; done|vm_refl].
  - etrans; [apply Hkept; done|vm_refl].
Defined.

(** X14. A change record returned by [process_url] names the target, has
    a new hash that differs from its previous hash, and says [is_new]
    exactly when it has no previous hash; the previous hash is the stored
    one, and the run has written the new hash, [last_notified_at] at the
    time of the run and an error count of zero. *)
Theorem change_record_fields (E : env) (url_config : url_config)
    (ignore_patterns : list string) (cooldown_hours : Z) (w w' : world)
    (c : change_record) :
  let url := uc_url url_config in
  process_url E url_config ignore_patterns cooldown_hours w
  = (Ok (Some c), w') →
  cr_url c = url
  ∧ cr_previous_hash c = prev_get (state_of E w url) "last_hash"
  ∧ cr_previous_hash c ≠ VStr (cr_new_hash c)
  ∧ cr_is_new c = bool_decide (cr_previous_hash c = VNone)
  ∧ stored w' url "last_hash" = Some (VStr (cr_new_hash c))
  ∧ stored w' url "last_notified_at" = Some (VStr (now_of E w))
  ∧ stored w' url "error_count" = Some (VNum 0).
Proof.
  intros url Hrun.
  destruct (process_url_outcome E url_config ignore_patterns cooldown_hours
              w w' _ Hrun) as (updates & Hplan & Ht).
  fold url in Ht.
  destruct (plan_of_record E url_config ignore_patterns cooldown_hours w
              updates c Hplan) as (H1 & H2 & H3 & H4 & H5 & H6 & H7).
  split_and!; try done; by (eapply stored_set; [exact Ht|]).
Qed.

(** The sample target, changed six hours after its last notification. *)
Lemma change_record_fields_witness :
  let E := sample_env [sample_url] (serve "<html>New content</html>" ∅)
             (fun _ => Ok "New content") accepting in
  let w := world_with (sample_state (VStr "2023-12-31T18:00:00+00:00")) in
  ∃ c w', process_url E sample_config [] 6 w = (Ok (Some c), w')
          ∧ cr_previous_hash c = VStr "sha256:Old content"
          ∧ cr_is_new c = false
          ∧ stored w' sample_url "last_hash" = Some (VStr (cr_new_hash c)).
Proof.
  intros E w.
  pose (c := ChangeRecord sample_url (VStr "sha256:Old content")
               "sha256:New content"
               (generate_diff_snippet "Old content" "New content") false).
  assert (fst (process_url E sample_config [] 6%Z w) = Ok (Some c)) as Hfst
    by vm_refl.
  apply pair_fst in Hfst.
  destruct (change_record_fields E sample_config [] 6%Z w _ c Hfst)
    as (_ & _ & _ & _ & Hhash & _).
  exists c, (snd (process_url E sample_config [] 6%Z w)).
  split; [exact Hfst|]. split; [reflexivity|]. split; [reflexivity|].
  exact Hhash.
Defined.





(** X17. [process_url] writes to the item of its own target only, and
    hands no digest to SES; when it raises, it has written nothing at
    all. *)
Theorem process_url_writes_own_item (E : env) (url_config : url_config)
    (ignore_patterns : list string) (cooldown_hours : Z) (w w' : world)
    (r : res (option change_record)) :
  process_url E url_config ignore_patterns cooldown_hours w = (r, w') →
  (∀ other, other ≠ uc_url url_config →
            table w' !! other = table w !! other)
  ∧ digests w' = digests w
  ∧ (∀ e, r = Raise e → table w' = table w).
Proof.
  intros Hrun. split_and!.
  - intros other Hother. by eapply process_url_frame.
  - destruct (process_url_run E url_config ignore_patterns cooldown_hours w)
      as (w1 & Hrun1 & _ & _ & Hd).
    rewrite Hrun in Hrun1. by injection Hrun1 as _ <-.
  - intros e ->.
    exact (process_url_outcome E url_config ignore_patterns cooldown_hours
             w w' _ Hrun).
Qed.

(** A store that rejects the update of the sample target. *)
Lemma process_url_writes_own_item_witness :
  let E := sample_env [sample_url] (serve "<html>New content</html>" ∅)
             (fun _ => Ok "New content")
             (fun _ => Some "ConditionalCheckFailedException") in
  let w := world_with (sample_state (VStr "2023-12-31T18:00:00+00:00")) in
  ∃ e w', process_url E sample_config [] 6 w = (Raise e, w')
          ∧ exn_cls e = ClientError
          ∧ table w' = table w.
Proof.
  intros E w.
  pose (e := Exn ClientError "ConditionalCheckFailedException").
  assert (fst (process_url E sample_config [] 6%Z w) = Raise e) as Hfst
    by vm_refl.
  apply pair_fst in Hfst.
  destruct (process_url_writes_own_item E sample_config [] 6%Z w _ _ Hfst)
    as (_ & _ & Hraise).
  exists e, (snd (process_url E sample_config [] 6%Z w)).
  split; [exact Hfst|]. split; [reflexivity|]. exact (Hraise e eq_refl).
Defined.

(** ** The handler *)

Section HandlerFacts.
Variable E : env.

Lemma process_all_table_frame (url_configs : list url_config)
    (ignore_patterns : list string) (cooldown_hours : Z)
    (changes : list change_record) (w : world) (other : string) :
  other ∉ map uc_url url_configs →
  table (snd (process_all E url_configs ignore_patterns cooldown_hours
                changes w)) !! other
  = table w !! other.
Proof.
  revert changes w.
  induction url_configs as [|url_config rest IH]; intros changes w Hother;
    [done|].
  apply not_elem_of_cons in Hother as [Hne Hrest].
  cbn [process_all]. unfold bind.
  destruct (process_url E url_config ignore_patterns cooldown_hours w)
    as [[change|e] w1] eqn:Hrun.
  - rewrite IH by done. by eapply process_url_frame.
  - simpl. by eapply process_url_frame.
Qed.

Lemma process_url_send (answer : list change_record → nat → option exn)
    (url_config : url_config) (ignore_patterns : list string)
    (cooldown_hours : Z) :
  process_url (with_send_error answer E) url_config ignore_patterns
    cooldown_hours
  = process_url E url_config ignore_patterns cooldown_hours.
Proof. reflexivity. Qed.

Lemma process_all_send (answer : list change_record → nat → option exn)
    (url_configs : list url_config) (ignore_patterns : list string)
    (cooldown_hours : Z) (changes : list change_record) (w : world) :
  process_all (with_send_error answer E) url_configs ignore_patterns
    cooldown_hours changes w
  = process_all E url_configs ignore_patterns cooldown_hours changes w.
Proof.
  revert changes w. induction url_configs as [|url_config rest IH];
    intros changes w; [done|].
  cbn [process_all]. rewrite process_url_send. unfold bind.
  destruct (process_url E url_config ignore_patterns cooldown_hours w)
    as [[change|e] w1]; [apply IH|done].
Qed.

End HandlerFacts.



(** X19. The answer of SES to the digest changes nothing but the log:
    the response of the handler, the table, the requests sent and the
    digests handed over are the same whether the digest is accepted or
    raises. *)
Theorem digest_outcome_is_ignored (E : env)
    (answer : list change_record → nat → option exn) (w : world) :
  fst (lambda_handler (with_send_error answer E) w) = fst (lambda_handler E w)
  ∧ same_but_log (snd (lambda_handler E w))
      (snd (lambda_handler (with_send_error answer E) w)).
Proof.
  unfold lambda_handler.
  change (load_urls (with_send_error answer E)) with (load_urls E).
  change (load_ignore_patterns (with_send_error answer E))
    with (load_ignore_patterns E).
  change (read_cooldown_hours (with_send_error answer E))
    with (read_cooldown_hours E).
  unfold bind, lift, logger, ret.
  destruct (load_urls E _) as [[url_configs|e] w1]; [|by repeat split].
  destruct (load_ignore_patterns E w1) as [[ignore_patterns|e] w2];
    [|by repeat split].
  destruct (read_cooldown_hours E) as [cooldown_hours|e]; [|by repeat split].
  destruct url_configs as [|url_config rest]; [by repeat split|].
  rewrite process_all_send.
  destruct (process_all E _ _ _ _ _) as [[changes|e] w3]; [|by repeat split].
  destruct changes as [|c changes]; [by repeat split|].
  unfold try_except, send_digest_email. simpl.
  destruct (answer _ _), (send_digest_error E _ _); by repeat split.
Qed.

(** X20. A run of the handler that returns has sent one request per
    configured target, in the order of the configuration. *)
Theorem one_request_per_target (E : env) (w w' : world) (resp : response) :
  lambda_handler E w = (Ok resp, w') →
  map fst (requests_sent w')
  = rev (map uc_url (configured E)) ++ map fst (requests_sent w).
Proof.
  intros Hrun. exact (proj2 (lambda_handler_returns E w w' resp Hrun)).
Qed.

(** Two new targets checked in one run. *)
Lemma one_request_per_target_witness :
  let E := sample_env [sample_url; "https://example.org"]
             (serve "<html>Content</html>" ∅) (fun _ => Ok "Content")
             accepting in
  ∃ w', lambda_handler E empty_world = (Ok (Response 200 (Completed 2 2)), w')
        ∧ map fst (requests_sent w') = ["https://example.org"; sample_url].
Proof.
  intros E.
  assert (fst (lambda_handler E empty_world)
          = Ok (Response 200 (Completed 2 2))) as Hfst by vm_refl.
  apply pair_fst in Hfst.
  exists (snd (lambda_handler E empty_world)). split; [exact Hfst|].
  exact (one_request_per_target E empty_world _ _ Hfst).
Defined.

(** X21. The handler writes to the items of the configured targets only:
    the item of any other target is after the run what it was before,
    whether the run returns or raises. *)
Theorem handler_writes_configured_items (E : env) (w w' : world)
    (r : res response) (other : string) :
  lambda_handler E w = (r, w') →
  other ∉ map uc_url (configured E) →
  table w' !! other = table w !! other.
Proof.
  intros Hrun Hother.
  destruct (lambda_handler_run E w) as (w1 & Hw1 & Hrun1).
  destruct Hw1 as (Ht1 & _).
  destruct (int_cooldown_hours E) as [msg|cooldown_hours].
  { rewrite Hrun in Hrun1. injection Hrun1 as _ ->. by rewrite Ht1. }
  destruct (configured E) as [|url_config rest] eqn:Hconf.
  - destruct Hrun1 as (w0 & Hrun0 & Ht & _).
    rewrite Hrun in Hrun0. injection Hrun0 as _ ->. by rewrite Ht.
  - cbv zeta in Hrun1. destruct Hrun1 as (w0 & Hrun0 & Ht & _).
    rewrite Hrun in Hrun0. injection Hrun0 as _ ->.
    rewrite Ht, process_all_table_frame by done. by rewrite Ht1.
Qed.

(** A table that holds the state of a target that is no longer
    configured. *)
Lemma handler_writes_configured_items_witness :
  let E := sample_env [sample_url] (serve "<html>Content</html>" ∅)
             (fun _ => Ok "Content") accepting in
  let st : item := {[ "last_hash" := VStr "sha256:Gone" ]} in
  let w := World {[ "https://example.org" := st ]} 0 [] [] [] in
  ∃ w', lambda_handler E w = (Ok (Response 200 (Completed 1 1)), w')
        ∧ table w' !! "https://example.org" = Some st.
Proof.
  intros E st w.
  assert (fst (lambda_handler E w) = Ok (Response 200 (Completed 1 1)))
    as Hfst by vm_refl.
  apply pair_fst in Hfst.
  assert ("https://example.org" ∉ map uc_url (configured E)) as Hother.
  { intros Hin. apply list_elem_of_singleton in Hin. discriminate Hin. }
  exists (snd (lambda_handler E w)). split; [exact Hfst|].
  etrans;
    [exact (handler_writes_configured_items E w _ _ "https://example.org"
              Hfst Hother)
    |apply lookup_singleton_eq].
Defined.

(** ** The cooldown *)

(** A float that is at least an integer is at least every smaller one. *)
Lemma float_ge_int_antitone (x : spec_float) (n n' : Z) :
  float_ge_int x n = true → (n' ≤ n)%Z → float_ge_int x n' = true.
Proof.
  intros Hge Hle. destruct x as [s|s| |s m e]; simpl in *; try done.
  - lia.
  - destruct (0 <=? e)%Z.
    + lia.
    + apply Z.leb_le. apply Z.leb_le in Hge.
      assert (0 ≤ 2 ^ (- e))%Z by (apply Z.pow_nonneg; lia). nia.
Qed.

(** X22. A shorter cooldown never suppresses a notification that a longer
    one lets through: when [should_notify] returns true for a cooldown, it
    returns true for every smaller one. *)
Theorem should_notify_antitone (E : env) (url : string)
    (prev_state : option item) (cooldown_hours shorter : Z) (w : world) :
  (shorter ≤ cooldown_hours)%Z →
  fst (should_notify E url prev_state cooldown_hours w) = Ok true →
  fst (should_notify E url prev_state shorter w) = Ok true.
Proof.
  intros Hle Hnotify.
  destruct (Z.leb_spec shorter 0) as [Hs|Hs].
  { unfold should_notify. apply Z.leb_le in Hs. by rewrite Hs. }
  assert (0 < cooldown_hours)%Z as Hc by lia.
  destruct prev_state as [st|].
  2:{ unfold should_notify. by destruct (shorter <=? 0)%Z. }
  destruct (last_notified_of (Some st)) as [v|] eqn:Hv.
  2:{ unfold should_notify. rewrite last_notified_lookup, Hv.
      by destruct (shorter <=? 0)%Z. }
  simpl in Hv.
  rewrite (should_notify_stored E url st v) in Hnotify by done.
  rewrite (should_notify_stored E url st v) by done.
  destruct (parse_last_notified E v) as [[msg|t|t]|e]; simpl in *; try done.
  injection Hnotify as Hge. f_equal.
  unfold hours_since_ge in *. by eapply float_ge_int_antitone.
Qed.

(** The sample target seven hours after its last notification. *)
Lemma should_notify_antitone_witness :
  let E := sample_env [sample_url] (serve "" ∅) Ok accepting in
  let st := sample_state (VStr "2023-12-31T18:00:00+00:00") in
  ((3 ≤ 6)%Z
   ∧ fst (should_notify E sample_url (Some st) 6 empty_world) = Ok true)
  ∧ fst (should_notify E sample_url (Some st) 3 empty_world) = Ok true.
Proof.
  intros E st.
  assert (3 ≤ 6)%Z as H1 by lia.
  assert (fst (should_notify E sample_url (Some st) 6 empty_world) = Ok true)
    as H2 by vm_refl.
  exact (conj (conj H1 H2)
           (should_notify_antitone E sample_url (Some st) 6 3 empty_world
              H1 H2)).
Defined.

(** ** The digest *)

Section BodyFacts.
Variable strftime : Z → string → string.

Lemma for_changes_ok (body : nat → change_record → res (list string))
    (changes : list change_record) (i : nat) :
  Forall (fun c => ∀ k, ∃ ls, body k c = Ok ls) changes →
  ∃ ls, Ses.for_changes body i changes = Ok ls.
Proof.
  revert i. induction changes as [|c rest IH]; intros i Hall.
  - by eexists.
  - inversion Hall as [|? ? Hc Hrest]; subst. simpl.
    destruct (Hc i) as [ls ->]. destruct (IH (S i) Hrest) as [ls' ->].
    by eexists.
Qed.

Lemma text_change_lines_ok (c : change_record) (k : nat) :
  printable_record c → ∃ ls, Ses.text_change_lines k c = Ok ls.
Proof.
  unfold printable_record, Ses.text_change_lines.
  intros [->|[Hnew [s Hs]]]; [by eexists|].
  rewrite Hnew, Hs. simpl. by eexists.
Qed.

Lemma html_change_parts_ok (c : change_record) (k : nat) :
  printable_record c → ∃ ls, Ses.html_change_parts k c = Ok ls.
Proof.
  unfold printable_record, Ses.html_change_parts.
  intros [->|[Hnew [s Hs]]]; [by eexists|].
  rewrite Hnew, Hs. simpl. by eexists.
Qed.

End BodyFacts.

(** X23. The bodies of the digest can be written for the records of
    [process_url]: slicing the previous hash is the only step of
    [generate_text_body] and [generate_html_body] that can fail, it is
    skipped for a record that says [is_new], and a record of [process_url]
    says [is_new] when it has no previous hash; so both bodies are returned
    for records made from stored hashes that are strings. *)
Theorem digest_bodies_generated :
  (∀ (E : env) (url_config : url_config) (ignore_patterns : list string)
     (cooldown_hours : Z) (w w' : world) (c : change_record),
     (∀ v, stored w (uc_url url_config) "last_hash" = Some v →
           ∃ s, v = VStr s) →
     process_url E url_config ignore_patterns cooldown_hours w
     = (Ok (Some c), w') →
     printable_record c)
  ∧ (∀ (strftime : Z → string → string) (changes : list change_record)
       (total_urls : nat) (run_time : Z),
       Forall printable_record changes →
       ∃ body_text body_html,
         Ses.generate_text_body strftime changes total_urls run_time
         = Ok body_text
         ∧ Ses.generate_html_body strftime changes total_urls run_time
           = Ok body_html).
Proof.
  split.
  - intros E url_config ignore_patterns cooldown_hours w w' c Htyped Hrun.
    destruct (process_url_outcome E url_config ignore_patterns cooldown_hours
                w w' _ Hrun) as (updates & Hplan & _).
    destruct (plan_of_record E url_config ignore_patterns cooldown_hours w
                updates c Hplan) as (_ & Hprev & _ & Hnew & _).
    unfold printable_record. rewrite Hnew, Hprev.
    unfold prev_get, state_of, dict_get, stored in *.
    destruct (get_item_error E _); [by left|].
    destruct (table w !! uc_url url_config) as [st|]; [|by left].
    simpl in Htyped.
    destruct (bool_decide (st = ∅)); [by left|].
    destruct (st !! "last_hash") as [v|]; [|by left].
    destruct (Htyped v eq_refl) as [s ->]. right. split; [done|]. by exists s.
  - intros strftime changes total_urls run_time Hall.
    unfold Ses.generate_text_body, Ses.generate_html_body.
    destruct (for_changes_ok Ses.text_change_lines changes 1) as [ls ->].
    { eapply Forall_impl; [exact Hall|]. intros c Hc k.
      by apply text_change_lines_ok. }
    destruct (for_changes_ok Ses.html_change_parts changes 1) as [ls' ->].
    { eapply Forall_impl; [exact Hall|]. intros c Hc k.
      by apply html_change_parts_ok. }
    by eexists _, _.
Qed.

(** The record of a changed page of the sample target. *)
Lemma digest_bodies_generated_witness :
  let E := sample_env [sample_url] (serve "<html>New content</html>" ∅)
             (fun _ => Ok "New content") accepting in
  let w := world_with (sample_state (VStr "2023-12-31T18:00:00+00:00")) in
  ∃ c w' body_text body_html,
    process_url E sample_config [] 6 w = (Ok (Some c), w')
    ∧ printable_record c
    ∧ Ses.generate_text_body (fun _ _ => "2024-01-01") [c] 1 T1 = Ok body_text
    ∧ Ses.generate_html_body (fun _ _ => "2024-01-01") [c] 1 T1
      = Ok body_html.
Proof.
  intros E w.
  pose (c := ChangeRecord sample_url (VStr "sha256:Old content")
               "sha256:New content"
               (generate_diff_snippet "Old content" "New content") false).
  assert (fst (process_url E sample_config [] 6%Z w) = Ok (Some c)) as Hfst
    by vm_refl.
  apply pair_fst in Hfst.
  assert (∀ v, stored w (uc_url sample_config) "last_hash" = Some v →
               ∃ s, v = VStr s) as Htyped.
  { intros v Hv. exists "sha256:Old content". vm_compute in Hv. congruence. }
  pose proof (proj1 digest_bodies_generated E sample_config [] 6%Z w _ c
                Htyped Hfst) as Hc.
  assert (Forall printable_record [c]) as Hall
    by (constructor; [exact Hc|constructor]).
  destruct (proj2 digest_bodies_generated (fun _ _ => "2024-01-01") [c] 1 T1
              Hall) as (body_text & body_html & Ht & Hh).
  exists c, (snd (process_url E sample_config [] 6%Z w)), body_text, body_html.
  split; [exact Hfst|]. split; [exact Hc|]. split; [exact Ht|exact Hh].
Defined.

(** X24. [send_digest_email] checks its configuration first: without
    [SES_FROM], with an empty one, or when [SES_TO] holds no address, it
    raises a [ValueError] and does nothing else: the clock is not read, no
    body is written and the SES client is not called. *)
Theorem send_digest_email_unconfigured (strftime : Z → string → string)
    (ses_send_email : Ses.ses_message → M string) (E : env)
    (changes : list change_record) (total_urls : nat) (w : world) :
  environ E !! "SES_FROM" = None ∨ environ E !! "SES_FROM" = Some ""
  ∨ Ses.to_addresses_of (default "" (environ E !! "SES_TO")) = [] →
  Ses.send_digest_email strftime ses_send_email E changes total_urls w
  = (Raise (Exn ValueError
              "SES_FROM and SES_TO environment variables must be set"), w).
Proof.
  unfold Ses.send_digest_email, raise.
  intros [-> | [-> | ->]].
  - done.
  - by destruct (Ses.to_addresses_of _).
  - by destruct (environ E !! "SES_FROM").
Qed.

(** A list of recipients made of blanks and commas. *)
Lemma send_digest_email_unconfigured_witness :
  let E := sample_env [sample_url] (serve "" ∅) Ok accepting in
  let E' := {| environ := <[ "SES_FROM" := "diff@example.com" ]>
                            (<[ "SES_TO" := " , ," ]> (environ E));
               urls_json := urls_json E;
               ignore_regex_json := ignore_regex_json E;
               int_cooldown_hours := int_cooldown_hours E;
               clock := clock E;
               isoformat := isoformat E;
               fromisoformat := fromisoformat E;
               requests_get := requests_get E;
               get_item_error := get_item_error E;
               update_item_error := update_item_error E;
               normalize_html := normalize_html E;
               sha256_hex := sha256_hex E;
               send_digest_error := send_digest_error E |} in
  Ses.to_addresses_of (default "" (environ E' !! "SES_TO")) = []
  ∧ Ses.send_digest_email (fun _ _ => "") (fun _ => ret "id") E' [] 1
      empty_world
    = (Raise (Exn ValueError
                "SES_FROM and SES_TO environment variables must be set"),
       empty_world).
Proof.
  intros E E'.
  assert (Ses.to_addresses_of (default "" (environ E' !! "SES_TO")) = []) as H
    by vm_refl.
  exact (conj H (send_digest_email_unconfigured _ _ E' [] 1 empty_world
                   (or_intror (or_intror H)))).
Defined.
